(** * Event-sourced aggregates, event store and repositories

    A shallow embedding of the event-sourcing core of the e-commerce
    services: the shared [Event] base class and the PostgreSQL event store,
    the Inventory, Payment, Product and Order aggregates, and the
    per-aggregate repositories.

    Conventions of the embedding.
    - A JavaScript [number] is an integer of [Z]; fractional amounts and
      NaN are outside the model.
    - [new Date()] reads a clock: every constructor and command takes the
      instant [now] it would read.  The random [eventId] of an event plays
      no part in any function embedded here and is left out.
    - A method of a class is a computation [M S A] over the object's state
      [S] that either returns or throws, and leaves the state as the
      mutations made before the throw left it.
    - A [Map<string, V>] is a [gmap string V].
    - An array is a list.  Where an object and the payload of an event it
      lists hold one and the same array (the images of a product), the
      state records which event that is, and a push on the array shows in
      both.
    - A uuid of the database is its 128-bit value. *)

From Stdlib Require Import ZArith Lia Ascii.
From stdpp Require Import gmap strings list fin_maps sorting.

Local Open Scope Z_scope.

(** ** Exceptions and the method monad *)

Module Shared.

Definition Date := Z.

(** What a [throw] carries.  [Error m] is [new Error(m)] with a literal
    message; the other constructors are the errors whose message is
    computed: the event store's version check, a rejected database query
    (the number of the query within the call), and a value object whose
    schema rejects its data ([Invalid ${what}: ${error.message}]). *)
Inductive exn :=
| Error (message : string)
| ConcurrencyConflict (expectedVersion currentVersion : Z)
| QueryFailed (n : nat)
| Invalid (what : string).

Inductive result (A : Type) :=
| Ok (a : A)
| Throw (e : exn).
Arguments Ok {A} a.
Arguments Throw {A} e.

Definition isOk {A} (r : result A) : bool :=
  match r with Ok _ => true | Throw _ => false end.

Definition M (S A : Type) : Type := S → result A * S.

Definition ret {S A} (a : A) : M S A := λ s, (Ok a, s).

Definition bind {S A B} (m : M S A) (k : A → M S B) : M S B :=
  λ s, match m s with
       | (Ok a, s') => k a s'
       | (Throw e, s') => (Throw e, s')
       end.

Definition throw {S A} (e : exn) : M S A := λ s, (Throw e, s).
Definition get {S} : M S S := λ s, (Ok s, s).
Definition modify {S} (f : S → S) : M S unit := λ s, (Ok tt, f s).

#[global] Instance M_ret S : MRet (M S) := @ret S.
#[global] Instance M_bind S : MBind (M S) := λ A B k m, bind m k.

#[global] Instance result_ret : MRet result := @Ok.
#[global] Instance result_bind : MBind result := λ A B k r,
  match r with
  | Ok a => k a
  | Throw e => Throw e
  end.

(** An expression that may throw, evaluated inside a method. *)
Definition lift {S A} (r : result A) : M S A :=
  λ s, (r, s).

(** A method of one of two objects, run where both are in scope. *)
Definition on_fst {S T A} (m : M S A) : M (S * T) A :=
  λ st, let (r, s') := m (fst st) in (r, (s', snd st)).
Definition on_snd {S T A} (m : M T A) : M (S * T) A :=
  λ st, let (r, t') := m (snd st) in (r, (fst st, t')).

(** [xs.forEach(x => body(x))] *)
Fixpoint forEach {S A} (xs : list A) (body : A → M S unit) : M S unit :=
  match xs with
  | [] => ret tt
  | x :: xs' => body x;; forEach xs' body
  end.

(** A static factory: build the object, run the method on it, return it. *)
Definition construct {S A} (obj : result S) (m : M S A) : result S :=
  match obj with
  | Throw e => Throw e
  | Ok s => match m s with
            | (Ok _, s') => Ok s'
            | (Throw e, _) => Throw e
            end
  end.

(** *** Event.ts *)

Record EventMetadata := mkEventMetadata {
  timestamp : Date;
  version : Z
}.

(** The abstract class [Event].  [D] is the type of the payloads of the
    event classes of one service; the event type tag is the one the
    subclass passes to [super], so it is a function of the payload. *)
Record Event (D : Type) := mkEvent {
  aggregateId : string;
  data : D;
  metadata : EventMetadata
}.
Arguments mkEvent {D} _ _ _.
Arguments aggregateId {D} _.
Arguments data {D} _.
Arguments metadata {D} _.

Class EventClass (D : Type) := eventTypeOf : D → string.

Definition eventType {D} `{EventClass D} (event : Event D) : string :=
  eventTypeOf (data event).

(** [new SomeEvent(aggregateId, data)]: the timestamp defaults to the
    instant of creation and the metadata version to 1. *)
Definition newEvent {D} (aggregateId : string) (d : D) (now : Date) : Event D :=
  mkEvent aggregateId d (mkEventMetadata now 1).

End Shared.
Import Shared.

(** ** The validation library

    [Joi.number()] admits the safe numbers only, those of magnitude up to
    [Number.MAX_SAFE_INTEGER]. *)
Definition MAX_SAFE_INTEGER : Z := 9007199254740991.

Definition Joi_number (n : Z) : bool :=
  (- MAX_SAFE_INTEGER <=? n) && (n <=? MAX_SAFE_INTEGER).

(** ** EventStore.ts: the PostgreSQL event store *)

Module EventStore.

(** *** Parameters compared with the uuid column

    The driver sends a JavaScript number as its text.  [number_text] is
    that text for the integers of magnitude below 10^21: the decimal
    digits, with a leading minus sign.  From 10^21 on the text is in
    exponent notation, as in 1e+21. *)
Definition digit (d : Z) : Ascii.ascii := Ascii.ascii_of_nat (48 + Z.to_nat d).

Fixpoint decimal (fuel : nat) (n : Z) : string :=
  match fuel with
  | O => ""
  | S fuel' =>
      if n <? 10 then String (digit n) ""
      else decimal fuel' (n / 10) +:+ String (digit (n mod 10)) ""
  end.

Definition number_text (n : Z) : string :=
  (if n <? 0 then "-" else "")
  +:+ decimal (S (Z.to_nat (Z.log2 (Z.abs n)))) (Z.abs n).

(** The value of a hexadecimal digit. *)
Definition hex_value (c : Ascii.ascii) : option Z :=
  let n := Z.of_nat (Ascii.nat_of_ascii c) in
  if (48 <=? n) && (n <=? 57) then Some (n - 48)
  else if (97 <=? n) && (n <=? 102) then Some (n - 87)
  else if (65 <=? n) && (n <=? 70) then Some (n - 55)
  else None.

(** The uuid input function of the database: the text of a uuid is 32
    hexadecimal digits, which may be grouped by hyphens and enclosed in
    braces.  (The database is stricter about where the hyphens and braces
    stand: every text it accepts is accepted here, with the same value.) *)
Fixpoint uuid_digits (s : string) (count : nat) (value : Z) : option (nat * Z) :=
  match s with
  | EmptyString => Some (count, value)
  | String c rest =>
      match hex_value c with
      | Some d => uuid_digits rest (S count) (16 * value + d)
      | None =>
          if Ascii.eqb c "-"%char || Ascii.eqb c "{"%char || Ascii.eqb c "}"%char
          then uuid_digits rest count value
          else None
      end
  end.

Definition uuid_in (s : string) : option Z :=
  match uuid_digits s 0 0 with
  | Some (count, value) => if (count =? 32)%nat then Some value else None
  | None => None
  end.

Section Store.
Context {D : Type} `{EventClass D}.

(** A row of the [events] table.  [id] is the uuid the store assigns
    ([DEFAULT gen_random_uuid()]), held as its 128-bit value, which is
    also how the database orders uuids; [timestamp] defaults to [NOW()].
    The column [created_at] is never read. *)
Record StoredEvent := mkStoredEvent {
  id : Z;
  aggregateId : string;
  eventType : string;
  eventData : D;
  metadata : EventMetadata;
  version : Z;
  timestamp : Date
}.

(** What the database contributes to one call: the identities its
    generator hands out (to the i-th inserted row of the call), the
    transaction's [NOW()], and which of the call's queries it rejects
    (query 0 is [BEGIN], query 1 the [SELECT], query [2+i] the i-th
    [INSERT], the one after the last [INSERT] is [COMMIT]). *)
Record Env := mkEnv {
  gen_random_uuid : nat → Z;
  NOW : Date;
  query_fails : nat → bool
}.

(** [SELECT COALESCE(MAX(version), 0) FROM events WHERE aggregate_id = $1] *)
Definition current_version (aggregateId0 : string) (table : list StoredEvent) : Z :=
  match List.map version
          (List.filter (λ r, String.eqb (aggregateId r) aggregateId0) table) with
  | [] => 0
  | v :: vs => fold_left Z.max vs v
  end.

(** The [for] loop of [saveEvents] from index [i] on, inside the open
    transaction whose working table is [txn]. *)
Fixpoint insertEvents (env : Env) (aggregateId0 : string) (expectedVersion : Z)
    (i : nat) (events : list (Event D)) (txn : list StoredEvent)
    : result (list StoredEvent) :=
  match events with
  | [] => Ok txn
  | event :: rest =>
      let version := expectedVersion + Z.of_nat i + 1 in
      if query_fails env (2 + i)%nat then Throw (QueryFailed (2 + i))
      else insertEvents env aggregateId0 expectedVersion (S i) rest
             (txn ++ [mkStoredEvent (gen_random_uuid env i) aggregateId0
                        (Shared.eventType event) (data event)
                        (Shared.metadata event) version (NOW env)])
  end.

(** The body of the [try] block: everything between [BEGIN] and
    [COMMIT], returning the table the transaction would commit. *)
Definition saveEvents_try (env : Env) (aggregateId0 : string)
    (events : list (Event D)) (expectedVersion : Z) (table : list StoredEvent)
    : result (list StoredEvent) :=
  if query_fails env 0%nat then Throw (QueryFailed 0) else
  if query_fails env 1%nat then Throw (QueryFailed 1) else
  let currentVersion := current_version aggregateId0 table in
  if negb (currentVersion =? expectedVersion)
  then Throw (ConcurrencyConflict expectedVersion currentVersion)
  else
    match insertEvents env aggregateId0 expectedVersion 0 events table with
    | Throw e => Throw e
    | Ok txn =>
        if query_fails env (2 + length events)%nat
        then Throw (QueryFailed (2 + length events))
        else Ok txn
    end.

(** [saveEvents]: the state is the committed table.  [catch] rolls the
    transaction back and rethrows.  ([pool.connect] and the [ROLLBACK] are
    taken to succeed; were one of them rejected, the call would throw that
    error with the committed table as it is.) *)
Definition saveEvents (env : Env) (aggregateId0 : string)
    (events : list (Event D)) (expectedVersion : Z) : M (list StoredEvent) unit :=
  λ table,
    match saveEvents_try env aggregateId0 events expectedVersion table with
    | Ok txn => (Ok tt, txn)
    | Throw e => (Throw e, table)
    end.

(** [ORDER BY timestamp ASC, version ASC]: a stable insertion sort of the
    rows, in table order, on the key (timestamp, version). *)
Definition order_le (a b : StoredEvent) : bool :=
  (timestamp a <? timestamp b)
  || ((timestamp a =? timestamp b) && (version a <=? version b)).

Fixpoint order_insert (r : StoredEvent) (rows : list StoredEvent) : list StoredEvent :=
  match rows with
  | [] => [r]
  | x :: xs => if order_le r x then r :: x :: xs else x :: order_insert r xs
  end.

Definition order_by_timestamp_version (rows : list StoredEvent) : list StoredEvent :=
  foldr order_insert [] rows.

(** [getEvents]: [WHERE aggregate_id = $1 AND version > $2 ORDER BY version ASC] *)
Fixpoint version_insert (r : StoredEvent) (rows : list StoredEvent) : list StoredEvent :=
  match rows with
  | [] => [r]
  | x :: xs => if version r <=? version x then r :: x :: xs
               else x :: version_insert r xs
  end.

Definition getEvents (aggregateId0 : string) (fromVersion : Z)
    (table : list StoredEvent) : list StoredEvent :=
  foldr version_insert []
    (List.filter (λ r, String.eqb (aggregateId r) aggregateId0 && (fromVersion <? version r))
       table).

(** The feeds compare the uuid column [id] with their parameter
    [fromPosition], a number: the database reads the text of the parameter
    as a uuid and rejects the statement when it is none (invalid text
    representation).  A text in exponent notation is none, no uuid having
    a plus sign.  The statement is the only query of the call and touches
    nothing. *)
Definition bind_position (fromPosition : Z) : result Z :=
  if Z.abs fromPosition <? 10 ^ 21 then
    match uuid_in (number_text fromPosition) with
    | Some position => Ok position
    | None => Throw (QueryFailed 0)
    end
  else Throw (QueryFailed 0).

(** [getAllEvents]: [WHERE id > $1 ORDER BY timestamp ASC, version ASC LIMIT $2]
    (rows equal in timestamp and version come in table order here; SQL
    leaves their order open). *)
Definition getAllEvents (fromPosition : Z) (limit : nat)
    : M (list StoredEvent) (list StoredEvent) :=
  position ← lift (bind_position fromPosition);
  table ← get;
  ret (take limit
         (order_by_timestamp_version (List.filter (λ r, position <? id r) table))).

(** [getEventsByType]: [WHERE event_type = $1 AND id > $2 ORDER BY ... LIMIT $3] *)
Definition getEventsByType (eventType0 : string) (fromPosition : Z) (limit : nat)
    : M (list StoredEvent) (list StoredEvent) :=
  position ← lift (bind_position fromPosition);
  table ← get;
  ret (take limit
         (order_by_timestamp_version
            (List.filter (λ r, String.eqb (eventType r) eventType0 && (position <? id r))
               table))).

End Store.
Arguments StoredEvent D : clear implicits.
End EventStore.

(** ** InventoryEvents.ts and the Inventory aggregate *)

Module Inventory.

Inductive ChangeType := increment | decrement | set_.

(** The event classes of the inventory service, by payload.  [OtherEvent]
    stands for an event of any class the aggregate has no [case] for. *)
Inductive InventoryEvent :=
| InventoryItemCreated (productId sku : string)
    (initialStock lowStockThreshold reservedStock : Z)
| StockUpdated (productId : string) (oldStock newStock : Z)
    (changeReason : string) (changeType : ChangeType)
| StockReserved (productId orderId : string) (quantity : Z)
    (reservedAt expiresAt : Date)
| StockReleased (productId orderId : string) (quantity : Z)
    (releasedAt : Date) (reason : string)
| StockAllocated (productId orderId : string) (quantity : Z) (allocatedAt : Date)
| LowStockAlert (productId : string) (currentStock threshold : Z) (alertedAt : Date)
| OutOfStockAlert (productId : string) (alertedAt : Date)
| InventoryThresholdUpdated (productId : string) (oldThreshold newThreshold : Z)
    (updatedAt : Date)
| OtherEvent (eventType : string).

#[global] Instance InventoryEvent_class : EventClass InventoryEvent := λ d,
  match d with
  | InventoryItemCreated _ _ _ _ _ => "InventoryItemCreated"
  | StockUpdated _ _ _ _ _ => "StockUpdated"
  | StockReserved _ _ _ _ _ => "StockReserved"
  | StockReleased _ _ _ _ _ => "StockReleased"
  | StockAllocated _ _ _ _ => "StockAllocated"
  | LowStockAlert _ _ _ _ => "LowStockAlert"
  | OutOfStockAlert _ _ => "OutOfStockAlert"
  | InventoryThresholdUpdated _ _ _ _ => "InventoryThresholdUpdated"
  | OtherEvent eventType => eventType
  end.

Module StockReservation.
Record t := mk {
  id : string;
  orderId : string;
  quantity : Z;
  reservedAt : Date;
  expiresAt : Date;
  isAllocated : bool
}.
End StockReservation.

Record t := mk {
  id : string;
  productId : string;
  sku : string;
  currentStock : Z;
  reservedStock : Z;
  lowStockThreshold : Z;
  reservations : gmap string StockReservation.t;
  createdAt : Date;
  updatedAt : Date;
  version : Z;
  uncommittedEvents : list (Event InventoryEvent)
}.

(** Field assignments [this.f = v]. *)
Definition set_productId v (this : t) : t :=
  mk (id this) v (sku this) (currentStock this) (reservedStock this)
     (lowStockThreshold this) (reservations this) (createdAt this)
     (updatedAt this) (version this) (uncommittedEvents this).
Definition set_sku v (this : t) : t :=
  mk (id this) (productId this) v (currentStock this) (reservedStock this)
     (lowStockThreshold this) (reservations this) (createdAt this)
     (updatedAt this) (version this) (uncommittedEvents this).
Definition set_currentStock v (this : t) : t :=
  mk (id this) (productId this) (sku this) v (reservedStock this)
     (lowStockThreshold this) (reservations this) (createdAt this)
     (updatedAt this) (version this) (uncommittedEvents this).
Definition set_reservedStock v (this : t) : t :=
  mk (id this) (productId this) (sku this) (currentStock this) v
     (lowStockThreshold this) (reservations this) (createdAt this)
     (updatedAt this) (version this) (uncommittedEvents this).
Definition set_lowStockThreshold v (this : t) : t :=
  mk (id this) (productId this) (sku this) (currentStock this)
     (reservedStock this) v (reservations this) (createdAt this)
     (updatedAt this) (version this) (uncommittedEvents this).
Definition set_reservations v (this : t) : t :=
  mk (id this) (productId this) (sku this) (currentStock this)
     (reservedStock this) (lowStockThreshold this) v (createdAt this)
     (updatedAt this) (version this) (uncommittedEvents this).
Definition set_createdAt v (this : t) : t :=
  mk (id this) (productId this) (sku this) (currentStock this)
     (reservedStock this) (lowStockThreshold this) (reservations this) v
     (updatedAt this) (version this) (uncommittedEvents this).
Definition set_updatedAt v (this : t) : t :=
  mk (id this) (productId this) (sku this) (currentStock this)
     (reservedStock this) (lowStockThreshold this) (reservations this)
     (createdAt this) v (version this) (uncommittedEvents this).
Definition set_version v (this : t) : t :=
  mk (id this) (productId this) (sku this) (currentStock this)
     (reservedStock this) (lowStockThreshold this) (reservations this)
     (createdAt this) (updatedAt this) v (uncommittedEvents this).
Definition set_uncommittedEvents v (this : t) : t :=
  mk (id this) (productId this) (sku this) (currentStock this)
     (reservedStock this) (lowStockThreshold this) (reservations this)
     (createdAt this) (updatedAt this) (version this) v.

(** [constructor(id)] *)
Definition new (id0 : string) (now : Date) : t :=
  mk id0 "" "" 0 0 10 ∅ now now 0 [].

(** [`${this.id}-${orderId}`] *)
Definition reservationId (this : t) (orderId : string) : string :=
  id this +:+ "-" +:+ orderId.

Definition applyInventoryItemCreated (timestamp : Date)
    (productId0 sku0 : string) (initialStock lowStockThreshold0 : Z) (this : t) : t :=
  set_updatedAt timestamp
    (set_createdAt timestamp
      (set_lowStockThreshold lowStockThreshold0
        (set_currentStock initialStock
          (set_sku sku0 (set_productId productId0 this))))).

Definition applyStockUpdated (timestamp : Date) (newStock : Z) (this : t) : t :=
  set_updatedAt timestamp (set_currentStock newStock this).

Definition applyStockReserved (timestamp : Date) (orderId : string)
    (quantity : Z) (reservedAt expiresAt : Date) (this : t) : t :=
  let reservation :=
    StockReservation.mk (reservationId this orderId) orderId quantity
      reservedAt expiresAt false in
  set_updatedAt timestamp
    (set_reservedStock (reservedStock this + quantity)
      (set_reservations
         (<[StockReservation.id reservation := reservation]> (reservations this))
         this)).

Definition applyStockReleased (timestamp : Date) (orderId : string) (this : t) : t :=
  let reservationId0 := reservationId this orderId in
  set_updatedAt timestamp
    match reservations this !! reservationId0 with
    | Some reservation =>
        set_reservations (delete reservationId0 (reservations this))
          (set_reservedStock
             (reservedStock this - StockReservation.quantity reservation) this)
    | None => this
    end.

(** [reservation.isAllocated = true] writes to the object held by the map. *)
Definition applyStockAllocated (timestamp : Date) (orderId : string)
    (quantity : Z) (this : t) : t :=
  let reservationId0 := reservationId this orderId in
  set_updatedAt timestamp
    match reservations this !! reservationId0 with
    | Some reservation =>
        set_reservedStock (reservedStock this - quantity)
          (set_currentStock (currentStock this - quantity)
            (set_reservations
               (<[reservationId0 :=
                    StockReservation.mk
                      (StockReservation.id reservation)
                      (StockReservation.orderId reservation)
                      (StockReservation.quantity reservation)
                      (StockReservation.reservedAt reservation)
                      (StockReservation.expiresAt reservation)
                      true]> (reservations this))
               this))
    | None => this
    end.

Definition applyLowStockAlert (timestamp : Date) (this : t) : t :=
  set_updatedAt timestamp this.

Definition applyOutOfStockAlert (timestamp : Date) (this : t) : t :=
  set_updatedAt timestamp this.

Definition applyInventoryThresholdUpdated (timestamp : Date)
    (newThreshold : Z) (this : t) : t :=
  set_updatedAt timestamp (set_lowStockThreshold newThreshold this).

(** [apply(event)]: the [switch] on the event type. *)
Definition apply (event : Event InventoryEvent) (this : t) : t :=
  let timestamp := Shared.timestamp (metadata event) in
  match data event with
  | InventoryItemCreated productId0 sku0 initialStock lowStockThreshold0 _ =>
      applyInventoryItemCreated timestamp productId0 sku0 initialStock
        lowStockThreshold0 this
  | StockUpdated _ _ newStock _ _ => applyStockUpdated timestamp newStock this
  | StockReserved _ orderId quantity reservedAt expiresAt =>
      applyStockReserved timestamp orderId quantity reservedAt expiresAt this
  | StockReleased _ orderId _ _ _ => applyStockReleased timestamp orderId this
  | StockAllocated _ orderId quantity _ =>
      applyStockAllocated timestamp orderId quantity this
  | LowStockAlert _ _ _ _ => applyLowStockAlert timestamp this
  | OutOfStockAlert _ _ => applyOutOfStockAlert timestamp this
  | InventoryThresholdUpdated _ _ newThreshold _ =>
      applyInventoryThresholdUpdated timestamp newThreshold this
  | OtherEvent _ => this
  end.

Definition applyEvent (event : Event InventoryEvent) : M t unit :=
  modify (apply event);;
  modify (λ this, set_version (version this + 1) this);;
  modify (λ this, set_uncommittedEvents (uncommittedEvents this ++ [event]) this).

Definition create (id0 productId0 sku0 : string) (initialStock lowStockThreshold0 : Z)
    (now : Date) : result t :=
  construct (Ok (new id0 now))
    (applyEvent
       (newEvent id0
          (InventoryItemCreated productId0 sku0 initialStock lowStockThreshold0 0)
          now)).

Definition fromEvents (id0 : string) (events : list (Event InventoryEvent))
    (now : Date) : result t :=
  construct (Ok (new id0 now)) (forEach events applyEvent).

(** Query methods *)
Definition getId (this : t) : string := id this.
Definition getCurrentStock (this : t) : Z := currentStock this.
Definition getReservedStock (this : t) : Z := reservedStock this.
Definition getAvailableStock (this : t) : Z :=
  Z.max 0 (currentStock this - reservedStock this).
Definition getLowStockThreshold (this : t) : Z := lowStockThreshold this.
Definition isLowStock (this : t) : bool :=
  (getAvailableStock this <=? lowStockThreshold this) && (0 <? getAvailableStock this).
Definition isOutOfStock (this : t) : bool := getAvailableStock this =? 0.
Definition getReservation (orderId : string) (this : t) : option StockReservation.t :=
  reservations this !! reservationId this orderId.
Definition getVersion (this : t) : Z := version this.
Definition getUncommittedEvents (this : t) : list (Event InventoryEvent) :=
  uncommittedEvents this.
Definition markEventsAsCommitted : M t unit :=
  modify (set_uncommittedEvents []).

(** Command methods *)
Definition checkStockAlerts (now : Date) : M t unit :=
  this ← get;
  let availableStock := getAvailableStock this in
  if availableStock =? 0 then
    applyEvent (newEvent (id this) (OutOfStockAlert (productId this) now) now)
  else if availableStock <=? lowStockThreshold this then
    applyEvent
      (newEvent (id this)
         (LowStockAlert (productId this) availableStock (lowStockThreshold this) now)
         now)
  else ret tt.

Definition updateStock (newStock : Z) (changeReason : string)
    (changeType : ChangeType) (now : Date) : M t unit :=
  this ← get;
  let oldStock := currentStock this in
  let newStockValue :=
    match changeType with
    | increment => currentStock this + newStock
    | decrement => Z.max 0 (currentStock this - newStock)
    | set_ => Z.max 0 newStock
    end in
  applyEvent
    (newEvent (id this)
       (StockUpdated (productId this) oldStock newStockValue changeReason changeType)
       now);;
  checkStockAlerts now.

Definition reserveStock (orderId : string) (quantity : Z) (expiresAt : Date)
    (now : Date) : M t unit :=
  this ← get;
  if quantity <=? 0 then
    throw (Error "Reservation quantity must be greater than zero")
  else if getAvailableStock this <? quantity then
    throw (Error "Insufficient available stock for reservation")
  else
    applyEvent
      (newEvent (id this)
         (StockReserved (productId this) orderId quantity now expiresAt) now).

Definition releaseStock (orderId reason : string) (now : Date) : M t unit :=
  this ← get;
  match reservations this !! reservationId this orderId with
  | None => throw (Error "Stock reservation not found")
  | Some reservation =>
      applyEvent
        (newEvent (id this)
           (StockReleased (productId this) orderId
              (StockReservation.quantity reservation) now reason) now)
  end.

Definition allocateStock (orderId : string) (quantity : Z) (now : Date) : M t unit :=
  this ← get;
  match reservations this !! reservationId this orderId with
  | None => throw (Error "Stock reservation not found")
  | Some reservation =>
      if StockReservation.quantity reservation <? quantity then
        throw (Error "Allocation quantity cannot exceed reserved quantity")
      else
        applyEvent
          (newEvent (id this) (StockAllocated (productId this) orderId quantity now)
             now)
  end.

Definition updateLowStockThreshold (newThreshold : Z) (now : Date) : M t unit :=
  this ← get;
  if newThreshold <? 0 then
    throw (Error "Low stock threshold cannot be negative")
  else
    applyEvent
      (newEvent (id this)
         (InventoryThresholdUpdated (productId this) (lowStockThreshold this)
            newThreshold now) now).

End Inventory.

(** ** PaymentEvents.ts and the Payment aggregate *)

Module Payment.

(** A value of type [any]: an opaque JSON text. *)
Definition any := string.

Inductive PaymentStatus :=
| pending | processing | completed | failed | cancelled | refunded.

Record PaymentDetails := mkPaymentDetails {
  cardNumber : option string;
  cardType : option string;
  billingAddress : any
}.

Inductive PaymentEvent :=
| PaymentRequested (orderId userId : string) (amount : Z)
    (currency paymentMethod : string) (paymentDetails : PaymentDetails)
| PaymentProcessed (orderId transactionId : string) (amount : Z)
    (currency paymentMethod : string) (processedAt : Date) (gatewayResponse : any)
| PaymentFailed (orderId failureReason errorCode : string) (failedAt : Date)
    (gatewayResponse : option any)
| PaymentRefunded (orderId refundId : string) (refundAmount : Z)
    (currency refundReason : string) (refundedAt : Date)
    (gatewayResponse : option any)
| PaymentCancelled (orderId : string) (cancelledAt : Date)
    (cancelledBy reason : string)
| OtherEvent (eventType : string).

#[global] Instance PaymentEvent_class : EventClass PaymentEvent := λ d,
  match d with
  | PaymentRequested _ _ _ _ _ _ => "PaymentRequested"
  | PaymentProcessed _ _ _ _ _ _ _ => "PaymentProcessed"
  | PaymentFailed _ _ _ _ _ => "PaymentFailed"
  | PaymentRefunded _ _ _ _ _ _ _ => "PaymentRefunded"
  | PaymentCancelled _ _ _ _ => "PaymentCancelled"
  | OtherEvent eventType => eventType
  end.

Record t := mk {
  id : string;
  orderId : string;
  userId : string;
  amount : Z;
  currency : string;
  paymentMethod : string;
  status : PaymentStatus;
  paymentDetails : PaymentDetails;
  transactionId : option string;
  gatewayResponse : option any;
  failureReason : option string;
  errorCode : option string;
  refundId : option string;
  refundAmount : option Z;
  refundReason : option string;
  refundMethod : option string;
  createdAt : Date;
  updatedAt : Date;
  processedAt : option Date;
  failedAt : option Date;
  refundedAt : option Date;
  cancelledAt : option Date;
  version : Z;
  uncommittedEvents : list (Event PaymentEvent)
}.

(** Field assignments [this.f = v]. *)
Definition set_orderId v (this : t) : t :=
  mk (id this) v (userId this) (amount this) (currency this)
     (paymentMethod this) (status this) (paymentDetails this)
     (transactionId this) (gatewayResponse this) (failureReason this)
     (errorCode this) (refundId this) (refundAmount this)
     (refundReason this) (refundMethod this) (createdAt this)
     (updatedAt this) (processedAt this) (failedAt this) (refundedAt this)
     (cancelledAt this) (version this) (uncommittedEvents this).
Definition set_userId v (this : t) : t :=
  mk (id this) (orderId this) v (amount this) (currency this)
     (paymentMethod this) (status this) (paymentDetails this)
     (transactionId this) (gatewayResponse this) (failureReason this)
     (errorCode this) (refundId this) (refundAmount this)
     (refundReason this) (refundMethod this) (createdAt this)
     (updatedAt this) (processedAt this) (failedAt this) (refundedAt this)
     (cancelledAt this) (version this) (uncommittedEvents this).
Definition set_amount v (this : t) : t :=
  mk (id this) (orderId this) (userId this) v (currency this)
     (paymentMethod this) (status this) (paymentDetails this)
     (transactionId this) (gatewayResponse this) (failureReason this)
     (errorCode this) (refundId this) (refundAmount this)
     (refundReason this) (refundMethod this) (createdAt this)
     (updatedAt this) (processedAt this) (failedAt this) (refundedAt this)
     (cancelledAt this) (version this) (uncommittedEvents this).
Definition set_currency v (this : t) : t :=
  mk (id this) (orderId this) (userId this) (amount this) v
     (paymentMethod this) (status this) (paymentDetails this)
     (transactionId this) (gatewayResponse this) (failureReason this)
     (errorCode this) (refundId this) (refundAmount this)
     (refundReason this) (refundMethod this) (createdAt this)
     (updatedAt this) (processedAt this) (failedAt this) (refundedAt this)
     (cancelledAt this) (version this) (uncommittedEvents this).
Definition set_paymentMethod v (this : t) : t :=
  mk (id this) (orderId this) (userId this) (amount this) (currency this) v
     (status this) (paymentDetails this) (transactionId this)
     (gatewayResponse this) (failureReason this) (errorCode this)
     (refundId this) (refundAmount this) (refundReason this)
     (refundMethod this) (createdAt this) (updatedAt this)
     (processedAt this) (failedAt this) (refundedAt this) (cancelledAt this)
     (version this) (uncommittedEvents this).
Definition set_status v (this : t) : t :=
  mk (id this) (orderId this) (userId this) (amount this) (currency this)
     (paymentMethod this) v (paymentDetails this) (transactionId this)
     (gatewayResponse this) (failureReason this) (errorCode this)
     (refundId this) (refundAmount this) (refundReason this)
     (refundMethod this) (createdAt this) (updatedAt this)
     (processedAt this) (failedAt this) (refundedAt this) (cancelledAt this)
     (version this) (uncommittedEvents this).
Definition set_paymentDetails v (this : t) : t :=
  mk (id this) (orderId this) (userId this) (amount this) (currency this)
     (paymentMethod this) (status this) v (transactionId this)
     (gatewayResponse this) (failureReason this) (errorCode this)
     (refundId this) (refundAmount this) (refundReason this)
     (refundMethod this) (createdAt this) (updatedAt this)
     (processedAt this) (failedAt this) (refundedAt this) (cancelledAt this)
     (version this) (uncommittedEvents this).
Definition set_transactionId v (this : t) : t :=
  mk (id this) (orderId this) (userId this) (amount this) (currency this)
     (paymentMethod this) (status this) (paymentDetails this) v
     (gatewayResponse this) (failureReason this) (errorCode this)
     (refundId this) (refundAmount this) (refundReason this)
     (refundMethod this) (createdAt this) (updatedAt this)
     (processedAt this) (failedAt this) (refundedAt this) (cancelledAt this)
     (version this) (uncommittedEvents this).
Definition set_gatewayResponse v (this : t) : t :=
  mk (id this) (orderId this) (userId this) (amount this) (currency this)
     (paymentMethod this) (status this) (paymentDetails this)
     (transactionId this) v (failureReason this) (errorCode this)
     (refundId this) (refundAmount this) (refundReason this)
     (refundMethod this) (createdAt this) (updatedAt this)
     (processedAt this) (failedAt this) (refundedAt this) (cancelledAt this)
     (version this) (uncommittedEvents this).
Definition set_failureReason v (this : t) : t :=
  mk (id this) (orderId this) (userId this) (amount this) (currency this)
     (paymentMethod this) (status this) (paymentDetails this)
     (transactionId this) (gatewayResponse this) v (errorCode this)
     (refundId this) (refundAmount this) (refundReason this)
     (refundMethod this) (createdAt this) (updatedAt this)
     (processedAt this) (failedAt this) (refundedAt this) (cancelledAt this)
     (version this) (uncommittedEvents this).
Definition set_errorCode v (this : t) : t :=
  mk (id this) (orderId this) (userId this) (amount this) (currency this)
     (paymentMethod this) (status this) (paymentDetails this)
     (transactionId this) (gatewayResponse this) (failureReason this) v
     (refundId this) (refundAmount this) (refundReason this)
     (refundMethod this) (createdAt this) (updatedAt this)
     (processedAt this) (failedAt this) (refundedAt this) (cancelledAt this)
     (version this) (uncommittedEvents this).
Definition set_refundId v (this : t) : t :=
  mk (id this) (orderId this) (userId this) (amount this) (currency this)
     (paymentMethod this) (status this) (paymentDetails this)
     (transactionId this) (gatewayResponse this) (failureReason this)
     (errorCode this) v (refundAmount this) (refundReason this)
     (refundMethod this) (createdAt this) (updatedAt this)
     (processedAt this) (failedAt this) (refundedAt this) (cancelledAt this)
     (version this) (uncommittedEvents this).
Definition set_refundAmount v (this : t) : t :=
  mk (id this) (orderId this) (userId this) (amount this) (currency this)
     (paymentMethod this) (status this) (paymentDetails this)
     (transactionId this) (gatewayResponse this) (failureReason this)
     (errorCode this) (refundId this) v (refundReason this)
     (refundMethod this) (createdAt this) (updatedAt this)
     (processedAt this) (failedAt this) (refundedAt this) (cancelledAt this)
     (version this) (uncommittedEvents this).
Definition set_refundReason v (this : t) : t :=
  mk (id this) (orderId this) (userId this) (amount this) (currency this)
     (paymentMethod this) (status this) (paymentDetails this)
     (transactionId this) (gatewayResponse this) (failureReason this)
     (errorCode this) (refundId this) (refundAmount this) v
     (refundMethod this) (createdAt this) (updatedAt this)
     (processedAt this) (failedAt this) (refundedAt this) (cancelledAt this)
     (version this) (uncommittedEvents this).
Definition set_refundMethod v (this : t) : t :=
  mk (id this) (orderId this) (userId this) (amount this) (currency this)
     (paymentMethod this) (status this) (paymentDetails this)
     (transactionId this) (gatewayResponse this) (failureReason this)
     (errorCode this) (refundId this) (refundAmount this)
     (refundReason this) v (createdAt this) (updatedAt this)
     (processedAt this) (failedAt this) (refundedAt this) (cancelledAt this)
     (version this) (uncommittedEvents this).
Definition set_createdAt v (this : t) : t :=
  mk (id this) (orderId this) (userId this) (amount this) (currency this)
     (paymentMethod this) (status this) (paymentDetails this)
     (transactionId this) (gatewayResponse this) (failureReason this)
     (errorCode this) (refundId this) (refundAmount this)
     (refundReason this) (refundMethod this) v (updatedAt this)
     (processedAt this) (failedAt this) (refundedAt this) (cancelledAt this)
     (version this) (uncommittedEvents this).
Definition set_updatedAt v (this : t) : t :=
  mk (id this) (orderId this) (userId this) (amount this) (currency this)
     (paymentMethod this) (status this) (paymentDetails this)
     (transactionId this) (gatewayResponse this) (failureReason this)
     (errorCode this) (refundId this) (refundAmount this)
     (refundReason this) (refundMethod this) (createdAt this) v
     (processedAt this) (failedAt this) (refundedAt this) (cancelledAt this)
     (version this) (uncommittedEvents this).
Definition set_processedAt v (this : t) : t :=
  mk (id this) (orderId this) (userId this) (amount this) (currency this)
     (paymentMethod this) (status this) (paymentDetails this)
     (transactionId this) (gatewayResponse this) (failureReason this)
     (errorCode this) (refundId this) (refundAmount this)
     (refundReason this) (refundMethod this) (createdAt this)
     (updatedAt this) v (failedAt this) (refundedAt this) (cancelledAt this)
     (version this) (uncommittedEvents this).
Definition set_failedAt v (this : t) : t :=
  mk (id this) (orderId this) (userId this) (amount this) (currency this)
     (paymentMethod this) (status this) (paymentDetails this)
     (transactionId this) (gatewayResponse this) (failureReason this)
     (errorCode this) (refundId this) (refundAmount this)
     (refundReason this) (refundMethod this) (createdAt this)
     (updatedAt this) (processedAt this) v (refundedAt this)
     (cancelledAt this) (version this) (uncommittedEvents this).
Definition set_refundedAt v (this : t) : t :=
  mk (id this) (orderId this) (userId this) (amount this) (currency this)
     (paymentMethod this) (status this) (paymentDetails this)
     (transactionId this) (gatewayResponse this) (failureReason this)
     (errorCode this) (refundId this) (refundAmount this)
     (refundReason this) (refundMethod this) (createdAt this)
     (updatedAt this) (processedAt this) (failedAt this) v
     (cancelledAt this) (version this) (uncommittedEvents this).
Definition set_cancelledAt v (this : t) : t :=
  mk (id this) (orderId this) (userId this) (amount this) (currency this)
     (paymentMethod this) (status this) (paymentDetails this)
     (transactionId this) (gatewayResponse this) (failureReason this)
     (errorCode this) (refundId this) (refundAmount this)
     (refundReason this) (refundMethod this) (createdAt this)
     (updatedAt this) (processedAt this) (failedAt this) (refundedAt this) v
     (version this) (uncommittedEvents this).
Definition set_version v (this : t) : t :=
  mk (id this) (orderId this) (userId this) (amount this) (currency this)
     (paymentMethod this) (status this) (paymentDetails this)
     (transactionId this) (gatewayResponse this) (failureReason this)
     (errorCode this) (refundId this) (refundAmount this)
     (refundReason this) (refundMethod this) (createdAt this)
     (updatedAt this) (processedAt this) (failedAt this) (refundedAt this)
     (cancelledAt this) v (uncommittedEvents this).
Definition set_uncommittedEvents v (this : t) : t :=
  mk (id this) (orderId this) (userId this) (amount this) (currency this)
     (paymentMethod this) (status this) (paymentDetails this)
     (transactionId this) (gatewayResponse this) (failureReason this)
     (errorCode this) (refundId this) (refundAmount this)
     (refundReason this) (refundMethod this) (createdAt this)
     (updatedAt this) (processedAt this) (failedAt this) (refundedAt this)
     (cancelledAt this) (version this) v.

(** [constructor(id)] *)
Definition new (id0 : string) (now : Date) : t :=
  mk id0 "" "" 0 "USD" "" pending (mkPaymentDetails None None "{}")
     None None None None None None None None now now None None None None 0 [].

Definition applyPaymentRequested (timestamp : Date) (orderId0 userId0 : string)
    (amount0 : Z) (currency0 paymentMethod0 : string)
    (paymentDetails0 : PaymentDetails) (this : t) : t :=
  set_updatedAt timestamp
    (set_createdAt timestamp
      (set_status pending
        (set_paymentDetails paymentDetails0
          (set_paymentMethod paymentMethod0
            (set_currency currency0
              (set_amount amount0
                (set_userId userId0 (set_orderId orderId0 this)))))))).

Definition applyPaymentProcessed (timestamp : Date) (transactionId0 : string)
    (processedAt0 : Date) (gatewayResponse0 : any) (this : t) : t :=
  set_updatedAt timestamp
    (set_processedAt (Some processedAt0)
      (set_gatewayResponse (Some gatewayResponse0)
        (set_transactionId (Some transactionId0) (set_status completed this)))).

Definition applyPaymentFailed (timestamp : Date) (failureReason0 errorCode0 : string)
    (failedAt0 : Date) (gatewayResponse0 : option any) (this : t) : t :=
  set_updatedAt timestamp
    (set_failedAt (Some failedAt0)
      (set_gatewayResponse gatewayResponse0
        (set_errorCode (Some errorCode0)
          (set_failureReason (Some failureReason0) (set_status failed this))))).

(** The event class has no [refundMethod] field: the read yields
    [undefined]. *)
Definition applyPaymentRefunded (timestamp : Date) (refundId0 : string)
    (refundAmount0 : Z) (refundReason0 : string) (refundedAt0 : Date)
    (gatewayResponse0 : option any) (this : t) : t :=
  set_updatedAt timestamp
    (set_refundedAt (Some refundedAt0)
      (set_gatewayResponse gatewayResponse0
        (set_refundMethod None
          (set_refundReason (Some refundReason0)
            (set_refundAmount (Some refundAmount0)
              (set_refundId (Some refundId0) (set_status refunded this))))))).

Definition applyPaymentCancelled (timestamp : Date) (cancelledAt0 : Date)
    (this : t) : t :=
  set_updatedAt timestamp
    (set_cancelledAt (Some cancelledAt0) (set_status cancelled this)).

Definition apply (event : Event PaymentEvent) (this : t) : t :=
  let timestamp := Shared.timestamp (metadata event) in
  match data event with
  | PaymentRequested orderId0 userId0 amount0 currency0 paymentMethod0 details =>
      applyPaymentRequested timestamp orderId0 userId0 amount0 currency0
        paymentMethod0 details this
  | PaymentProcessed _ transactionId0 _ _ _ processedAt0 gatewayResponse0 =>
      applyPaymentProcessed timestamp transactionId0 processedAt0
        gatewayResponse0 this
  | PaymentFailed _ failureReason0 errorCode0 failedAt0 gatewayResponse0 =>
      applyPaymentFailed timestamp failureReason0 errorCode0 failedAt0
        gatewayResponse0 this
  | PaymentRefunded _ refundId0 refundAmount0 _ refundReason0 refundedAt0
      gatewayResponse0 =>
      applyPaymentRefunded timestamp refundId0 refundAmount0 refundReason0
        refundedAt0 gatewayResponse0 this
  | PaymentCancelled _ cancelledAt0 _ _ =>
      applyPaymentCancelled timestamp cancelledAt0 this
  | OtherEvent _ => this
  end.

Definition applyEvent (event : Event PaymentEvent) : M t unit :=
  modify (apply event);;
  modify (λ this, set_version (version this + 1) this);;
  modify (λ this, set_uncommittedEvents (uncommittedEvents this ++ [event]) this).

Definition create (id0 orderId0 userId0 : string) (amount0 : Z)
    (currency0 paymentMethod0 : string) (paymentDetails0 : PaymentDetails)
    (now : Date) : result t :=
  construct (Ok (new id0 now))
    (applyEvent
       (newEvent id0
          (PaymentRequested orderId0 userId0 amount0 currency0 paymentMethod0
             paymentDetails0) now)).

Definition fromEvents (id0 : string) (events : list (Event PaymentEvent))
    (now : Date) : result t :=
  construct (Ok (new id0 now)) (forEach events applyEvent).

(** Command methods *)
Definition processPayment (transactionId0 : string) (gatewayResponse0 : any)
    (now : Date) : M t unit :=
  this ← get;
  match status this with
  | pending =>
      applyEvent
        (newEvent (id this)
           (PaymentProcessed (orderId this) transactionId0 (amount this)
              (currency this) (paymentMethod this) now gatewayResponse0) now)
  | _ => throw (Error "Payment can only be processed when in pending status")
  end.

Definition markAsFailed (failureReason0 errorCode0 : string)
    (gatewayResponse0 : option any) (now : Date) : M t unit :=
  this ← get;
  match status this with
  | pending | processing =>
      applyEvent
        (newEvent (id this)
           (PaymentFailed (orderId this) failureReason0 errorCode0 now
              gatewayResponse0) now)
  | _ => throw (Error "Payment can only be marked as failed when pending or processing")
  end.

Definition refund (refundId0 : string) (refundAmount0 : Z)
    (refundReason0 refundMethod0 : string) (gatewayResponse0 : option any)
    (now : Date) : M t unit :=
  this ← get;
  match status this with
  | completed =>
      if amount this <? refundAmount0 then
        throw (Error "Refund amount cannot exceed payment amount")
      else
        applyEvent
          (newEvent (id this)
             (PaymentRefunded (orderId this) refundId0 refundAmount0
                (currency this) refundReason0 now gatewayResponse0) now)
  | _ => throw (Error "Payment can only be refunded when completed")
  end.

Definition cancel (cancelledBy reason : string) (now : Date) : M t unit :=
  this ← get;
  match status this with
  | pending =>
      applyEvent
        (newEvent (id this) (PaymentCancelled (orderId this) now cancelledBy reason)
           now)
  | _ => throw (Error "Payment can only be cancelled when pending")
  end.

(** Query methods *)
Definition getId (this : t) : string := id this.
Definition getStatus (this : t) : PaymentStatus := status this.
Definition getVersion (this : t) : Z := version this.
Definition getUncommittedEvents (this : t) : list (Event PaymentEvent) :=
  uncommittedEvents this.
Definition markEventsAsCommitted : M t unit :=
  modify (set_uncommittedEvents []).

End Payment.

(** ** ProductEvents.ts, the product value objects and the Product aggregate *)

Module Product.

Definition any := string.

(** *** ProductPrice.ts

    The schema: [amount] and [compareAtPrice] positive, [currency] of
    length 3, [discountPercentage] between 0 and 100, every number a safe
    one.  ([precision] and [uppercase] convert the validated copy and
    reject nothing.) *)
Module ProductPrice.
Record t := mk {
  amount : Z;
  currency : string;
  compareAtPrice : option Z;
  discountPercentage : option Z
}.

Definition schema (data : t) : bool :=
  Joi_number (amount data) && (0 <? amount data)
  && (String.length (currency data) =? 3)%nat
  && match compareAtPrice data with
     | Some c => Joi_number c && (0 <? c)
     | None => true
     end
  && match discountPercentage data with
     | Some d => Joi_number d && (0 <=? d) && (d <=? 100)
     | None => true
     end.

Definition new (data : t) : result t :=
  if schema data then Ok data else Throw (Invalid "product price").

Definition getAmount (this : t) : Z := amount this.
End ProductPrice.

(** *** ProductAttributes.ts *)
Inductive AttributeType := string_ | number | boolean | array | object.

Module ProductAttribute.
Record t := mk {
  key : string;
  value : any;
  type : AttributeType;
  displayName : option string;
  unit : option string
}.
End ProductAttribute.

Module ProductAttributes.
Definition t := gmap string ProductAttribute.t.

(** A [Joi.string()] admits no empty string. *)
Definition schema_item (attr : ProductAttribute.t) : bool :=
  negb (String.eqb (ProductAttribute.key attr) "")
  && match ProductAttribute.displayName attr with Some s => negb (String.eqb s "") | None => true end
  && match ProductAttribute.unit attr with Some s => negb (String.eqb s "") | None => true end.

Definition schema (attributes : list ProductAttribute.t) : bool :=
  forallb schema_item attributes.

Definition new (attributes : list ProductAttribute.t) : result t :=
  if schema attributes
  then Ok (fold_left (λ m attr, <[ProductAttribute.key attr := attr]> m) attributes (∅ : t))
  else Throw (Invalid "product attributes").

Definition getAttributeValue (key0 : string) (this : t) : option any :=
  ProductAttribute.value <$> (this : gmap string ProductAttribute.t) !! key0.

Definition setAttribute (key0 : string) (value0 : any) (type0 : AttributeType)
    (this : t) : t :=
  <[key0 := ProductAttribute.mk key0 value0 type0 None None]> this.
End ProductAttributes.

Inductive ProductEvent :=
| ProductCreated (name description : string) (price : Z)
    (categoryId sku : string) (images : list string)
    (attributes : list ProductAttribute.t) (isActive : bool)
| ProductUpdated (name description : option string) (price : option Z)
    (categoryId : option string) (images : option (list string))
    (attributes : option (list ProductAttribute.t)) (isActive : option bool)
| ProductPriceChanged (oldPrice newPrice : Z) (reason : option string)
| ProductDiscontinued (reason : option string) (discontinuedAt : Date)
| ProductReactivated (reactivatedAt : Date)
| ProductStockUpdated (oldStock newStock : Z) (changeReason : string)
| ProductCategoryChanged (oldCategoryId newCategoryId : string)
| ProductImageAdded (imageUrl : string) (isPrimary : bool)
| ProductImageRemoved (imageUrl : string)
| ProductAttributeUpdated (attributeKey : string) (oldValue : option any)
    (newValue : any)
| OtherEvent (eventType : string).

#[global] Instance ProductEvent_class : EventClass ProductEvent := λ d,
  match d with
  | ProductCreated _ _ _ _ _ _ _ _ => "ProductCreated"
  | ProductUpdated _ _ _ _ _ _ _ => "ProductUpdated"
  | ProductPriceChanged _ _ _ => "ProductPriceChanged"
  | ProductDiscontinued _ _ => "ProductDiscontinued"
  | ProductReactivated _ => "ProductReactivated"
  | ProductStockUpdated _ _ _ => "ProductStockUpdated"
  | ProductCategoryChanged _ _ => "ProductCategoryChanged"
  | ProductImageAdded _ _ => "ProductImageAdded"
  | ProductImageRemoved _ => "ProductImageRemoved"
  | ProductAttributeUpdated _ _ _ => "ProductAttributeUpdated"
  | OtherEvent eventType => eventType
  end.

(** The state of a [Product].  [images] is a JavaScript array that the
    object may share with the payload of an event: [imagesHolder] is the
    index, in [uncommittedEvents], of the event whose payload array
    [this.images] is, when the product lists that event (distinct payloads
    hold distinct arrays). *)
Record t := mk {
  id : string;
  name : string;
  description : string;
  price : ProductPrice.t;
  categoryId : string;
  sku : string;
  images : list string;
  imagesHolder : option nat;
  attributes : ProductAttributes.t;
  isActive : bool;
  stock : Z;
  createdAt : Date;
  updatedAt : Date;
  discontinuedAt : option Date;
  version : Z;
  uncommittedEvents : list (Event ProductEvent)
}.

(** Field assignments [this.f = v]. *)
Definition set_name v (this : t) : t :=
  mk (id this) v (description this) (price this) (categoryId this)
     (sku this) (images this) (imagesHolder this) (attributes this)
     (isActive this) (stock this) (createdAt this) (updatedAt this)
     (discontinuedAt this) (version this) (uncommittedEvents this).
Definition set_description v (this : t) : t :=
  mk (id this) (name this) v (price this) (categoryId this) (sku this)
     (images this) (imagesHolder this) (attributes this) (isActive this)
     (stock this) (createdAt this) (updatedAt this) (discontinuedAt this)
     (version this) (uncommittedEvents this).
Definition set_price v (this : t) : t :=
  mk (id this) (name this) (description this) v (categoryId this) (sku this)
     (images this) (imagesHolder this) (attributes this) (isActive this)
     (stock this) (createdAt this) (updatedAt this) (discontinuedAt this)
     (version this) (uncommittedEvents this).
Definition set_categoryId v (this : t) : t :=
  mk (id this) (name this) (description this) (price this) v (sku this)
     (images this) (imagesHolder this) (attributes this) (isActive this)
     (stock this) (createdAt this) (updatedAt this) (discontinuedAt this)
     (version this) (uncommittedEvents this).
Definition set_sku v (this : t) : t :=
  mk (id this) (name this) (description this) (price this) (categoryId this)
     v (images this) (imagesHolder this) (attributes this) (isActive this)
     (stock this) (createdAt this) (updatedAt this) (discontinuedAt this)
     (version this) (uncommittedEvents this).
Definition set_images v (this : t) : t :=
  mk (id this) (name this) (description this) (price this) (categoryId this)
     (sku this) v (imagesHolder this) (attributes this) (isActive this)
     (stock this) (createdAt this) (updatedAt this) (discontinuedAt this)
     (version this) (uncommittedEvents this).
Definition set_imagesHolder v (this : t) : t :=
  mk (id this) (name this) (description this) (price this) (categoryId this)
     (sku this) (images this) v (attributes this) (isActive this)
     (stock this) (createdAt this) (updatedAt this) (discontinuedAt this)
     (version this) (uncommittedEvents this).
Definition set_attributes v (this : t) : t :=
  mk (id this) (name this) (description this) (price this) (categoryId this)
     (sku this) (images this) (imagesHolder this) v (isActive this)
     (stock this) (createdAt this) (updatedAt this) (discontinuedAt this)
     (version this) (uncommittedEvents this).
Definition set_isActive v (this : t) : t :=
  mk (id this) (name this) (description this) (price this) (categoryId this)
     (sku this) (images this) (imagesHolder this) (attributes this) v
     (stock this) (createdAt this) (updatedAt this) (discontinuedAt this)
     (version this) (uncommittedEvents this).
Definition set_stock v (this : t) : t :=
  mk (id this) (name this) (description this) (price this) (categoryId this)
     (sku this) (images this) (imagesHolder this) (attributes this)
     (isActive this) v (createdAt this) (updatedAt this)
     (discontinuedAt this) (version this) (uncommittedEvents this).
Definition set_createdAt v (this : t) : t :=
  mk (id this) (name this) (description this) (price this) (categoryId this)
     (sku this) (images this) (imagesHolder this) (attributes this)
     (isActive this) (stock this) v (updatedAt this) (discontinuedAt this)
     (version this) (uncommittedEvents this).
Definition set_updatedAt v (this : t) : t :=
  mk (id this) (name this) (description this) (price this) (categoryId this)
     (sku this) (images this) (imagesHolder this) (attributes this)
     (isActive this) (stock this) (createdAt this) v (discontinuedAt this)
     (version this) (uncommittedEvents this).
Definition set_discontinuedAt v (this : t) : t :=
  mk (id this) (name this) (description this) (price this) (categoryId this)
     (sku this) (images this) (imagesHolder this) (attributes this)
     (isActive this) (stock this) (createdAt this) (updatedAt this) v
     (version this) (uncommittedEvents this).
Definition set_version v (this : t) : t :=
  mk (id this) (name this) (description this) (price this) (categoryId this)
     (sku this) (images this) (imagesHolder this) (attributes this)
     (isActive this) (stock this) (createdAt this) (updatedAt this)
     (discontinuedAt this) v (uncommittedEvents this).
Definition set_uncommittedEvents v (this : t) : t :=
  mk (id this) (name this) (description this) (price this) (categoryId this)
     (sku this) (images this) (imagesHolder this) (attributes this)
     (isActive this) (stock this) (createdAt this) (updatedAt this)
     (discontinuedAt this) (version this) v.

(** [constructor(id)]: the fields are initialised in order, so the
    placeholder price is built (and validated) before the attributes. *)
Definition new (id0 : string) (now : Date) : result t :=
  price0 ← ProductPrice.new (ProductPrice.mk 0 "USD" None None);
  attributes0 ← ProductAttributes.new [];
  mret (mk id0 "" "" price0 "" "" [] None attributes0 false 0 now now None 0 []).

(** [this.images = data.images]: [this.images] is now the array the
    payload of the event being applied holds.  [applyEvent] lists that
    event next, at the index the list has as its length now. *)
Definition share_images (images0 : list string) : M t unit :=
  modify (set_images images0);;
  modify (λ this, set_imagesHolder (Some (length (uncommittedEvents this))) this).

Definition applyProductCreated (timestamp : Date) (name0 description0 : string)
    (price0 : Z) (categoryId0 sku0 : string) (images0 : list string)
    (attributes0 : list ProductAttribute.t) (isActive0 : bool) : M t unit :=
  modify (set_name name0);;
  modify (set_description description0);;
  p ← lift (ProductPrice.new (ProductPrice.mk price0 "USD" None None));
  modify (set_price p);;
  modify (set_categoryId categoryId0);;
  modify (set_sku sku0);;
  share_images images0;;
  a ← lift (ProductAttributes.new attributes0);
  modify (set_attributes a);;
  modify (set_isActive isActive0);;
  modify (set_createdAt timestamp);;
  modify (set_updatedAt timestamp).

(** [if (data.f !== undefined) this.f = data.f] *)
Definition assign_if_defined {A} (setter : A → t → t) (v : option A) : M t unit :=
  match v with
  | Some a => modify (setter a)
  | None => ret tt
  end.

Definition applyProductUpdated (timestamp : Date) (name0 description0 : option string)
    (categoryId0 : option string) (images0 : option (list string))
    (attributes0 : option (list ProductAttribute.t)) (isActive0 : option bool)
    : M t unit :=
  assign_if_defined set_name name0;;
  assign_if_defined set_description description0;;
  assign_if_defined set_categoryId categoryId0;;
  match images0 with
  | Some images1 => share_images images1
  | None => ret tt
  end;;
  match attributes0 with
  | Some attrs => a ← lift (ProductAttributes.new attrs); modify (set_attributes a)
  | None => ret tt
  end;;
  assign_if_defined set_isActive isActive0;;
  modify (set_updatedAt timestamp).

Definition applyProductPriceChanged (timestamp : Date) (newPrice : Z) : M t unit :=
  p ← lift (ProductPrice.new (ProductPrice.mk newPrice "USD" None None));
  modify (set_price p);;
  modify (set_updatedAt timestamp).

Definition applyProductDiscontinued (timestamp : Date) (discontinuedAt0 : Date)
    : M t unit :=
  modify (set_isActive false);;
  modify (set_discontinuedAt (Some discontinuedAt0));;
  modify (set_updatedAt timestamp).

Definition applyProductReactivated (timestamp : Date) : M t unit :=
  modify (set_isActive true);;
  modify (set_discontinuedAt None);;
  modify (set_updatedAt timestamp).

Definition applyProductStockUpdated (timestamp : Date) (newStock : Z) : M t unit :=
  modify (set_stock newStock);;
  modify (set_updatedAt timestamp).

Definition applyProductCategoryChanged (timestamp : Date) (newCategoryId : string)
    : M t unit :=
  modify (set_categoryId newCategoryId);;
  modify (set_updatedAt timestamp).

(** The payload of a [ProductCreated] or [ProductUpdated] event after
    [url] was pushed onto its [images] array. *)
Definition push_to_payload (url : string) (event : Event ProductEvent)
    : Event ProductEvent :=
  match data event with
  | ProductCreated name0 description0 price0 categoryId0 sku0 images0 attributes0
      isActive0 =>
      mkEvent (aggregateId event)
        (ProductCreated name0 description0 price0 categoryId0 sku0
           (images0 ++ [url]) attributes0 isActive0)
        (metadata event)
  | ProductUpdated name0 description0 price0 categoryId0 (Some images0) attributes0
      isActive0 =>
      mkEvent (aggregateId event)
        (ProductUpdated name0 description0 price0 categoryId0
           (Some (images0 ++ [url])) attributes0 isActive0)
        (metadata event)
  | _ => event
  end.

(** [this.images.push(url)]: the push is made on the array itself, so the
    uncommitted event whose payload holds that array shows it too. *)
Definition applyProductImageAdded (timestamp : Date) (imageUrl : string) : M t unit :=
  modify (λ this, set_images (images this ++ [imageUrl]) this);;
  modify (λ this,
    match imagesHolder this with
    | Some i =>
        set_uncommittedEvents
          (alter (push_to_payload imageUrl) i (uncommittedEvents this)) this
    | None => this
    end);;
  modify (set_updatedAt timestamp).

(** [this.images = this.images.filter(...)]: a new array, which no event
    holds. *)
Definition applyProductImageRemoved (timestamp : Date) (imageUrl : string)
    : M t unit :=
  modify (λ this,
    set_images (List.filter (λ img, negb (String.eqb img imageUrl)) (images this))
      this);;
  modify (set_imagesHolder None);;
  modify (set_updatedAt timestamp).

Definition applyProductAttributeUpdated (timestamp : Date) (attributeKey : string)
    (newValue : any) : M t unit :=
  modify (λ this,
    set_attributes
      (ProductAttributes.setAttribute attributeKey newValue string_ (attributes this))
      this);;
  modify (set_updatedAt timestamp).

Definition apply (event : Event ProductEvent) : M t unit :=
  let timestamp := Shared.timestamp (metadata event) in
  match data event with
  | ProductCreated name0 description0 price0 categoryId0 sku0 images0 attributes0
      isActive0 =>
      applyProductCreated timestamp name0 description0 price0 categoryId0 sku0
        images0 attributes0 isActive0
  | ProductUpdated name0 description0 _ categoryId0 images0 attributes0 isActive0 =>
      applyProductUpdated timestamp name0 description0 categoryId0 images0
        attributes0 isActive0
  | ProductPriceChanged _ newPrice _ => applyProductPriceChanged timestamp newPrice
  | ProductDiscontinued _ discontinuedAt0 =>
      applyProductDiscontinued timestamp discontinuedAt0
  | ProductReactivated _ => applyProductReactivated timestamp
  | ProductStockUpdated _ newStock _ => applyProductStockUpdated timestamp newStock
  | ProductCategoryChanged _ newCategoryId =>
      applyProductCategoryChanged timestamp newCategoryId
  | ProductImageAdded imageUrl _ => applyProductImageAdded timestamp imageUrl
  | ProductImageRemoved imageUrl => applyProductImageRemoved timestamp imageUrl
  | ProductAttributeUpdated attributeKey _ newValue =>
      applyProductAttributeUpdated timestamp attributeKey newValue
  | OtherEvent _ => ret tt
  end.

Definition applyEvent (event : Event ProductEvent) : M t unit :=
  apply event;;
  modify (λ this, set_version (version this + 1) this);;
  modify (λ this, set_uncommittedEvents (uncommittedEvents this ++ [event]) this).

Definition create (id0 name0 description0 : string) (price0 : ProductPrice.t)
    (categoryId0 sku0 : string) (images0 : list string)
    (attributes0 : list ProductAttribute.t) (now : Date) : result t :=
  construct (new id0 now)
    (applyEvent
       (newEvent id0
          (ProductCreated name0 description0 (ProductPrice.amount price0)
             categoryId0 sku0 images0 attributes0 true) now)).

Definition fromEvents (id0 : string) (events : list (Event ProductEvent))
    (now : Date) : result t :=
  construct (new id0 now) (forEach events applyEvent).

(** Command methods *)
Definition updateProduct (name0 description0 categoryId0 : option string)
    (images0 : option (list string)) (attributes0 : option (list ProductAttribute.t))
    (isActive0 : option bool) (now : Date) : M t unit :=
  this ← get;
  if negb (isActive this) then
    throw (Error "Cannot update a discontinued product")
  else
    applyEvent
      (newEvent (id this)
         (ProductUpdated name0 description0 None categoryId0 images0 attributes0
            isActive0) now).

Definition changePrice (newPrice : Z) (reason : option string) (now : Date)
    : M t unit :=
  this ← get;
  if negb (isActive this) then
    throw (Error "Cannot change price of a discontinued product")
  else if newPrice <=? 0 then
    throw (Error "Price must be greater than zero")
  else
    applyEvent
      (newEvent (id this)
         (ProductPriceChanged (ProductPrice.getAmount (price this)) newPrice reason)
         now).

Definition discontinue (reason : option string) (now : Date) : M t unit :=
  this ← get;
  if negb (isActive this) then
    throw (Error "Product is already discontinued")
  else
    applyEvent (newEvent (id this) (ProductDiscontinued reason now) now).

Definition reactivate (now : Date) : M t unit :=
  this ← get;
  if isActive this then
    throw (Error "Product is already active")
  else
    applyEvent (newEvent (id this) (ProductReactivated now) now).

Definition updateStock (newStock : Z) (changeReason : string) (now : Date)
    : M t unit :=
  this ← get;
  if newStock <? 0 then
    throw (Error "Stock cannot be negative")
  else
    applyEvent
      (newEvent (id this) (ProductStockUpdated (stock this) newStock changeReason)
         now).

Definition changeCategory (newCategoryId : string) (now : Date) : M t unit :=
  this ← get;
  if negb (isActive this) then
    throw (Error "Cannot change category of a discontinued product")
  else
    applyEvent
      (newEvent (id this) (ProductCategoryChanged (categoryId this) newCategoryId)
         now).

Definition addImage (imageUrl : string) (isPrimary : bool) (now : Date) : M t unit :=
  this ← get;
  if negb (isActive this) then
    throw (Error "Cannot add image to a discontinued product")
  else
    applyEvent (newEvent (id this) (ProductImageAdded imageUrl isPrimary) now).

Definition removeImage (imageUrl : string) (now : Date) : M t unit :=
  this ← get;
  if negb (existsb (String.eqb imageUrl) (images this)) then
    throw (Error "Image not found")
  else
    applyEvent (newEvent (id this) (ProductImageRemoved imageUrl) now).

Definition updateAttribute (key0 : string) (value0 : any) (now : Date) : M t unit :=
  this ← get;
  if negb (isActive this) then
    throw (Error "Cannot update attributes of a discontinued product")
  else
    let oldValue := ProductAttributes.getAttributeValue key0 (attributes this) in
    applyEvent
      (newEvent (id this) (ProductAttributeUpdated key0 oldValue value0) now).

(** Query methods *)
Definition getId (this : t) : string := id this.
Definition isProductActive (this : t) : bool := isActive this.
Definition getStock (this : t) : Z := stock this.
Definition getVersion (this : t) : Z := version this.
Definition getUncommittedEvents (this : t) : list (Event ProductEvent) :=
  uncommittedEvents this.

(** [this.uncommittedEvents = []]: the product lists no event any more,
    the one whose payload array [this.images] is included. *)
Definition markEventsAsCommitted : M t unit :=
  modify (set_uncommittedEvents []);;
  modify (set_imagesHolder None).

End Product.

(** ** OrderEvents.ts, the order value objects and the Order aggregate

    The value objects validate their data against a schema and throw when
    it is rejected.  The length and sign rules of the schemas are computed
    here; the two format tests of the validation library ([uuid()] and
    [email()]) are parameters. *)

Module Order.

(** [Joi.string().min(lo).max(hi).required()] *)
Definition string_min_max (lo hi : nat) (s : string) : bool :=
  ((lo <=? String.length s) && (String.length s <=? hi))%nat.

(** *** OrderAddress.ts *)
Module OrderAddress.
Record t := mk {
  street : string;
  city : string;
  state : string;
  zipCode : string;
  country : string;
  phone : option string;
  email : option string
}.

Section Schema.
Variable is_email : string → bool.

Definition schema (data : t) : bool :=
  string_min_max 1 255 (street data)
  && string_min_max 1 100 (city data)
  && string_min_max 1 100 (state data)
  && string_min_max 1 20 (zipCode data)
  && string_min_max 1 100 (country data)
  && match phone data with Some p => string_min_max 1 20 p | None => true end
  && match email data with Some e => is_email e | None => true end.

Definition new (data : t) : result t :=
  if schema data then Ok data else Throw (Invalid "order address").
End Schema.

Definition toJSON (this : t) : t := this.
End OrderAddress.

(** *** OrderItem.ts *)
Module OrderItem.
Record t := mk {
  id : string;
  productId : string;
  sku : string;
  name : string;
  quantity : Z;
  unitPrice : Z;
  totalPrice : Z;
  currency : string
}.

Section Schema.
Variable is_uuid : string → bool.

Definition schema (data : t) : bool :=
  is_uuid (id data)
  && is_uuid (productId data)
  && string_min_max 1 100 (sku data)
  && string_min_max 1 255 (name data)
  && Joi_number (quantity data) && (1 <=? quantity data)
  && Joi_number (unitPrice data) && (0 <? unitPrice data)
  && Joi_number (totalPrice data) && (0 <? totalPrice data)
  && (String.length (currency data) =? 3)%nat.

Definition new (data : t) : result t :=
  if schema data then Ok data else Throw (Invalid "order item").

Definition updateQuantity (newQuantity : Z) (this : t) : result t :=
  if newQuantity <=? 0 then Throw (Error "Quantity must be greater than zero")
  else
    let newTotalPrice := unitPrice this * newQuantity in
    new (mk (id this) (productId this) (sku this) (name this) newQuantity
           (unitPrice this) newTotalPrice (currency this)).
End Schema.

Definition getId (this : t) : string := id this.
Definition getProductId (this : t) : string := productId this.
Definition getUnitPrice (this : t) : Z := unitPrice this.
Definition getTotalPrice (this : t) : Z := totalPrice this.
End OrderItem.

(** The status is a string at run time ([OrderStatusChanged] stores any). *)
Definition OrderStatus := string.

Inductive AddressType := shipping | billing.

(** An element of [OrderCreated.data.items]. *)
Module CreatedItem.
Record t := mk {
  productId : string;
  quantity : Z;
  price : Z;
  sku : string
}.
End CreatedItem.

Inductive OrderEvent :=
| OrderCreated (userId : string) (items : list CreatedItem.t) (totalAmount : Z)
    (currency : string) (shippingAddress billingAddress : OrderAddress.t)
    (paymentMethod : string)
| OrderConfirmed (confirmedAt : Date) (confirmedBy : string)
| OrderPaymentRequested (paymentId : string) (amount : Z)
    (currency paymentMethod : string)
| OrderPaid (paymentId : string) (paidAt : Date) (transactionId : string)
    (amount : Z) (currency : string)
| OrderPaymentFailed (paymentId : string) (failedAt : Date) (reason : string)
    (errorCode : option string)
| OrderShipped (trackingNumber carrier : string) (shippedAt estimatedDelivery : Date)
| OrderDelivered (deliveredAt : Date) (deliveredTo : string)
    (signature : option string)
| OrderCancelled (cancelledAt : Date) (cancelledBy reason : string)
    (refundAmount : option Z)
| OrderRefunded (refundId : string) (refundedAt : Date) (refundAmount : Z)
    (currency reason refundMethod : string)
| OrderItemUpdated (itemId productId : string) (quantity price : Z) (updatedAt : Date)
| OrderItemRemoved (itemId productId : string) (removedAt : Date)
    (reason : option string)
| OrderStatusChanged (oldStatus newStatus : string) (changedAt : Date)
    (changedBy : string) (reason : option string)
| OrderAddressUpdated (addressType : AddressType)
    (oldAddress newAddress : OrderAddress.t) (updatedAt : Date)
| OtherEvent (eventType : string).

#[global] Instance OrderEvent_class : EventClass OrderEvent := λ d,
  match d with
  | OrderCreated _ _ _ _ _ _ _ => "OrderCreated"
  | OrderConfirmed _ _ => "OrderConfirmed"
  | OrderPaymentRequested _ _ _ _ => "OrderPaymentRequested"
  | OrderPaid _ _ _ _ _ => "OrderPaid"
  | OrderPaymentFailed _ _ _ _ => "OrderPaymentFailed"
  | OrderShipped _ _ _ _ => "OrderShipped"
  | OrderDelivered _ _ _ => "OrderDelivered"
  | OrderCancelled _ _ _ _ => "OrderCancelled"
  | OrderRefunded _ _ _ _ _ _ => "OrderRefunded"
  | OrderItemUpdated _ _ _ _ _ => "OrderItemUpdated"
  | OrderItemRemoved _ _ _ _ => "OrderItemRemoved"
  | OrderStatusChanged _ _ _ _ _ => "OrderStatusChanged"
  | OrderAddressUpdated _ _ _ _ => "OrderAddressUpdated"
  | OtherEvent eventType => eventType
  end.

Record t := mk {
  id : string;
  userId : string;
  items : gmap string OrderItem.t;
  totalAmount : Z;
  currency : string;
  status : OrderStatus;
  shippingAddress : OrderAddress.t;
  billingAddress : OrderAddress.t;
  paymentMethod : string;
  paymentId : option string;
  trackingNumber : option string;
  carrier : option string;
  createdAt : Date;
  updatedAt : Date;
  confirmedAt : option Date;
  paidAt : option Date;
  shippedAt : option Date;
  deliveredAt : option Date;
  cancelledAt : option Date;
  refundedAt : option Date;
  version : Z;
  uncommittedEvents : list (Event OrderEvent)
}.

(** Field assignments [this.f = v]. *)
Definition set_userId v (this : t) : t :=
  mk (id this) v (items this) (totalAmount this) (currency this)
     (status this) (shippingAddress this) (billingAddress this)
     (paymentMethod this) (paymentId this) (trackingNumber this)
     (carrier this) (createdAt this) (updatedAt this) (confirmedAt this)
     (paidAt this) (shippedAt this) (deliveredAt this) (cancelledAt this)
     (refundedAt this) (version this) (uncommittedEvents this).
Definition set_items v (this : t) : t :=
  mk (id this) (userId this) v (totalAmount this) (currency this)
     (status this) (shippingAddress this) (billingAddress this)
     (paymentMethod this) (paymentId this) (trackingNumber this)
     (carrier this) (createdAt this) (updatedAt this) (confirmedAt this)
     (paidAt this) (shippedAt this) (deliveredAt this) (cancelledAt this)
     (refundedAt this) (version this) (uncommittedEvents this).
Definition set_totalAmount v (this : t) : t :=
  mk (id this) (userId this) (items this) v (currency this) (status this)
     (shippingAddress this) (billingAddress this) (paymentMethod this)
     (paymentId this) (trackingNumber this) (carrier this) (createdAt this)
     (updatedAt this) (confirmedAt this) (paidAt this) (shippedAt this)
     (deliveredAt this) (cancelledAt this) (refundedAt this) (version this)
     (uncommittedEvents this).
Definition set_currency v (this : t) : t :=
  mk (id this) (userId this) (items this) (totalAmount this) v (status this)
     (shippingAddress this) (billingAddress this) (paymentMethod this)
     (paymentId this) (trackingNumber this) (carrier this) (createdAt this)
     (updatedAt this) (confirmedAt this) (paidAt this) (shippedAt this)
     (deliveredAt this) (cancelledAt this) (refundedAt this) (version this)
     (uncommittedEvents this).
Definition set_status v (this : t) : t :=
  mk (id this) (userId this) (items this) (totalAmount this) (currency this)
     v (shippingAddress this) (billingAddress this) (paymentMethod this)
     (paymentId this) (trackingNumber this) (carrier this) (createdAt this)
     (updatedAt this) (confirmedAt this) (paidAt this) (shippedAt this)
     (deliveredAt this) (cancelledAt this) (refundedAt this) (version this)
     (uncommittedEvents this).
Definition set_shippingAddress v (this : t) : t :=
  mk (id this) (userId this) (items this) (totalAmount this) (currency this)
     (status this) v (billingAddress this) (paymentMethod this)
     (paymentId this) (trackingNumber this) (carrier this) (createdAt this)
     (updatedAt this) (confirmedAt this) (paidAt this) (shippedAt this)
     (deliveredAt this) (cancelledAt this) (refundedAt this) (version this)
     (uncommittedEvents this).
Definition set_billingAddress v (this : t) : t :=
  mk (id this) (userId this) (items this) (totalAmount this) (currency this)
     (status this) (shippingAddress this) v (paymentMethod this)
     (paymentId this) (trackingNumber this) (carrier this) (createdAt this)
     (updatedAt this) (confirmedAt this) (paidAt this) (shippedAt this)
     (deliveredAt this) (cancelledAt this) (refundedAt this) (version this)
     (uncommittedEvents this).
Definition set_paymentMethod v (this : t) : t :=
  mk (id this) (userId this) (items this) (totalAmount this) (currency this)
     (status this) (shippingAddress this) (billingAddress this) v
     (paymentId this) (trackingNumber this) (carrier this) (createdAt this)
     (updatedAt this) (confirmedAt this) (paidAt this) (shippedAt this)
     (deliveredAt this) (cancelledAt this) (refundedAt this) (version this)
     (uncommittedEvents this).
Definition set_paymentId v (this : t) : t :=
  mk (id this) (userId this) (items this) (totalAmount this) (currency this)
     (status this) (shippingAddress this) (billingAddress this)
     (paymentMethod this) v (trackingNumber this) (carrier this)
     (createdAt this) (updatedAt this) (confirmedAt this) (paidAt this)
     (shippedAt this) (deliveredAt this) (cancelledAt this)
     (refundedAt this) (version this) (uncommittedEvents this).
Definition set_trackingNumber v (this : t) : t :=
  mk (id this) (userId this) (items this) (totalAmount this) (currency this)
     (status this) (shippingAddress this) (billingAddress this)
     (paymentMethod this) (paymentId this) v (carrier this) (createdAt this)
     (updatedAt this) (confirmedAt this) (paidAt this) (shippedAt this)
     (deliveredAt this) (cancelledAt this) (refundedAt this) (version this)
     (uncommittedEvents this).
Definition set_carrier v (this : t) : t :=
  mk (id this) (userId this) (items this) (totalAmount this) (currency this)
     (status this) (shippingAddress this) (billingAddress this)
     (paymentMethod this) (paymentId this) (trackingNumber this) v
     (createdAt this) (updatedAt this) (confirmedAt this) (paidAt this)
     (shippedAt this) (deliveredAt this) (cancelledAt this)
     (refundedAt this) (version this) (uncommittedEvents this).
Definition set_createdAt v (this : t) : t :=
  mk (id this) (userId this) (items this) (totalAmount this) (currency this)
     (status this) (shippingAddress this) (billingAddress this)
     (paymentMethod this) (paymentId this) (trackingNumber this)
     (carrier this) v (updatedAt this) (confirmedAt this) (paidAt this)
     (shippedAt this) (deliveredAt this) (cancelledAt this)
     (refundedAt this) (version this) (uncommittedEvents this).
Definition set_updatedAt v (this : t) : t :=
  mk (id this) (userId this) (items this) (totalAmount this) (currency this)
     (status this) (shippingAddress this) (billingAddress this)
     (paymentMethod this) (paymentId this) (trackingNumber this)
     (carrier this) (createdAt this) v (confirmedAt this) (paidAt this)
     (shippedAt this) (deliveredAt this) (cancelledAt this)
     (refundedAt this) (version this) (uncommittedEvents this).
Definition set_confirmedAt v (this : t) : t :=
  mk (id this) (userId this) (items this) (totalAmount this) (currency this)
     (status this) (shippingAddress this) (billingAddress this)
     (paymentMethod this) (paymentId this) (trackingNumber this)
     (carrier this) (createdAt this) (updatedAt this) v (paidAt this)
     (shippedAt this) (deliveredAt this) (cancelledAt this)
     (refundedAt this) (version this) (uncommittedEvents this).
Definition set_paidAt v (this : t) : t :=
  mk (id this) (userId this) (items this) (totalAmount this) (currency this)
     (status this) (shippingAddress this) (billingAddress this)
     (paymentMethod this) (paymentId this) (trackingNumber this)
     (carrier this) (createdAt this) (updatedAt this) (confirmedAt this) v
     (shippedAt this) (deliveredAt this) (cancelledAt this)
     (refundedAt this) (version this) (uncommittedEvents this).
Definition set_shippedAt v (this : t) : t :=
  mk (id this) (userId this) (items this) (totalAmount this) (currency this)
     (status this) (shippingAddress this) (billingAddress this)
     (paymentMethod this) (paymentId this) (trackingNumber this)
     (carrier this) (createdAt this) (updatedAt this) (confirmedAt this)
     (paidAt this) v (deliveredAt this) (cancelledAt this) (refundedAt this)
     (version this) (uncommittedEvents this).
Definition set_deliveredAt v (this : t) : t :=
  mk (id this) (userId this) (items this) (totalAmount this) (currency this)
     (status this) (shippingAddress this) (billingAddress this)
     (paymentMethod this) (paymentId this) (trackingNumber this)
     (carrier this) (createdAt this) (updatedAt this) (confirmedAt this)
     (paidAt this) (shippedAt this) v (cancelledAt this) (refundedAt this)
     (version this) (uncommittedEvents this).
Definition set_cancelledAt v (this : t) : t :=
  mk (id this) (userId this) (items this) (totalAmount this) (currency this)
     (status this) (shippingAddress this) (billingAddress this)
     (paymentMethod this) (paymentId this) (trackingNumber this)
     (carrier this) (createdAt this) (updatedAt this) (confirmedAt this)
     (paidAt this) (shippedAt this) (deliveredAt this) v (refundedAt this)
     (version this) (uncommittedEvents this).
Definition set_refundedAt v (this : t) : t :=
  mk (id this) (userId this) (items this) (totalAmount this) (currency this)
     (status this) (shippingAddress this) (billingAddress this)
     (paymentMethod this) (paymentId this) (trackingNumber this)
     (carrier this) (createdAt this) (updatedAt this) (confirmedAt this)
     (paidAt this) (shippedAt this) (deliveredAt this) (cancelledAt this) v
     (version this) (uncommittedEvents this).
Definition set_version v (this : t) : t :=
  mk (id this) (userId this) (items this) (totalAmount this) (currency this)
     (status this) (shippingAddress this) (billingAddress this)
     (paymentMethod this) (paymentId this) (trackingNumber this)
     (carrier this) (createdAt this) (updatedAt this) (confirmedAt this)
     (paidAt this) (shippedAt this) (deliveredAt this) (cancelledAt this)
     (refundedAt this) v (uncommittedEvents this).
Definition set_uncommittedEvents v (this : t) : t :=
  mk (id this) (userId this) (items this) (totalAmount this) (currency this)
     (status this) (shippingAddress this) (billingAddress this)
     (paymentMethod this) (paymentId this) (trackingNumber this)
     (carrier this) (createdAt this) (updatedAt this) (confirmedAt this)
     (paidAt this) (shippedAt this) (deliveredAt this) (cancelledAt this)
     (refundedAt this) (version this) v.

Section Aggregate.
Variables is_uuid is_email : string → bool.

Definition blankAddress : OrderAddress.t :=
  OrderAddress.mk "" "" "" "" "" None None.

(** [constructor(id)]: the fields are initialised in order; the two
    placeholder addresses go through the [OrderAddress] constructor. *)
Definition new (id0 : string) (now : Date) : result t :=
  shippingAddress0 ← OrderAddress.new is_email blankAddress;
  billingAddress0 ← OrderAddress.new is_email blankAddress;
  mret (mk id0 "" ∅ 0 "USD" "pending" shippingAddress0 billingAddress0 ""
          None None None now now None None None None None None 0 []).

Definition recalculateTotal : M t unit :=
  modify (λ this,
    set_totalAmount
      (map_fold (λ _ item sum, sum + OrderItem.getTotalPrice item) 0 (items this))
      this).

Definition applyOrderCreated (timestamp : Date) (userId0 : string)
    (items0 : list CreatedItem.t) (totalAmount0 : Z) (currency0 : string)
    (shippingAddress0 billingAddress0 : OrderAddress.t) (paymentMethod0 : string)
    : M t unit :=
  modify (set_userId userId0);;
  modify (set_currency currency0);;
  s ← lift (OrderAddress.new is_email shippingAddress0);
  modify (set_shippingAddress s);;
  b ← lift (OrderAddress.new is_email billingAddress0);
  modify (set_billingAddress b);;
  modify (set_paymentMethod paymentMethod0);;
  modify (set_createdAt timestamp);;
  modify (set_updatedAt timestamp);;
  forEach items0 (λ item,
    this ← get;
    orderItem ← lift
      (OrderItem.new is_uuid
         (OrderItem.mk (id this +:+ "-" +:+ CreatedItem.productId item)
            (CreatedItem.productId item) (CreatedItem.sku item) ""
            (CreatedItem.quantity item) (CreatedItem.price item)
            (CreatedItem.price item * CreatedItem.quantity item)
            (currency this)));
    modify (set_items (<[OrderItem.getId orderItem := orderItem]> (items this))));;
  modify (set_totalAmount totalAmount0).

Definition applyOrderConfirmed (timestamp confirmedAt0 : Date) : M t unit :=
  modify (set_status "confirmed");;
  modify (set_confirmedAt (Some confirmedAt0));;
  modify (set_updatedAt timestamp).

Definition applyOrderPaymentRequested (timestamp : Date) (paymentId0 : string)
    : M t unit :=
  modify (set_status "payment_pending");;
  modify (set_paymentId (Some paymentId0));;
  modify (set_updatedAt timestamp).

Definition applyOrderPaid (timestamp : Date) (paymentId0 : string) (paidAt0 : Date)
    : M t unit :=
  modify (set_status "paid");;
  modify (set_paymentId (Some paymentId0));;
  modify (set_paidAt (Some paidAt0));;
  modify (set_updatedAt timestamp).

Definition applyOrderPaymentFailed (timestamp : Date) : M t unit :=
  modify (set_status "pending");;
  modify (set_updatedAt timestamp).

Definition applyOrderShipped (timestamp : Date) (trackingNumber0 carrier0 : string)
    (shippedAt0 : Date) : M t unit :=
  modify (set_status "shipped");;
  modify (set_trackingNumber (Some trackingNumber0));;
  modify (set_carrier (Some carrier0));;
  modify (set_shippedAt (Some shippedAt0));;
  modify (set_updatedAt timestamp).

Definition applyOrderDelivered (timestamp deliveredAt0 : Date) : M t unit :=
  modify (set_status "delivered");;
  modify (set_deliveredAt (Some deliveredAt0));;
  modify (set_updatedAt timestamp).

Definition applyOrderCancelled (timestamp cancelledAt0 : Date) : M t unit :=
  modify (set_status "cancelled");;
  modify (set_cancelledAt (Some cancelledAt0));;
  modify (set_updatedAt timestamp).

Definition applyOrderRefunded (timestamp refundedAt0 : Date) : M t unit :=
  modify (set_status "refunded");;
  modify (set_refundedAt (Some refundedAt0));;
  modify (set_updatedAt timestamp).

Definition applyOrderItemUpdated (timestamp : Date) (itemId : string)
    (quantity0 : Z) : M t unit :=
  this ← get;
  match items this !! itemId with
  | Some item =>
      updatedItem ← lift (OrderItem.updateQuantity is_uuid quantity0 item);
      modify (set_items (<[itemId := updatedItem]> (items this)));;
      recalculateTotal
  | None => ret tt
  end;;
  modify (set_updatedAt timestamp).

Definition applyOrderItemRemoved (timestamp : Date) (itemId : string) : M t unit :=
  modify (λ this, set_items (delete itemId (items this)) this);;
  recalculateTotal;;
  modify (set_updatedAt timestamp).

Definition applyOrderStatusChanged (timestamp : Date) (newStatus : string)
    : M t unit :=
  modify (set_status newStatus);;
  modify (set_updatedAt timestamp).

Definition applyOrderAddressUpdated (timestamp : Date) (addressType : AddressType)
    (newAddress : OrderAddress.t) : M t unit :=
  a ← lift (OrderAddress.new is_email newAddress);
  match addressType with
  | shipping => modify (set_shippingAddress a)
  | billing => modify (set_billingAddress a)
  end;;
  modify (set_updatedAt timestamp).

Definition apply (event : Event OrderEvent) : M t unit :=
  let timestamp := Shared.timestamp (metadata event) in
  match data event with
  | OrderCreated userId0 items0 totalAmount0 currency0 shippingAddress0
      billingAddress0 paymentMethod0 =>
      applyOrderCreated timestamp userId0 items0 totalAmount0 currency0
        shippingAddress0 billingAddress0 paymentMethod0
  | OrderConfirmed confirmedAt0 _ => applyOrderConfirmed timestamp confirmedAt0
  | OrderPaymentRequested paymentId0 _ _ _ =>
      applyOrderPaymentRequested timestamp paymentId0
  | OrderPaid paymentId0 paidAt0 _ _ _ => applyOrderPaid timestamp paymentId0 paidAt0
  | OrderPaymentFailed _ _ _ _ => applyOrderPaymentFailed timestamp
  | OrderShipped trackingNumber0 carrier0 shippedAt0 _ =>
      applyOrderShipped timestamp trackingNumber0 carrier0 shippedAt0
  | OrderDelivered deliveredAt0 _ _ => applyOrderDelivered timestamp deliveredAt0
  | OrderCancelled cancelledAt0 _ _ _ => applyOrderCancelled timestamp cancelledAt0
  | OrderRefunded _ refundedAt0 _ _ _ _ => applyOrderRefunded timestamp refundedAt0
  | OrderItemUpdated itemId _ quantity0 _ _ =>
      applyOrderItemUpdated timestamp itemId quantity0
  | OrderItemRemoved itemId _ _ _ => applyOrderItemRemoved timestamp itemId
  | OrderStatusChanged _ newStatus _ _ _ => applyOrderStatusChanged timestamp newStatus
  | OrderAddressUpdated addressType _ newAddress _ =>
      applyOrderAddressUpdated timestamp addressType newAddress
  | OtherEvent _ => ret tt
  end.

Definition applyEvent (event : Event OrderEvent) : M t unit :=
  apply event;;
  modify (λ this, set_version (version this + 1) this);;
  modify (λ this, set_uncommittedEvents (uncommittedEvents this ++ [event]) this).

(** [items[0]?.currency || 'USD'] *)
Definition first_currency (items0 : list OrderItem.t) : string :=
  match items0 with
  | [] => "USD"
  | item :: _ =>
      if String.eqb (OrderItem.currency item) "" then "USD"
      else OrderItem.currency item
  end.

Definition create (id0 userId0 : string) (items0 : list OrderItem.t)
    (shippingAddress0 billingAddress0 : OrderAddress.t) (paymentMethod0 : string)
    (now : Date) : result t :=
  order ← new id0 now;
  let totalAmount0 :=
    fold_left (λ sum item, sum + OrderItem.totalPrice item) items0 0 in
  construct (Ok order)
    (applyEvent
       (newEvent id0
          (OrderCreated userId0
             (List.map (λ item,
                CreatedItem.mk (OrderItem.productId item) (OrderItem.quantity item)
                  (OrderItem.unitPrice item) (OrderItem.sku item)) items0)
             totalAmount0 (first_currency items0) shippingAddress0
             billingAddress0 paymentMethod0) now)).

Definition fromEvents (id0 : string) (events : list (Event OrderEvent))
    (now : Date) : result t :=
  construct (new id0 now) (forEach events applyEvent).

(** [['cancelled', 'delivered', 'refunded'].includes(this.status)] *)
Definition is_closed (this : t) : bool :=
  existsb (String.eqb (status this)) ["cancelled"; "delivered"; "refunded"].

(** Command methods *)
Definition confirm (confirmedBy : string) (now : Date) : M t unit :=
  this ← get;
  if negb (String.eqb (status this) "pending") then
    throw (Error "Order can only be confirmed when in pending status")
  else applyEvent (newEvent (id this) (OrderConfirmed now confirmedBy) now).

Definition requestPayment (paymentId0 : string) (amount : Z) (currency0 : string)
    (now : Date) : M t unit :=
  this ← get;
  if negb (String.eqb (status this) "confirmed") then
    throw (Error "Order can only request payment when confirmed")
  else
    applyEvent
      (newEvent (id this)
         (OrderPaymentRequested paymentId0 amount currency0 (paymentMethod this))
         now).

Definition markAsPaid (paymentId0 transactionId : string) (amount : Z)
    (currency0 : string) (now : Date) : M t unit :=
  this ← get;
  if negb (String.eqb (status this) "payment_pending") then
    throw (Error "Order can only be marked as paid when payment is pending")
  else
    applyEvent
      (newEvent (id this) (OrderPaid paymentId0 now transactionId amount currency0)
         now).

Definition markPaymentFailed (paymentId0 reason : string) (errorCode : option string)
    (now : Date) : M t unit :=
  this ← get;
  if negb (String.eqb (status this) "payment_pending") then
    throw (Error "Order can only mark payment failed when payment is pending")
  else
    applyEvent
      (newEvent (id this) (OrderPaymentFailed paymentId0 now reason errorCode) now).

Definition ship (trackingNumber0 carrier0 : string) (estimatedDelivery : Date)
    (now : Date) : M t unit :=
  this ← get;
  if negb (String.eqb (status this) "paid") then
    throw (Error "Order can only be shipped when paid")
  else
    applyEvent
      (newEvent (id this)
         (OrderShipped trackingNumber0 carrier0 now estimatedDelivery) now).

Definition deliver (deliveredTo : string) (signature : option string) (now : Date)
    : M t unit :=
  this ← get;
  if negb (String.eqb (status this) "shipped") then
    throw (Error "Order can only be delivered when shipped")
  else
    applyEvent (newEvent (id this) (OrderDelivered now deliveredTo signature) now).

Definition cancel (cancelledBy reason : string) (refundAmount : option Z)
    (now : Date) : M t unit :=
  this ← get;
  if is_closed this then
    throw (Error "Order cannot be cancelled in current status")
  else
    applyEvent
      (newEvent (id this) (OrderCancelled now cancelledBy reason refundAmount) now).

Definition refund (refundId : string) (refundAmount : Z)
    (currency0 reason refundMethod : string) (now : Date) : M t unit :=
  this ← get;
  if negb (String.eqb (status this) "paid")
     && negb (String.eqb (status this) "shipped")
     && negb (String.eqb (status this) "delivered") then
    throw (Error "Order can only be refunded when paid, shipped, or delivered")
  else
    applyEvent
      (newEvent (id this)
         (OrderRefunded refundId now refundAmount currency0 reason refundMethod)
         now).

Definition updateItemQuantity (itemId : string) (newQuantity : Z) (now : Date)
    : M t unit :=
  this ← get;
  if is_closed this then
    throw (Error "Cannot update items in current order status")
  else
    match items this !! itemId with
    | None => throw (Error "Order item not found")
    | Some item =>
        applyEvent
          (newEvent (id this)
             (OrderItemUpdated itemId (OrderItem.getProductId item) newQuantity
                (OrderItem.getUnitPrice item) now) now)
    end.

Definition removeItem (itemId : string) (reason : option string) (now : Date)
    : M t unit :=
  this ← get;
  if is_closed this then
    throw (Error "Cannot remove items in current order status")
  else
    match items this !! itemId with
    | None => throw (Error "Order item not found")
    | Some item =>
        applyEvent
          (newEvent (id this)
             (OrderItemRemoved itemId (OrderItem.getProductId item) now reason) now)
    end.

Definition updateAddress (addressType : AddressType) (newAddress : OrderAddress.t)
    (now : Date) : M t unit :=
  this ← get;
  if is_closed this then
    throw (Error "Cannot update address in current order status")
  else
    let oldAddress :=
      match addressType with
      | shipping => shippingAddress this
      | billing => billingAddress this
      end in
    applyEvent
      (newEvent (id this)
         (OrderAddressUpdated addressType (OrderAddress.toJSON oldAddress)
            newAddress now) now).

End Aggregate.

(** Query methods *)
Definition getId (this : t) : string := id this.
Definition getTotalAmount (this : t) : Z := totalAmount this.
Definition getStatus (this : t) : OrderStatus := status this.
Definition getVersion (this : t) : Z := version this.
Definition getUncommittedEvents (this : t) : list (Event OrderEvent) :=
  uncommittedEvents this.
Definition markEventsAsCommitted : M t unit :=
  modify (set_uncommittedEvents []).

End Order.

(** ** The repositories

    [save] runs over the aggregate it is given and the table of the event
    store it holds.  The logger calls have no effect on either, and the
    [catch] blocks rethrow what they caught. *)

Module OrderRepository.

Definition save (env : EventStore.Env)
    : M (Order.t * list (EventStore.StoredEvent Order.OrderEvent)) unit :=
  st ← get;
  let order := fst st in
  let events := Order.getUncommittedEvents order in
  if (length events =? 0)%nat then ret tt
  else
    let expectedVersion := Order.getVersion order - Z.of_nat (length events) in
    on_snd (EventStore.saveEvents env (Order.getId order) events expectedVersion).

End OrderRepository.

Module InventoryRepository.

Definition save (env : EventStore.Env)
    : M (Inventory.t * list (EventStore.StoredEvent Inventory.InventoryEvent)) unit :=
  st ← get;
  let inventory := fst st in
  let events := Inventory.getUncommittedEvents inventory in
  if (length events =? 0)%nat then ret tt
  else
    let expectedVersion :=
      Inventory.getVersion inventory - Z.of_nat (length events) in
    on_snd
      (EventStore.saveEvents env (Inventory.getId inventory) events expectedVersion).

End InventoryRepository.

Module ProductRepository.

Definition save (env : EventStore.Env)
    : M (Product.t * list (EventStore.StoredEvent Product.ProductEvent)) unit :=
  st ← get;
  let product := fst st in
  let events := Product.getUncommittedEvents product in
  if (0 <? length events)%nat then
    on_snd
      (EventStore.saveEvents env (Product.getId product) events
         (Product.getVersion product));;
    on_fst Product.markEventsAsCommitted
  else ret tt.

End ProductRepository.


(** ** EventStore.ts: the snapshot table

    [saveSnapshot] and [getLatestSnapshot] of [PostgreSQLEventStore].
    [J] is the type of the JSON values: [snapshot_data] holds the value
    [JSON.stringify] wrote and the driver parses on the way out.  The
    table declares [UNIQUE(aggregate_id, version)]. *)

Module SnapshotStore.
Section Snapshots.
Context {J : Type}.

(** A row of the [snapshots] table. *)
Record Snapshot := mkSnapshot {
  id : Z;
  aggregateId : string;
  aggregateType : string;
  snapshotData : J;
  version : Z;
  timestamp : Date
}.

(** [INSERT INTO snapshots (aggregate_id, aggregate_type, snapshot_data,
    version) VALUES ($1, $2, $3, $4) ON CONFLICT (aggregate_id, version)
    DO UPDATE SET snapshot_data = EXCLUDED.snapshot_data, timestamp =
    NOW()]: the row in conflict keeps its id and its aggregate type. *)
Fixpoint upsert (env : EventStore.Env) (aggregateId0 aggregateType0 : string)
    (snapshotData0 : J) (version0 : Z) (table : list Snapshot) : list Snapshot :=
  match table with
  | [] =>
      [mkSnapshot (EventStore.gen_random_uuid env 0) aggregateId0 aggregateType0
         snapshotData0 version0 (EventStore.NOW env)]
  | row :: rest =>
      if String.eqb (aggregateId row) aggregateId0 && (version row =? version0)
      then mkSnapshot (id row) (aggregateId row) (aggregateType row) snapshotData0
             (version row) (EventStore.NOW env) :: rest
      else row :: upsert env aggregateId0 aggregateType0 snapshotData0 version0 rest
  end.

(** [saveSnapshot]: one statement outside any transaction; the state is
    the table. *)
Definition saveSnapshot (env : EventStore.Env) (aggregateId0 aggregateType0 : string)
    (snapshotData0 : J) (version0 : Z) : M (list Snapshot) unit :=
  λ table,
    if EventStore.query_fails env 0%nat then (Throw (QueryFailed 0), table)
    else (Ok tt, upsert env aggregateId0 aggregateType0 snapshotData0 version0 table).

(** [ORDER BY version DESC]: a stable insertion sort of the rows, in table
    order. *)
Fixpoint version_desc_insert (r : Snapshot) (rows : list Snapshot) : list Snapshot :=
  match rows with
  | [] => [r]
  | x :: xs =>
      if version x <=? version r then r :: x :: xs
      else x :: version_desc_insert r xs
  end.

(** [getLatestSnapshot]: [WHERE aggregate_id = $1 ORDER BY version DESC
    LIMIT 1]; [null] when no row comes back. *)
Definition getLatestSnapshot (aggregateId0 : string) (table : list Snapshot)
    : option (J * Z) :=
  match take 1
          (foldr version_desc_insert []
             (List.filter (λ r, String.eqb (aggregateId r) aggregateId0) table)) with
  | [] => None
  | row :: _ => Some (snapshotData row, version row)
  end.

End Snapshots.
Arguments Snapshot J : clear implicits.
End SnapshotStore.

(** ** The command handlers that create an aggregate

    [createInventoryItem] of [InventoryCommandHandlers], [createOrder] of
    [OrderCommandHandlers] and [createProduct] of [ProductCommandHandlers].
    A handler acts on the events table of its service and on the event
    bus.  The bus is the [EventBus] interface: [publish] is any operation
    on a bus state [B] that may throw.  [uuidv4()] and [new Date()] are
    read once per call: the handler takes the identity and the instant
    they return.  The [catch] blocks log and rethrow. *)

Module CommandHandlers.
Section Handlers.
Context {B : Type}.

(** [publishEvents], the same private method in each handler class *)
Definition publishEvents {D} (publish : Event D → M B unit) (events : list (Event D))
    : M B unit :=
  forEach events publish.

(** *** InventoryCommandHandlers *)

Record CreateInventoryItemCommand := mkCreateInventoryItemCommand {
  inventory_productId : string;
  inventory_sku : string;
  initialStock : Z;
  lowStockThreshold : option Z
}.

(** [command.lowStockThreshold || 10]: [undefined] and [0] are falsy. *)
Definition lowStockThreshold_or_10 (command : CreateInventoryItemCommand) : Z :=
  match lowStockThreshold command with
  | None => 10
  | Some t => if t =? 0 then 10 else t
  end.

Definition createInventoryItem
    (publish : Event Inventory.InventoryEvent → M B unit) (uuidv4 : string)
    (env : EventStore.Env) (now : Date) (command : CreateInventoryItemCommand)
    : M (list (EventStore.StoredEvent Inventory.InventoryEvent) * B) string :=
  λ st,
    let inventoryId := uuidv4 in
    match Inventory.create inventoryId (inventory_productId command)
            (inventory_sku command) (initialStock command)
            (lowStockThreshold_or_10 command) now with
    | Throw e => (Throw e, st)
    | Ok inventory =>
        match InventoryRepository.save env (inventory, fst st) with
        | (Throw e, (_, table)) => (Throw e, (table, snd st))
        | (Ok _, (inventory, table)) =>
            match publishEvents publish (Inventory.getUncommittedEvents inventory)
                    (snd st) with
            | (Throw e, bus) => (Throw e, (table, bus))
            | (Ok _, bus) =>
                let inventory := snd (Inventory.markEventsAsCommitted inventory) in
                (Ok inventoryId, (table, bus))
            end
        end
    end.

(** *** OrderCommandHandlers *)

Record OrderLine := mkOrderLine {
  line_productId : string;
  line_quantity : Z;
  line_price : Z;
  line_sku : string;
  line_name : string
}.

Record CreateOrderCommand := mkCreateOrderCommand {
  order_userId : string;
  order_items : list OrderLine;
  order_shippingAddress : Order.OrderAddress.t;
  order_billingAddress : Order.OrderAddress.t;
  order_paymentMethod : string;
  order_currency : option string
}.

(** [command.currency || 'USD']: [undefined] and [''] are falsy. *)
Definition currency_or_USD (command : CreateOrderCommand) : string :=
  match order_currency command with
  | None => "USD"
  | Some c => if String.eqb c "" then "USD" else c
  end.

Definition createOrder (is_uuid is_email : string → bool)
    (publish : Event Order.OrderEvent → M B unit) (uuidv4 : string)
    (env : EventStore.Env) (now : Date) (command : CreateOrderCommand)
    : M (list (EventStore.StoredEvent Order.OrderEvent) * B) string :=
  λ st,
    let orderId := uuidv4 in
    let currency := currency_or_USD command in
    let orderItems :=
      List.map (λ item,
        Order.OrderItem.mk (orderId +:+ "-" +:+ line_productId item)
          (line_productId item) (line_sku item) (line_name item) (line_quantity item)
          (line_price item) (line_price item * line_quantity item) currency)
        (order_items command) in
    match Order.create is_uuid is_email orderId (order_userId command) orderItems
            (order_shippingAddress command) (order_billingAddress command)
            (order_paymentMethod command) now with
    | Throw e => (Throw e, st)
    | Ok order =>
        match OrderRepository.save env (order, fst st) with
        | (Throw e, (_, table)) => (Throw e, (table, snd st))
        | (Ok _, (order, table)) =>
            match publishEvents publish (Order.getUncommittedEvents order) (snd st) with
            | (Throw e, bus) => (Throw e, (table, bus))
            | (Ok _, bus) =>
                let order := snd (Order.markEventsAsCommitted order) in
                (Ok orderId, (table, bus))
            end
        end
    end.

(** *** ProductCommandHandlers *)

Record CreateProductCommand := mkCreateProductCommand {
  product_name : string;
  product_description : string;
  product_price : Product.ProductPrice.t;
  product_categoryId : string;
  product_sku : string;
  product_images : option (list string);
  product_attributes : option (list Product.ProductAttribute.t)
}.

Definition createProduct (publish : Event Product.ProductEvent → M B unit)
    (uuidv4 : string) (env : EventStore.Env) (now : Date)
    (command : CreateProductCommand)
    : M (list (EventStore.StoredEvent Product.ProductEvent) * B) string :=
  λ st,
    let productId := uuidv4 in
    match Product.create productId (product_name command)
            (product_description command) (product_price command)
            (product_categoryId command) (product_sku command)
            (default [] (product_images command))
            (default [] (product_attributes command)) now with
    | Throw e => (Throw e, st)
    | Ok product =>
        match ProductRepository.save env (product, fst st) with
        | (Throw e, (_, table)) => (Throw e, (table, snd st))
        | (Ok _, (product, table)) =>
            match publishEvents publish (Product.getUncommittedEvents product)
                    (snd st) with
            | (Throw e, bus) => (Throw e, (table, bus))
            | (Ok _, bus) =>
                let product := snd (Product.markEventsAsCommitted product) in
                (Ok productId, (table, bus))
            end
        end
    end.

End Handlers.
End CommandHandlers.
(** * Vocabulary of the statements *)

(** A call sequence was accepted (nothing was thrown) and left the object
    in a state satisfying [P]. *)
Definition accepted {S} (r : result S) (P : S → Prop) : Prop :=
  match r with
  | Ok s => P s
  | Throw _ => False
  end.

(** ** The event store *)

Section StoreVocabulary.
Context {D : Type} `{EventClass D}.
Import EventStore.

(** The rows a batch contributes: the event at (0-based) offset [j] of the
    batch is stored with version [expectedVersion + (i + j) + 1], where
    [i] is the offset the batch starts from. *)
Fixpoint batch_rows (env : Env) (aggregateId0 : string) (expectedVersion : Z)
    (i : nat) (events : list (Event D)) : list (StoredEvent D) :=
  match events with
  | [] => []
  | event :: rest =>
      mkStoredEvent (gen_random_uuid env i) aggregateId0 (Shared.eventType event)
        (data event) (Shared.metadata event) (expectedVersion + Z.of_nat i + 1)
        (NOW env)
      :: batch_rows env aggregateId0 expectedVersion (S i) rest
  end.

(** [v] is the greatest version among the rows of the aggregate in the
    table, and 0 when it has none: the current maximum persisted version
    of the aggregate. *)
Definition greatest_version (aggregateId0 : string) (table : list (StoredEvent D))
    (v : Z) : Prop :=
  (∀ row, row ∈ table → aggregateId row = aggregateId0 → version row ≤ v)
  ∧ ((∃ row, row ∈ table ∧ aggregateId row = aggregateId0 ∧ version row = v)
     ∨ (v = 0 ∧ ∀ row, row ∈ table → aggregateId row ≠ aggregateId0)).

End StoreVocabulary.

(** A database that numbers the rows of a call [first], [first + 1], ...,
    whose clock reads [now], and that rejects nothing. *)
Definition serial_env (first : Z) (now : Date) : EventStore.Env :=
  EventStore.mkEnv (λ i, first + Z.of_nat i) now (λ _, false).

(** The same database rejecting the [n]-th query of the call. *)
Definition failing_env (first : Z) (now : Date) (n : nat) : EventStore.Env :=
  EventStore.mkEnv (λ i, first + Z.of_nat i) now (λ q, Nat.eqb q n).

Definition stock_event (aggregateId0 : string) (newStock : Z)
    : Event Inventory.InventoryEvent :=
  newEvent aggregateId0
    (Inventory.StockUpdated "p1" 0 newStock "recount" Inventory.set_) 1.

(** The table after inventory [A] saved two events and inventory [B] one,
    all within the same instant of the database clock. *)
Definition colliding_table : list (EventStore.StoredEvent Inventory.InventoryEvent) :=
  snd (EventStore.saveEvents (serial_env 3 50) "B" [stock_event "B" 9] 0
         (snd (EventStore.saveEvents (serial_env 1 50) "A"
                 [stock_event "A" 7; stock_event "A" 8] 0 []))).

(** ** Inventory *)

(** The sum of [quantity] over the reservations held that are not
    allocated (a released reservation is no longer held). *)
Definition sum_active_reservations (this : Inventory.t) : Z :=
  map_fold
    (λ _ r sum,
       if Inventory.StockReservation.isAllocated r then sum
       else sum + Inventory.StockReservation.quantity r)
    0 (Inventory.reservations this).

Definition stock_invariant (this : Inventory.t) : Prop :=
  Inventory.reservedStock this = sum_active_reservations this
  ∧ Inventory.getAvailableStock this
    = Z.max 0 (Inventory.currentStock this - Inventory.reservedStock this)
  ∧ 0 ≤ Inventory.getAvailableStock this.

(** Every reservation sits under the key derived from its own order. *)
Definition reservations_keyed (this : Inventory.t) : bool :=
  forallb
    (λ kr, String.eqb kr.1
             (Inventory.reservationId this (Inventory.StockReservation.orderId kr.2)))
    (map_to_list (Inventory.reservations this)).

(** The reservations held for one order. *)
Definition reservations_of_order (orderId : string) (this : Inventory.t)
    : gmap string Inventory.StockReservation.t :=
  filter (λ kr, Inventory.StockReservation.orderId kr.2 = orderId)
    (Inventory.reservations this).

Definition event_types {D} `{EventClass D} (events : list (Event D)) : list string :=
  List.map Shared.eventType events.

(** Is the event one of the two stock alerts? *)
Definition is_alert (event : Event Inventory.InventoryEvent) : bool :=
  match data event with
  | Inventory.LowStockAlert _ _ _ _ | Inventory.OutOfStockAlert _ _ => true
  | _ => false
  end.

Definition future : Date := 1000.

(** [Inventory.create(id, "p1", "S1", stock, threshold)] at instant 100. *)
Definition inventory_created (id0 : string) (stock threshold : Z)
    : Event Inventory.InventoryEvent :=
  newEvent id0 (Inventory.InventoryItemCreated "p1" "S1" stock threshold 0) 100.

Definition new_inventory (stock threshold : Z) : result Inventory.t :=
  Inventory.create "inv1" "p1" "S1" stock threshold 100.

(** The same inventory as an object. *)
Definition inventory_v1 (stock threshold : Z) : Inventory.t :=
  snd (Inventory.applyEvent (inventory_created "inv1" stock threshold)
         (Inventory.new "inv1" 100)).

(** reserve 5 for order A, allocate the 5, then release order A *)
Definition allocate_then_release : result Inventory.t :=
  construct
    (construct
       (construct (new_inventory 10 2) (Inventory.reserveStock "orderA" 5 future 101))
       (Inventory.allocateStock "orderA" 5 102))
    (Inventory.releaseStock "orderA" "cancelled" 103).

(** reserve 2 for order A, then reserve 3 for order A *)
Definition reserve_twice : result Inventory.t :=
  construct
    (construct (new_inventory 10 2) (Inventory.reserveStock "orderA" 2 future 101))
    (Inventory.reserveStock "orderA" 3 future 102).

(** reserve 5 for order A, then allocate 3 of them *)
Definition allocate_partially : result Inventory.t :=
  construct
    (construct (new_inventory 10 2) (Inventory.reserveStock "orderA" 5 future 101))
    (Inventory.allocateStock "orderA" 3 102).

(** stock 5, threshold 2: reserve all 5 for order A *)
Definition reserve_all : result Inventory.t :=
  construct (new_inventory 5 2) (Inventory.reserveStock "orderA" 5 future 101).

(** stock 5, threshold 2: reserve 4 for order A and allocate them *)
Definition reserve_and_allocate : result Inventory.t :=
  construct
    (construct (new_inventory 5 2) (Inventory.reserveStock "orderA" 4 future 101))
    (Inventory.allocateStock "orderA" 4 102).

(** stock 10: 4 reserved for order A *)
Definition reserved_once : Inventory.t :=
  snd (Inventory.reserveStock "orderA" 4 future 101 (inventory_v1 10 2)).

(** ** Payment *)

Definition payment_requested : Event Payment.PaymentEvent :=
  newEvent "pay1"
    (Payment.PaymentRequested "order1" "user1" 20 "USD" "card"
       (Payment.mkPaymentDetails None None "{}")) 100.

(** ** Product *)

Definition product_created : Event Product.ProductEvent :=
  newEvent "prod1"
    (Product.ProductCreated "Lamp" "A desk lamp" 10 "cat1" "L1" ["a.png"] [] true)
    100.

Definition product_discontinued : Event Product.ProductEvent :=
  newEvent "prod1" (Product.ProductDiscontinued None 200) 200.

(** A product as [ProductCreated] leaves it: one event applied, not yet
    saved. *)
Definition product_v1 : Product.t :=
  Product.mk "prod1" "Lamp" "A desk lamp" (Product.ProductPrice.mk 10 "USD" None None)
    "cat1" "L1" ["a.png"] (Some 0%nat) ∅ true 0 100 100 None 1 [product_created].

(** The same product after [discontinue()]. *)
Definition discontinued_product : Product.t :=
  Product.mk "prod1" "Lamp" "A desk lamp" (Product.ProductPrice.mk 10 "USD" None None)
    "cat1" "L1" ["a.png"] (Some 0%nat) ∅ false 0 100 200 (Some 200) 2
    [product_created; product_discontinued].

(** ** Order *)

Definition scenario_address : Order.OrderAddress.t :=
  Order.OrderAddress.mk "1 Main St" "Springfield" "IL" "62701" "USA" None None.

(** The item [{productId: "p1", quantity: 2, price: 10, sku: "S1"}] as the
    command handler hands it to [Order.create]. *)
Definition scenario_item : Order.OrderItem.t :=
  Order.OrderItem.mk "order1-p1" "p1" "S1" "Widget" 2 10 (10 * 2) "USD".

Definition scenario_created : Event Order.OrderEvent :=
  newEvent "order1"
    (Order.OrderCreated "user1" [Order.CreatedItem.mk "p1" 2 10 "S1"] 20 "USD"
       scenario_address scenario_address "card") 100.

(** An order object holding one unsaved event. *)
Definition order_v1 : Order.t :=
  Order.mk "order1" "user1" ∅ 20 "USD" "pending" scenario_address scenario_address
    "card" None None None 100 100 None None None None None None 1 [scenario_created].

(** * Further vocabulary *)

(** ** The event store *)

Section StreamVocabulary.
Context {D : Type}.
Import EventStore.

(** The rows of one aggregate, in table order. *)
Definition stream (aggregateId0 : string) (table : list (StoredEvent D))
    : list (StoredEvent D) :=
  List.filter (λ r, String.eqb (aggregateId r) aggregateId0) table.

(** The versions of the aggregate's rows are 1, 2, ..., n in table order. *)
Definition gap_free (aggregateId0 : string) (table : list (StoredEvent D)) : Prop :=
  List.map version (stream aggregateId0 table)
  = List.map Z.of_nat (seq 1 (length (stream aggregateId0 table))).


End StreamVocabulary.


(** ** Inventory *)

(** A command of the inventory aggregate, with the instant it is issued. *)
Inductive InventoryCommand :=
| DoUpdateStock (newStock : Z) (changeReason : string)
    (changeType : Inventory.ChangeType) (now : Date)
| DoReserveStock (orderId : string) (quantity : Z) (expiresAt now : Date)
| DoReleaseStock (orderId reason : string) (now : Date)
| DoAllocateStock (orderId : string) (quantity : Z) (now : Date)
| DoUpdateLowStockThreshold (newThreshold : Z) (now : Date).

Definition issue (c : InventoryCommand) : M Inventory.t unit :=
  match c with
  | DoUpdateStock newStock changeReason changeType now =>
      Inventory.updateStock newStock changeReason changeType now
  | DoReserveStock orderId quantity expiresAt now =>
      Inventory.reserveStock orderId quantity expiresAt now
  | DoReleaseStock orderId reason now => Inventory.releaseStock orderId reason now
  | DoAllocateStock orderId quantity now =>
      Inventory.allocateStock orderId quantity now
  | DoUpdateLowStockThreshold newThreshold now =>
      Inventory.updateLowStockThreshold newThreshold now
  end.

(** The object after a caller issued the commands one after the other,
    whichever of them were rejected. *)
Definition after_commands (cs : list InventoryCommand) (this : Inventory.t)
    : Inventory.t :=
  fold_left (λ s c, snd (issue c s)) cs this.

(** ** Aggregate and store in step *)

(** The store holds exactly the events of the inventory that are not
    listed as uncommitted: the stream of the inventory is gap-free and its
    length is the version less the number of uncommitted events. *)
Definition in_step (this : Inventory.t)
    (table : list (EventStore.StoredEvent Inventory.InventoryEvent)) : Prop :=
  gap_free (Inventory.getId this) table
  ∧ Z.of_nat (length (stream (Inventory.getId this) table))
    = Inventory.getVersion this
      - Z.of_nat (length (Inventory.getUncommittedEvents this)).

(** The same for a product. *)
Definition product_in_step (this : Product.t)
    (table : list (EventStore.StoredEvent Product.ProductEvent)) : Prop :=
  gap_free (Product.getId this) table
  ∧ Z.of_nat (length (stream (Product.getId this) table))
    = Product.getVersion this
      - Z.of_nat (length (Product.getUncommittedEvents this)).

(** ** Payment *)

(** A command of the payment aggregate, with the instant it is issued. *)
Inductive PaymentCommand :=
| DoProcessPayment (transactionId : string) (gatewayResponse : Payment.any)
    (now : Date)
| DoMarkAsFailed (failureReason errorCode : string)
    (gatewayResponse : option Payment.any) (now : Date)
| DoRefund (refundId : string) (refundAmount : Z) (refundReason refundMethod : string)
    (gatewayResponse : option Payment.any) (now : Date)
| DoCancel (cancelledBy reason : string) (now : Date).

Definition issue_payment (c : PaymentCommand) : M Payment.t unit :=
  match c with
  | DoProcessPayment transactionId gatewayResponse now =>
      Payment.processPayment transactionId gatewayResponse now
  | DoMarkAsFailed failureReason errorCode gatewayResponse now =>
      Payment.markAsFailed failureReason errorCode gatewayResponse now
  | DoRefund refundId refundAmount refundReason refundMethod gatewayResponse now =>
      Payment.refund refundId refundAmount refundReason refundMethod gatewayResponse
        now
  | DoCancel cancelledBy reason now => Payment.cancel cancelledBy reason now
  end.

Definition after_payment_commands (cs : list PaymentCommand) (this : Payment.t)
    : Payment.t :=
  fold_left (λ s c, snd (issue_payment c s)) cs this.

(** The status a command leaves behind when it is accepted. *)
Definition status_after (c : PaymentCommand) : Payment.PaymentStatus :=
  match c with
  | DoProcessPayment _ _ _ => Payment.completed
  | DoMarkAsFailed _ _ _ _ => Payment.failed
  | DoRefund _ _ _ _ _ _ => Payment.refunded
  | DoCancel _ _ _ => Payment.cancelled
  end.

(** The number of events behind each status of a created payment. *)
Definition events_behind (s : Payment.PaymentStatus) : nat :=
  match s with
  | Payment.pending => 1
  | Payment.completed | Payment.failed | Payment.cancelled => 2
  | Payment.refunded => 3
  | Payment.processing => 0
  end.

(** What holds of a payment created for [orderId0], [userId0] and
    [amount0] whatever commands were issued on it. *)
Definition payment_consistent (id0 orderId0 userId0 : string) (amount0 : Z)
    (currency0 paymentMethod0 : string) (this : Payment.t) : Prop :=
  Payment.id this = id0
  ∧ Payment.orderId this = orderId0
  ∧ Payment.userId this = userId0
  ∧ Payment.amount this = amount0
  ∧ Payment.currency this = currency0
  ∧ Payment.paymentMethod this = paymentMethod0
  ∧ Payment.status this ≠ Payment.processing
  ∧ length (Payment.uncommittedEvents this) = events_behind (Payment.status this)
  ∧ Payment.version this = Z.of_nat (length (Payment.uncommittedEvents this))
  ∧ Payment.refundMethod this = None
  ∧ (∀ r, Payment.refundAmount this = Some r → r ≤ amount0)
  ∧ ∀ now0,
      Payment.fromEvents id0 (Payment.uncommittedEvents this) now0 = Ok this.

(** ** Snapshots *)

Section SnapshotVocabulary.
Context {J : Type}.
Import SnapshotStore.

(** The key of the unique constraint of the table. *)
Definition snapshot_key (r : Snapshot J) : string * Z := (aggregateId r, version r).

(** The table satisfies [UNIQUE(aggregate_id, version)]. *)
Definition keys_unique (table : list (Snapshot J)) : Prop :=
  NoDup (List.map snapshot_key table).

(** The table holds a snapshot of the aggregate at the version. *)
Definition has_snapshot (aggregateId0 : string) (version0 : Z)
    (table : list (Snapshot J)) : bool :=
  existsb (λ r, String.eqb (aggregateId r) aggregateId0 && (version r =? version0))
    table.

(** The columns an upsert never rewrites. *)
Definition fixed_columns (r : Snapshot J) : Z * string * string * Z :=
  (id r, aggregateId r, aggregateType r, version r).

End SnapshotVocabulary.

(** ** Order *)

(** The commands of the order aggregate that move its status. *)
Inductive OrderStatusCommand :=
| DoConfirm (confirmedBy : string) (now : Date)
| DoRequestPayment (paymentId : string) (amount : Z) (currency : string) (now : Date)
| DoMarkAsPaid (paymentId transactionId : string) (amount : Z) (currency : string)
    (now : Date)
| DoMarkPaymentFailed (paymentId reason : string) (errorCode : option string)
    (now : Date)
| DoShip (trackingNumber carrier : string) (estimatedDelivery now : Date)
| DoDeliver (deliveredTo : string) (signature : option string) (now : Date)
| DoCancelOrder (cancelledBy reason : string) (refundAmount : option Z) (now : Date)
| DoRefundOrder (refundId : string) (refundAmount : Z)
    (currency reason refundMethod : string) (now : Date).

Definition issue_order (is_uuid is_email : string → bool) (c : OrderStatusCommand)
    : M Order.t unit :=
  match c with
  | DoConfirm confirmedBy now => Order.confirm is_uuid is_email confirmedBy now
  | DoRequestPayment paymentId amount currency now =>
      Order.requestPayment is_uuid is_email paymentId amount currency now
  | DoMarkAsPaid paymentId transactionId amount currency now =>
      Order.markAsPaid is_uuid is_email paymentId transactionId amount currency now
  | DoMarkPaymentFailed paymentId reason errorCode now =>
      Order.markPaymentFailed is_uuid is_email paymentId reason errorCode now
  | DoShip trackingNumber carrier estimatedDelivery now =>
      Order.ship is_uuid is_email trackingNumber carrier estimatedDelivery now
  | DoDeliver deliveredTo signature now =>
      Order.deliver is_uuid is_email deliveredTo signature now
  | DoCancelOrder cancelledBy reason refundAmount now =>
      Order.cancel is_uuid is_email cancelledBy reason refundAmount now
  | DoRefundOrder refundId refundAmount currency reason refundMethod now =>
      Order.refund is_uuid is_email refundId refundAmount currency reason refundMethod
        now
  end.

(** The guard of each command on the status, and the status the command
    leaves. *)
Definition order_accepts (c : OrderStatusCommand) (s : Order.OrderStatus) : Prop :=
  match c with
  | DoConfirm _ _ => s = "pending"
  | DoRequestPayment _ _ _ _ => s = "confirmed"
  | DoMarkAsPaid _ _ _ _ _ | DoMarkPaymentFailed _ _ _ _ => s = "payment_pending"
  | DoShip _ _ _ _ => s = "paid"
  | DoDeliver _ _ _ => s = "shipped"
  | DoCancelOrder _ _ _ _ => s ∉ ["cancelled"; "delivered"; "refunded"]
  | DoRefundOrder _ _ _ _ _ _ => s ∈ ["paid"; "shipped"; "delivered"]
  end.

Definition order_status_after (c : OrderStatusCommand) : Order.OrderStatus :=
  match c with
  | DoConfirm _ _ => "confirmed"
  | DoRequestPayment _ _ _ _ => "payment_pending"
  | DoMarkAsPaid _ _ _ _ _ => "paid"
  | DoMarkPaymentFailed _ _ _ _ => "pending"
  | DoShip _ _ _ _ => "shipped"
  | DoDeliver _ _ _ => "delivered"
  | DoCancelOrder _ _ _ _ => "cancelled"
  | DoRefundOrder _ _ _ _ _ _ => "refunded"
  end.
(** * Properties *)

(** Running a method: unfold the monad and reduce. *)
Ltac run_m :=
  unfold mbind, M_bind, result_bind, bind, get, modify, throw, ret, mret,
    M_ret, result_ret, lift, on_fst, on_snd;
  cbn beta iota.

(** ** The event store *)

Section StoreFacts.
Context {D : Type} `{EventClass D}.
Import EventStore.

Lemma insertEvents_Ok env a ev events : ∀ i txn txn',
  insertEvents env a ev i events txn = Ok txn' →
  txn' = txn ++ batch_rows env a ev i events.
Proof.
  induction events as [|e rest IH]; intros i txn txn' Hins; simpl in *.
  - injection Hins as <-. by rewrite app_nil_r.
  - destruct (query_fails env (S (S i))); [discriminate|].
    apply IH in Hins. by rewrite Hins, <- app_assoc.
Qed.

Lemma insertEvents_no_failure env a ev events : ∀ i txn,
  (∀ j, (j < length events)%nat → query_fails env (2 + i + j) = false) →
  insertEvents env a ev i events txn = Ok (txn ++ batch_rows env a ev i events).
Proof.
  induction events as [|e rest IH]; intros i txn Hq; simpl.
  - by rewrite app_nil_r.
  - specialize (Hq 0%nat) as H0. simpl in H0. rewrite Nat.add_0_r in H0.
    rewrite H0 by lia. rewrite IH.
    + by rewrite <- app_assoc.
    + intros j Hj. specialize (Hq (S j)). simpl in Hq.
      replace (S (S (i + S j))) with (S (S (S i + j))) in Hq by lia.
      apply Hq. lia.
Qed.

Lemma batch_rows_lookup env a ev events : ∀ i j row,
  batch_rows env a ev i events !! j = Some row →
  version row = ev + Z.of_nat (i + j) + 1 ∧ aggregateId row = a.
Proof.
  induction events as [|e rest IH]; intros i j row Hrow; simpl in *.
  - by rewrite lookup_nil in Hrow.
  - destruct j as [|j]; simpl in Hrow.
    + injection Hrow as <-. simpl. by rewrite Nat.add_0_r.
    + apply IH in Hrow. by replace (i + S j)%nat with (S i + j)%nat by lia.
Qed.

Lemma batch_rows_length env a ev events i :
  length (batch_rows env a ev i events) = length events.
Proof. revert i; induction events; intros; simpl; auto. Qed.

(** A call that throws leaves the committed table as it was. *)
Lemma saveEvents_Throw_table env a (events : list (Event D)) ev table :
  isOk (fst (saveEvents env a events ev table)) = false →
  snd (saveEvents env a events ev table) = table.
Proof.
  unfold saveEvents. by destruct (saveEvents_try env a events ev table).
Qed.

(** What the version query of [saveEvents] selects is the greatest
    version among the rows of the aggregate, 0 when it has none. *)
Lemma fold_max_greatest (vs : list Z) : ∀ v,
  (v ≤ fold_left Z.max vs v ∧ ∀ x, x ∈ vs → x ≤ fold_left Z.max vs v)
  ∧ (fold_left Z.max vs v = v ∨ fold_left Z.max vs v ∈ vs).
Proof.
  induction vs as [|w vs IH]; intros v; simpl.
  - split; [split; [lia|]|by left]. intros x Hx. by apply elem_of_nil in Hx.
  - destruct (IH (Z.max v w)) as [[Hge Hall] Hin]. split; [split|].
    + lia.
    + intros x [->|Hx]%elem_of_cons; [lia|by apply Hall].
    + destruct Hin as [Heq|Hin]; [|right; by right].
      rewrite Heq. destruct (Z.max_spec v w) as [[_ ->]|[_ ->]]; [right; left|by left].
Qed.

Lemma current_version_greatest a (table : list (StoredEvent D)) :
  greatest_version a table (current_version a table).
Proof.
  unfold greatest_version, current_version.
  assert (Hrows : ∀ row, row ∈ table → aggregateId row = a →
            version row
            ∈ List.map version
                (List.filter (λ r, String.eqb (aggregateId r) a) table)).
  { intros row Hrow Ha. apply list_elem_of_In, in_map, filter_In.
    split; [by apply list_elem_of_In|by apply String.eqb_eq]. }
  assert (Hback : ∀ v,
            v ∈ List.map version
                  (List.filter (λ r, String.eqb (aggregateId r) a) table) →
            ∃ row, row ∈ table ∧ aggregateId row = a ∧ version row = v).
  { intros v (row & Hv & [Hrow Ha]%filter_In)%list_elem_of_In%in_map_iff.
    exists row. split; [by apply list_elem_of_In|].
    split; [by apply String.eqb_eq|done]. }
  destruct (List.map version (List.filter (λ r, String.eqb (aggregateId r) a) table))
    as [|v vs].
  - split.
    + intros row Hrow Ha. pose proof (Hrows row Hrow Ha) as Hv.
      by apply elem_of_nil in Hv.
    + right. split; [done|]. intros row Hrow Ha.
      pose proof (Hrows row Hrow Ha) as Hv. by apply elem_of_nil in Hv.
  - destruct (fold_max_greatest vs v) as [[Hge Hall] Hin]. split.
    + intros row Hrow Ha. pose proof (Hrows row Hrow Ha) as Hv.
      apply elem_of_cons in Hv as [->|Hv]; [done|by apply Hall].
    + left. apply Hback. destruct Hin as [->|Hin]; [left|by right].
Qed.

(** C2. [saveEvents] is all-or-nothing under optimistic concurrency.  The
    version the call compares with [expectedVersion] is the current
    maximum persisted version of the aggregate: the greatest version among
    its rows, 0 when it has none.  When it differs from [expectedVersion]
    the call fails and the table is unchanged, and the error is the
    concurrency conflict as soon as the database ran the version query.
    When the call succeeds the versions matched and the table grew by
    exactly the batch, the event at 1-based offset [i+1] stored with
    version [expectedVersion + (i+1)].  Whenever the call fails, for
    whatever reason, the table is unchanged.  And the call does succeed
    when the versions match and the database rejects no query. *)
Theorem saveEvents_all_or_nothing env a (events : list (Event D)) ev table :
  let out := saveEvents env a events ev table in
  greatest_version a table (current_version a table)
  ∧ (current_version a table ≠ ev →
     isOk (fst out) = false ∧ snd out = table ∧
     (query_fails env 0 = false → query_fails env 1 = false →
      fst out = Throw (ConcurrencyConflict ev (current_version a table))))
  ∧ (fst out = Ok tt →
     current_version a table = ev ∧
     snd out = table ++ batch_rows env a ev 0 events ∧
     ∀ i row, batch_rows env a ev 0 events !! i = Some row →
       version row = ev + (Z.of_nat i + 1))
  ∧ (isOk (fst out) = false → snd out = table)
  ∧ (current_version a table = ev → (∀ n, query_fails env n = false) →
     fst out = Ok tt).
Proof.
  cbv zeta. split; [apply current_version_greatest|].
  unfold saveEvents, saveEvents_try. simpl.
  destruct (query_fails env 0) eqn:Q0; simpl.
  { repeat split; try done. intros _ Hq. by rewrite Hq in Q0. }
  destruct (query_fails env 1) eqn:Q1; simpl.
  { repeat split; try done. intros _ Hq. by rewrite Hq in Q1. }
  destruct (current_version a table =? ev) eqn:Hcur; simpl.
  - apply Z.eqb_eq in Hcur.
    destruct (insertEvents env a ev 0 events table) as [txn|e] eqn:Hins; simpl.
    + destruct (query_fails env (S (S (length events)))) eqn:Qc; simpl.
      * repeat split; try done. intros _ Hq. by rewrite Hq in Qc.
      * apply insertEvents_Ok in Hins. subst txn.
        repeat split; try done.
        intros i row Hrow. apply batch_rows_lookup in Hrow as [-> _]. simpl. lia.
    + repeat split; try done. intros _ Hq.
      rewrite insertEvents_no_failure in Hins; [done|]. intros; apply Hq.
  - apply Z.eqb_neq in Hcur. repeat split; try done.
Qed.

End StoreFacts.

Lemma saveEvents_all_or_nothing_witness :
  (* a stale expected version: conflict, nothing persisted *)
  (let table := snd (EventStore.saveEvents (serial_env 1 5) "A"
                       [stock_event "A" 7] 0 []) in
   EventStore.saveEvents (serial_env 2 6) "A" [stock_event "A" 8] 0 table
   = (Throw (ConcurrencyConflict 0 1), table))
  (* a matching expected version: the batch is appended *)
  ∧ (let out := EventStore.saveEvents (serial_env 1 5) "A"
                  [stock_event "A" 7; stock_event "A" 8] 0 [] in
     fst out = Ok tt ∧ List.map EventStore.version (snd out) = [1; 2])
  (* the second insert is rejected: nothing of the batch is persisted *)
  ∧ snd (EventStore.saveEvents (failing_env 1 5 3) "A"
           [stock_event "A" 7; stock_event "A" 8] 0 []) = [].
Proof.
  split; [|split].
  - cbv zeta.
    destruct (saveEvents_all_or_nothing (serial_env 2 6) "A" [stock_event "A" 8] 0
                (snd (EventStore.saveEvents (serial_env 1 5) "A"
                        [stock_event "A" 7] 0 []))) as (_ & Hconflict & _).
    destruct Hconflict as (_ & Hsame & Herr); [vm_compute; discriminate|].
    rewrite (surjective_pairing (EventStore.saveEvents _ _ _ _ _)).
    rewrite Hsame, Herr by reflexivity. reflexivity.
  - cbv zeta.
    destruct (saveEvents_all_or_nothing (serial_env 1 5) "A"
                [stock_event "A" 7; stock_event "A" 8] 0 [])
      as (_ & _ & Hok & _ & Hrun).
    split; [apply Hrun; [reflexivity|intros; reflexivity]|].
    destruct Hok as (_ & -> & _); [apply Hrun; [reflexivity|intros; reflexivity]|].
    reflexivity.
  - destruct (saveEvents_all_or_nothing (failing_env 1 5 3) "A"
                [stock_event "A" 7; stock_event "A" 8] 0 [])
      as (_ & _ & _ & Hfail & _).
    apply Hfail. reflexivity.
Defined.

(** *** The feeds *)

Lemma uuid_digits_count s : ∀ count value count' value',
  EventStore.uuid_digits s count value = Some (count', value') →
  (count' ≤ count + String.length s)%nat.
Proof.
  induction s as [|c rest IH]; intros count value count' value' Hs;
    cbn [EventStore.uuid_digits String.length] in *.
  - injection Hs as <- _. lia.
  - destruct (EventStore.hex_value c) as [d|].
    + apply IH in Hs. lia.
    + destruct (Ascii.eqb c "-"%char || Ascii.eqb c "{"%char || Ascii.eqb c "}"%char);
        [|discriminate].
      apply IH in Hs. lia.
Qed.

(** A uuid text has at least 32 characters. *)
Lemma uuid_in_length s value :
  EventStore.uuid_in s = Some value → (32 ≤ String.length s)%nat.
Proof.
  unfold EventStore.uuid_in.
  destruct (EventStore.uuid_digits s 0 0) as [[count v]|] eqn:Hdigits; [|discriminate].
  destruct (Nat.eqb_spec count 32) as [->|]; [|discriminate].
  intros _. apply uuid_digits_count in Hdigits. lia.
Qed.

Lemma string_length_app (s1 s2 : string) :
  String.length (s1 +:+ s2) = (String.length s1 + String.length s2)%nat.
Proof. induction s1 as [|c s1 IH]; simpl; [done|]. by rewrite IH. Qed.

Lemma decimal_length fuel : ∀ (k : nat) n,
  0 ≤ n < 10 ^ Z.of_nat k → (1 ≤ k)%nat →
  (String.length (EventStore.decimal fuel n) ≤ k)%nat.
Proof.
  induction fuel as [|fuel IH]; intros k n Hn Hk; cbn [EventStore.decimal].
  - simpl. lia.
  - destruct (n <? 10) eqn:Hsmall; [simpl; lia|].
    apply Z.ltb_ge in Hsmall.
    destruct k as [|[|k]]; [lia|simpl in Hn; lia|].
    rewrite string_length_app. cbn [String.length].
    assert (Hdiv : 0 ≤ n / 10 < 10 ^ Z.of_nat (S k)).
    { split; [apply Z.div_pos; lia|].
      apply Z.div_lt_upper_bound; [lia|].
      replace (Z.of_nat (S (S k))) with (Z.of_nat (S k) + 1) in Hn by lia.
      rewrite Z.pow_add_r in Hn by lia. lia. }
    specialize (IH (S k) (n / 10) Hdiv ltac:(lia)). lia.
Qed.

(** The text of a number has at most 22 characters, so it is no uuid. *)
Lemma bind_position_rejects fromPosition :
  EventStore.bind_position fromPosition = Throw (QueryFailed 0).
Proof.
  unfold EventStore.bind_position.
  destruct (Z.ltb_spec (Z.abs fromPosition) (10 ^ 21)) as [Hsmall|_]; [|done].
  destruct (EventStore.uuid_in (EventStore.number_text fromPosition)) as [u|] eqn:Hu;
    [|done].
  apply uuid_in_length in Hu. unfold EventStore.number_text in Hu.
  rewrite string_length_app in Hu.
  pose proof (decimal_length (S (Z.to_nat (Z.log2 (Z.abs fromPosition)))) 21
                (Z.abs fromPosition)) as Hlen.
  destruct (fromPosition <? 0); cbn [String.length] in Hu;
    specialize (Hlen ltac:(lia) ltac:(lia)); lia.
Qed.

Lemma feeds_reject {D} `{EventClass D} fromPosition limit eventType0
    (table : list (EventStore.StoredEvent D)) :
  EventStore.getAllEvents fromPosition limit table = (Throw (QueryFailed 0), table)
  ∧ EventStore.getEventsByType eventType0 fromPosition limit table
    = (Throw (QueryFailed 0), table).
Proof.
  unfold EventStore.getAllEvents, EventStore.getEventsByType. run_m.
  by rewrite bind_position_rejects.
Qed.

(** C8. The feeds return no page.  [fromPosition] is a number and the
    column [id] it is compared with a uuid: the database cannot read the
    text of a number as a uuid and rejects the statement.  With three
    events stored, the first call of an iteration, from position 0 (the
    default), throws, for [getAllEvents] and for [getEventsByType], and so
    does the call from every other position, with every limit and on
    every table: the feeds return no event at all. *)
Theorem feeds_reject_every_position :
  length colliding_table = 3%nat
  ∧ EventStore.getAllEvents 0 2 colliding_table
    = (Throw (QueryFailed 0), colliding_table)
  ∧ EventStore.getEventsByType "StockUpdated" 0 2 colliding_table
    = (Throw (QueryFailed 0), colliding_table)
  ∧ ∀ fromPosition limit eventType0
      (table : list (EventStore.StoredEvent Inventory.InventoryEvent)),
      EventStore.getAllEvents fromPosition limit table = (Throw (QueryFailed 0), table)
      ∧ EventStore.getEventsByType eventType0 fromPosition limit table
        = (Throw (QueryFailed 0), table).
Proof.
  split; [reflexivity|].
  destruct (feeds_reject 0 2 "StockUpdated" colliding_table) as [Hall Htype].
  split; [exact Hall|]. split; [exact Htype|].
  intros. by apply feeds_reject.
Qed.

(** ** The Inventory aggregate *)

(** Replace a closed term by its value. *)
Ltac evaluate t :=
  let v := eval vm_compute in t in
  replace t with v by (vm_compute; reflexivity).

Section InventoryFacts.
Import Inventory.

Lemma available_stock_nonneg this :
  getAvailableStock this = Z.max 0 (currentStock this - reservedStock this)
  ∧ 0 ≤ getAvailableStock this.
Proof. unfold getAvailableStock. lia. Qed.

(** What an accepted [reserveStock] does. *)
Lemma reserveStock_accepted orderId q expiresAt now this :
  0 < q → q ≤ getAvailableStock this →
  reserveStock orderId q expiresAt now this =
    (Ok tt,
     set_uncommittedEvents
       (uncommittedEvents this
        ++ [newEvent (id this) (StockReserved (productId this) orderId q now expiresAt)
              now])
       (set_version (version this + 1)
          (applyStockReserved now orderId q now expiresAt this))).
Proof.
  intros Hq Hav. unfold reserveStock, applyEvent. run_m.
  destruct (q <=? 0) eqn:E1; [lia|].
  destruct (getAvailableStock this <? q) eqn:E2; [lia|]. reflexivity.
Qed.

Lemma reserveStock_rejected orderId q expiresAt now this :
  q ≤ 0 ∨ getAvailableStock this < q →
  ∃ e, reserveStock orderId q expiresAt now this = (Throw e, this).
Proof.
  intros Hbad. unfold reserveStock, applyEvent. run_m.
  destruct (q <=? 0) eqn:E1; [eauto|].
  destruct (getAvailableStock this <? q) eqn:E2; [eauto|]. lia.
Qed.

Lemma reserveStock_Ok_inv orderId q expiresAt now this this' :
  reserveStock orderId q expiresAt now this = (Ok tt, this') →
  0 < q ∧ q ≤ getAvailableStock this.
Proof.
  intros Hok.
  destruct (decide (0 < q ∧ q ≤ getAvailableStock this)) as [|Hno]; [done|].
  destruct (reserveStock_rejected orderId q expiresAt now this) as [e He]; [lia|].
  congruence.
Qed.

Lemma reservations_keyed_spec this :
  reservations_keyed this = true ↔
  map_Forall (λ k r, k = reservationId this (StockReservation.orderId r))
    (reservations this).
Proof.
  unfold reservations_keyed. rewrite forallb_forall. split.
  - intros Hall k r Hkr. apply elem_of_map_to_list, list_elem_of_In in Hkr.
    apply Hall in Hkr. by apply String.eqb_eq in Hkr.
  - intros Hall [k r] Hin. apply list_elem_of_In, elem_of_map_to_list in Hin.
    apply String.eqb_eq. simpl. by apply Hall.
Qed.

(** The keying of the reservations is an invariant of the aggregate: it
    holds of a created inventory and every event preserves it. *)
Lemma reservations_keyed_new id0 now : reservations_keyed (new id0 now) = true.
Proof. apply reservations_keyed_spec. apply map_Forall_empty. Qed.

Lemma reservations_keyed_apply event this :
  reservations_keyed this = true → reservations_keyed (apply event this) = true.
Proof.
  rewrite !reservations_keyed_spec. intros Hkeyed.
  unfold apply. destruct (data event); simpl; try done.
  - by apply map_Forall_insert_2.
  - unfold applyStockReleased.
    destruct (reservations this !! reservationId this _) eqn:Hres; simpl; [|done].
    by apply map_Forall_delete.
  - unfold applyStockAllocated.
    destruct (reservations this !! reservationId this _) as [r|] eqn:Hres; simpl; [|done].
    apply map_Forall_insert_2; [|done]. simpl. by apply Hkeyed in Hres.
Qed.

Lemma reservations_keyed_applyEvent event this :
  reservations_keyed this = true →
  reservations_keyed (snd (applyEvent event this)) = true.
Proof. intros Hkeyed. by apply (reservations_keyed_apply event) in Hkeyed. Qed.

(** C9. [updateStock] never throws and clamps at zero for 'set' and
    'decrement': the resulting current stock is [max(0, n)], respectively
    [max(0, currentStock - n)], hence never negative, whatever [n].  For
    'increment' it is [currentStock + n], unclamped, and can be negative. *)
Theorem updateStock_clamps_at_zero this n changeReason now :
  (let out := updateStock n changeReason set_ now this in
   fst out = Ok tt
   ∧ currentStock (snd out) = Z.max 0 n
   ∧ 0 ≤ currentStock (snd out))
  ∧ (let out := updateStock n changeReason decrement now this in
     fst out = Ok tt
     ∧ currentStock (snd out) = Z.max 0 (currentStock this - n)
     ∧ 0 ≤ currentStock (snd out))
  ∧ (let out := updateStock n changeReason increment now this in
     fst out = Ok tt
     ∧ currentStock (snd out) = currentStock this + n)
  ∧ currentStock
      (snd (updateStock (-20) changeReason increment now (inventory_v1 10 2)))
    = -10.
Proof.
  assert (Hgen : ∀ changeType,
    let out := updateStock n changeReason changeType now this in
    fst out = Ok tt
    ∧ currentStock (snd out)
      = match changeType with
        | increment => currentStock this + n
        | decrement => Z.max 0 (currentStock this - n)
        | set_ => Z.max 0 n
        end).
  { intros changeType. unfold updateStock, checkStockAlerts, applyEvent. run_m.
    match goal with
    | |- context [getAvailableStock ?s =? 0] => destruct (getAvailableStock s =? 0)
    end; [by destruct changeType|].
    match goal with
    | |- context [?a <=? ?b] => destruct (a <=? b)
    end; by destruct changeType. }
  cbv zeta in *. split; [|split; [|split]].
  - destruct (Hgen set_) as [-> ->]. repeat split; lia.
  - destruct (Hgen decrement) as [-> ->]. repeat split; lia.
  - apply (Hgen increment).
  - reflexivity.
Qed.

(** After [updateStock] the alert check has run: the last uncommitted event
    is the alert whenever the available stock it leaves is zero or at most
    the threshold. *)
Lemma updateStock_checks_alerts this n changeReason changeType now :
  let this' := snd (updateStock n changeReason changeType now this) in
  (getAvailableStock this' = 0 →
   ∃ alertedAt, data <$> last (uncommittedEvents this')
                = Some (OutOfStockAlert (productId this') alertedAt))
  ∧ (0 < getAvailableStock this' ≤ lowStockThreshold this' →
     ∃ alertedAt, data <$> last (uncommittedEvents this')
                  = Some (LowStockAlert (productId this') (getAvailableStock this')
                            (lowStockThreshold this') alertedAt)).
Proof.
  unfold updateStock, checkStockAlerts, applyEvent. run_m.
  match goal with
  | |- context [getAvailableStock ?s =? 0] =>
      destruct (getAvailableStock s =? 0) eqn:E0
  end.
  - apply Z.eqb_eq in E0. cbn -[getAvailableStock]. split.
    + intros _. eexists. rewrite last_snoc. reflexivity.
    + unfold getAvailableStock in *. simpl in *. lia.
  - apply Z.eqb_neq in E0.
    match goal with
    | |- context [?a <=? ?b] => destruct (a <=? b) eqn:E1
    end.
    + cbn -[getAvailableStock]. split.
      * unfold getAvailableStock in *. simpl in *. lia.
      * intros _. eexists. rewrite last_snoc. reflexivity.
    + apply Z.leb_gt in E1. cbn -[getAvailableStock]. split.
      * unfold getAvailableStock in *. simpl in *. lia.
      * unfold getAvailableStock in *. simpl in *. lia.
Qed.

(** C7. Only [updateStock] checks the alerts.  With stock 5 and threshold
    2, reserving all 5 is accepted and leaves no available stock; reserving
    4 leaves 1, below the threshold, and allocating them keeps it there.
    In both runs the uncommitted events are the creation and the commands'
    own events, and none is an alert. *)
Theorem reserveStock_appends_no_alert :
  accepted reserve_all (λ this,
    getAvailableStock this = 0
    ∧ event_types (uncommittedEvents this) = ["InventoryItemCreated"; "StockReserved"]
    ∧ existsb is_alert (uncommittedEvents this) = false)
  ∧ accepted reserve_and_allocate (λ this,
      getAvailableStock this = 1
      ∧ lowStockThreshold this = 2
      ∧ event_types (uncommittedEvents this)
        = ["InventoryItemCreated"; "StockReserved"; "StockAllocated"]
      ∧ existsb is_alert (uncommittedEvents this) = false).
Proof.
  split.
  - evaluate reserve_all. cbv [accepted]. repeat split; vm_compute; reflexivity.
  - evaluate reserve_and_allocate. cbv [accepted].
    repeat split; vm_compute; reflexivity.
Qed.

(** C4. The reserved stock does not stay the sum of the active
    reservations.  Each sequence below is accepted command by command.
    Allocating a reservation and then releasing it subtracts its quantity
    twice (reserved stock -5, no reservation left); reserving twice for one
    order keeps one reservation of 3 and 5 reserved; allocating 3 of 5
    reserved leaves 2 reserved and no unallocated reservation. *)
Theorem reserved_stock_diverges_from_reservations :
  accepted allocate_then_release (λ this,
    reservedStock this = -5
    ∧ sum_active_reservations this = 0
    ∧ ¬ stock_invariant this)
  ∧ accepted reserve_twice (λ this,
      reservedStock this = 5
      ∧ sum_active_reservations this = 3
      ∧ ¬ stock_invariant this)
  ∧ accepted allocate_partially (λ this,
      reservedStock this = 2
      ∧ sum_active_reservations this = 0
      ∧ ¬ stock_invariant this).
Proof.
  split; [|split].
  - evaluate allocate_then_release. cbv [accepted].
    split; [|split]; [vm_compute; reflexivity..|].
    intros [Hsum _]. vm_compute in Hsum. discriminate.
  - evaluate reserve_twice. cbv [accepted].
    split; [|split]; [vm_compute; reflexivity..|].
    intros [Hsum _]. vm_compute in Hsum. discriminate.
  - evaluate allocate_partially. cbv [accepted].
    split; [|split]; [vm_compute; reflexivity..|].
    intros [Hsum _]. vm_compute in Hsum. discriminate.
Qed.

(** C10, as stated, at a second quantity of zero: the inventory holds an
    active reservation of 4 for order A and has 6 available, which is at
    least 0, yet the second call is rejected. *)
Lemma reserve_again_zero_quantity_rejected :
  getReservation "orderA" reserved_once
    = Some (StockReservation.mk "inv1-orderA" "orderA" 4 101 future false)
  ∧ 0 ≤ getAvailableStock reserved_once
  ∧ reserveStock "orderA" 0 future 102 reserved_once
    = (Throw (Error "Reservation quantity must be greater than zero"), reserved_once).
Proof. repeat split; vm_compute; (reflexivity || discriminate). Qed.

(** C10, amended.  After an accepted [reserveStock(orderId, q1)], a second
    [reserveStock(orderId, q2)] is accepted whenever [q2 > 0] and the
    available stock is at least [q2]; afterwards exactly one reservation is
    held for the order, the second one, of quantity [q2] and keyed by
    [inventoryId-orderId], while the reserved stock has grown by [q1 + q2]
    over the two calls. *)
Theorem reserve_again this0 orderId q1 q2 e1 e2 now1 now2 this1 :
  reservations_keyed this0 = true →
  reserveStock orderId q1 e1 now1 this0 = (Ok tt, this1) →
  0 < q2 → q2 ≤ getAvailableStock this1 →
  getReservation orderId this1
    = Some (StockReservation.mk (reservationId this0 orderId) orderId q1 now1 e1 false)
  ∧ ∃ this2,
      reserveStock orderId q2 e2 now2 this1 = (Ok tt, this2)
      ∧ reservations_of_order orderId this2
        = {[ reservationId this0 orderId :=
               StockReservation.mk (reservationId this0 orderId) orderId q2 now2 e2
                 false ]}
      ∧ reservedStock this2 = reservedStock this0 + q1 + q2.
Proof.
  intros Hkeyed H1 Hq2 Hav. apply reservations_keyed_spec in Hkeyed.
  destruct (reserveStock_Ok_inv _ _ _ _ _ _ H1) as [Hq1 Hav1].
  rewrite reserveStock_accepted in H1 by done. injection H1 as <-.
  split.
  { unfold getReservation. simpl. apply lookup_insert_eq. }
  eexists. split; [by apply reserveStock_accepted|]. split.
  - unfold reservations_of_order. simpl.
    unfold reservationId at 1 3. simpl. fold (reservationId this0 orderId).
    rewrite insert_insert_eq.
    apply map_eq. intros k.
    destruct (decide (k = reservationId this0 orderId)) as [->|Hne].
    + rewrite lookup_singleton_eq. apply map_lookup_filter_Some.
      split; [apply lookup_insert_eq|done].
    + rewrite lookup_singleton_ne by done.
      apply map_lookup_filter_None. right. intros r Hr HP. simpl in HP.
      rewrite lookup_insert_ne in Hr by done.
      apply Hkeyed in Hr. simpl in Hr. congruence.
  - simpl. lia.
Qed.

Lemma reserve_again_witness :
  getReservation "orderA" reserved_once
    = Some (StockReservation.mk (reservationId (inventory_v1 10 2) "orderA")
              "orderA" 4 101 future false)
  ∧ ∃ this2,
      reserveStock "orderA" 3 future 102 reserved_once = (Ok tt, this2)
      ∧ reservations_of_order "orderA" this2
        = {[ reservationId (inventory_v1 10 2) "orderA" :=
               StockReservation.mk (reservationId (inventory_v1 10 2) "orderA")
                 "orderA" 3 102 future false ]}
      ∧ reservedStock this2 = reservedStock (inventory_v1 10 2) + 4 + 3.
Proof.
  apply (reserve_again (inventory_v1 10 2) "orderA" 4 3 future future 101 102
           reserved_once).
  - vm_compute. reflexivity.
  - vm_compute. reflexivity.
  - lia.
  - vm_compute. discriminate.
Defined.

End InventoryFacts.

(** ** Reconstruction from events *)

Lemma forEach_cons {S A} (body : A → M S unit) x xs s :
  forEach (x :: xs) body s
  = match body x s with
    | (Ok _, s') => forEach xs body s'
    | (Throw e, s') => (Throw e, s')
    end.
Proof. reflexivity. Qed.

Section InventoryReplay.
Import Inventory.

Lemma Inventory_apply_set_version event v this :
  apply event (set_version v this) = set_version v (apply event this).
Proof.
  unfold apply. destruct (data event); try reflexivity.
  - unfold applyStockReleased, reservationId. simpl.
    by destruct (reservations this !! _).
  - unfold applyStockAllocated, reservationId. simpl.
    by destruct (reservations this !! _).
Qed.

Lemma Inventory_apply_set_uncommittedEvents event u this :
  apply event (set_uncommittedEvents u this)
  = set_uncommittedEvents u (apply event this).
Proof.
  unfold apply. destruct (data event); try reflexivity.
  - unfold applyStockReleased, reservationId. simpl.
    by destruct (reservations this !! _).
  - unfold applyStockAllocated, reservationId. simpl.
    by destruct (reservations this !! _).
Qed.

Lemma Inventory_fold_apply_setters events : ∀ u v this,
  fold_left (λ s e, apply e s) events (set_uncommittedEvents u (set_version v this))
  = set_uncommittedEvents u (set_version v (fold_left (λ s e, apply e s) events this)).
Proof.
  induction events as [|e rest IH]; intros u v this; simpl; [done|].
  by rewrite Inventory_apply_set_uncommittedEvents, Inventory_apply_set_version, IH.
Qed.

Lemma Inventory_apply_version event this :
  version (apply event this) = version this.
Proof.
  unfold apply. destruct (data event); try by destruct this.
  - unfold applyStockReleased. by destruct (reservations this !! _).
  - unfold applyStockAllocated. by destruct (reservations this !! _).
Qed.

Lemma Inventory_apply_uncommittedEvents event this :
  uncommittedEvents (apply event this) = uncommittedEvents this.
Proof.
  unfold apply. destruct (data event); try by destruct this.
  - unfold applyStockReleased. by destruct (reservations this !! _).
  - unfold applyStockAllocated. by destruct (reservations this !! _).
Qed.

Lemma Inventory_applyEvent_run event this :
  applyEvent event this
  = (Ok tt,
     set_uncommittedEvents (uncommittedEvents this ++ [event])
       (set_version (version this + 1) (apply event this))).
Proof.
  unfold applyEvent. run_m. cbn [uncommittedEvents set_version].
  by rewrite Inventory_apply_version, Inventory_apply_uncommittedEvents.
Qed.

Lemma Inventory_forEach_applyEvent events : ∀ this,
  forEach events applyEvent this
  = (Ok tt,
     set_uncommittedEvents (uncommittedEvents this ++ events)
       (set_version (version this + Z.of_nat (length events))
          (fold_left (λ s e, apply e s) events this))).
Proof.
  induction events as [|e rest IH]; intros this.
  - simpl. unfold ret, set_uncommittedEvents, set_version. destruct this. simpl.
    by rewrite app_nil_r, Z.add_0_r.
  - rewrite forEach_cons, Inventory_applyEvent_run, IH.
    cbn [fold_left]. rewrite Inventory_fold_apply_setters.
    destruct (fold_left _ rest (apply e this)).
    unfold set_uncommittedEvents, set_version. simpl.
    rewrite <- app_assoc. do 2 f_equal. lia.
Qed.

(** [Inventory.fromEvents] folds the events through [apply] in order, from
    the state of the constructor; it counts them in [version] and keeps
    every one of them in [uncommittedEvents]. *)
Lemma Inventory_fromEvents_spec id0 events now :
  fromEvents id0 events now
  = Ok (set_uncommittedEvents events
          (set_version (Z.of_nat (length events))
             (fold_left (λ s e, apply e s) events (new id0 now)))).
Proof.
  unfold fromEvents, construct. by rewrite Inventory_forEach_applyEvent.
Qed.

End InventoryReplay.

Section PaymentReplay.
Import Payment.

Lemma Payment_apply_set_version event v this :
  apply event (set_version v this) = set_version v (apply event this).
Proof. unfold apply. by destruct (data event). Qed.

Lemma Payment_apply_set_uncommittedEvents event u this :
  apply event (set_uncommittedEvents u this)
  = set_uncommittedEvents u (apply event this).
Proof. unfold apply. by destruct (data event). Qed.

Lemma Payment_fold_apply_setters events : ∀ u v this,
  fold_left (λ s e, apply e s) events (set_uncommittedEvents u (set_version v this))
  = set_uncommittedEvents u (set_version v (fold_left (λ s e, apply e s) events this)).
Proof.
  induction events as [|e rest IH]; intros u v this; simpl; [done|].
  by rewrite Payment_apply_set_uncommittedEvents, Payment_apply_set_version, IH.
Qed.

Lemma Payment_apply_version event this :
  version (apply event this) = version this.
Proof.
  unfold apply. by destruct (data event).
Qed.

Lemma Payment_apply_uncommittedEvents event this :
  uncommittedEvents (apply event this) = uncommittedEvents this.
Proof.
  unfold apply. by destruct (data event).
Qed.

Lemma Payment_applyEvent_run event this :
  applyEvent event this
  = (Ok tt,
     set_uncommittedEvents (uncommittedEvents this ++ [event])
       (set_version (version this + 1) (apply event this))).
Proof.
  unfold applyEvent. run_m. cbn [uncommittedEvents set_version].
  by rewrite Payment_apply_version, Payment_apply_uncommittedEvents.
Qed.

Lemma Payment_forEach_applyEvent events : ∀ this,
  forEach events applyEvent this
  = (Ok tt,
     set_uncommittedEvents (uncommittedEvents this ++ events)
       (set_version (version this + Z.of_nat (length events))
          (fold_left (λ s e, apply e s) events this))).
Proof.
  induction events as [|e rest IH]; intros this.
  - simpl. unfold ret, set_uncommittedEvents, set_version. destruct this. simpl.
    by rewrite app_nil_r, Z.add_0_r.
  - rewrite forEach_cons, Payment_applyEvent_run, IH.
    cbn [fold_left]. rewrite Payment_fold_apply_setters.
    destruct (fold_left _ rest (apply e this)).
    unfold set_uncommittedEvents, set_version. simpl.
    rewrite <- app_assoc. do 2 f_equal. lia.
Qed.

Lemma Payment_fromEvents_spec id0 events now :
  fromEvents id0 events now
  = Ok (set_uncommittedEvents events
          (set_version (Z.of_nat (length events))
             (fold_left (λ s e, apply e s) events (new id0 now)))).
Proof.
  unfold fromEvents, construct. by rewrite Payment_forEach_applyEvent.
Qed.

End PaymentReplay.

(** The constructor of [Order] throws: the placeholder addresses have
    empty fields, which the address schema rejects. *)
Lemma Order_new_throws is_email id0 now :
  Order.new is_email id0 now = Throw (Invalid "order address").
Proof. reflexivity. Qed.

Lemma Order_fromEvents_throws is_uuid is_email id0 events now :
  Order.fromEvents is_uuid is_email id0 events now = Throw (Invalid "order address").
Proof. reflexivity. Qed.

(** The constructor of [Product] throws as well: the placeholder price 0
    is not positive. *)
Lemma Product_new_throws id0 now :
  Product.new id0 now = Throw (Invalid "product price").
Proof. reflexivity. Qed.

(** C1. [fromEvents] does not return an aggregate with an empty
    uncommitted-events list.  Rebuilding an inventory or a payment from
    its one stored event returns an aggregate at version 1 that lists that
    event as uncommitted; rebuilding an order throws in the constructor. *)
Theorem fromEvents_leaves_events_uncommitted :
  accepted (Inventory.fromEvents "inv1" [inventory_created "inv1" 10 2] 300)
    (λ this,
       Inventory.getUncommittedEvents this = [inventory_created "inv1" 10 2]
       ∧ Inventory.getVersion this = 1
       ∧ Inventory.getCurrentStock this = 10)
  ∧ accepted (Payment.fromEvents "pay1" [payment_requested] 300)
      (λ this,
         Payment.getUncommittedEvents this = [payment_requested]
         ∧ Payment.getVersion this = 1)
  ∧ ∀ is_uuid is_email,
      Order.fromEvents is_uuid is_email "order1" [scenario_created] 300
      = Throw (Invalid "order address").
Proof.
  split; [|split].
  - rewrite Inventory_fromEvents_spec. cbv [accepted]. by repeat split.
  - rewrite Payment_fromEvents_spec. cbv [accepted]. by repeat split.
  - intros. apply Order_fromEvents_throws.
Qed.

(** ** The repositories *)

(** [save] of the order and inventory repositories: one call of
    [saveEvents] with the version the aggregate had before its uncommitted
    events; the aggregate is not touched. *)
Lemma OrderRepository_save_run env order table :
  Order.getUncommittedEvents order ≠ [] →
  OrderRepository.save env (order, table)
  = (let out :=
       EventStore.saveEvents env (Order.getId order)
         (Order.getUncommittedEvents order)
         (Order.getVersion order
          - Z.of_nat (length (Order.getUncommittedEvents order))) table in
     (fst out, (order, snd out))).
Proof.
  intros Hne. unfold OrderRepository.save. run_m. simpl.
  destruct (Order.getUncommittedEvents order) eqn:Hev; [done|].
  simpl. by destruct (EventStore.saveEvents _ _ _ _ _).
Qed.

Lemma InventoryRepository_save_run env inventory table :
  Inventory.getUncommittedEvents inventory ≠ [] →
  InventoryRepository.save env (inventory, table)
  = (let out :=
       EventStore.saveEvents env (Inventory.getId inventory)
         (Inventory.getUncommittedEvents inventory)
         (Inventory.getVersion inventory
          - Z.of_nat (length (Inventory.getUncommittedEvents inventory))) table in
     (fst out, (inventory, snd out))).
Proof.
  intros Hne. unfold InventoryRepository.save. run_m. simpl.
  destruct (Inventory.getUncommittedEvents inventory) eqn:Hev; [done|].
  simpl. by destruct (EventStore.saveEvents _ _ _ _ _).
Qed.

(** [save] of the product repository: one call of [saveEvents], and the
    events are marked committed when it returns. *)
Lemma ProductRepository_save_run env product table :
  Product.getUncommittedEvents product ≠ [] →
  ProductRepository.save env (product, table)
  = (let out :=
       EventStore.saveEvents env (Product.getId product)
         (Product.getUncommittedEvents product) (Product.getVersion product)
         table in
     match fst out with
     | Ok _ =>
         (Ok tt,
          (Product.set_imagesHolder None (Product.set_uncommittedEvents [] product),
           snd out))
     | Throw e => (Throw e, (product, snd out))
     end).
Proof.
  intros Hne. unfold ProductRepository.save, Product.markEventsAsCommitted. run_m.
  simpl. destruct (Product.getUncommittedEvents product) eqn:Hev; [done|].
  simpl. by destruct (EventStore.saveEvents _ _ _ _ _) as [[[]|err] table'].
Qed.

(** The product repository passes the product's current version as the
    expected one: the first save of a product conflicts with the empty
    stream. *)
Lemma ProductRepository_save_new_product_conflicts :
  ProductRepository.save (serial_env 1 100) (product_v1, [])
  = (Throw (ConcurrencyConflict 1 0), (product_v1, [])).
Proof. vm_compute. reflexivity. Qed.

(** C3, as stated, at a created inventory: it has one uncommitted event,
    its save into the empty store succeeds and stores the event, and the
    event is still listed as uncommitted afterwards. *)
Lemma save_leaves_events_uncommitted :
  let inventory := inventory_v1 10 2 in
  let out := InventoryRepository.save (serial_env 1 100) (inventory, []) in
  Inventory.getUncommittedEvents inventory = [inventory_created "inv1" 10 2]
  ∧ fst out = Ok tt
  ∧ List.map EventStore.version (snd (snd out)) = [1]
  ∧ Inventory.getUncommittedEvents (fst (snd out)) = [inventory_created "inv1" 10 2]
  ∧ Inventory.getUncommittedEvents (fst (snd out)) ≠ [].
Proof. cbv zeta. repeat split; vm_compute; (reflexivity || discriminate). Qed.

(** C3, amended.  For an order or an inventory with at least one
    uncommitted event, [save] is the call of [saveEvents] on the
    aggregate's id and uncommitted events with expected version
    [version - count]; it does not mark the events committed: the
    aggregate is unchanged.  For a product with at least one uncommitted
    event, [save] is one call of [saveEvents] on its id and uncommitted
    events; when it succeeds the product's uncommitted-events list is empty
    (and nothing else of the product changed: it lists no event any more,
    so none that holds its images array), when it throws the product and
    the store are unchanged. *)
Theorem repository_save_spec env order (otable : list (EventStore.StoredEvent _))
    inventory (itable : list (EventStore.StoredEvent _))
    product (ptable : list (EventStore.StoredEvent _)) :
  Order.getUncommittedEvents order ≠ [] →
  Inventory.getUncommittedEvents inventory ≠ [] →
  Product.getUncommittedEvents product ≠ [] →
  OrderRepository.save env (order, otable)
  = (let out :=
       EventStore.saveEvents env (Order.getId order)
         (Order.getUncommittedEvents order)
         (Order.getVersion order
          - Z.of_nat (length (Order.getUncommittedEvents order))) otable in
     (fst out, (order, snd out)))
  ∧ InventoryRepository.save env (inventory, itable)
    = (let out :=
         EventStore.saveEvents env (Inventory.getId inventory)
           (Inventory.getUncommittedEvents inventory)
           (Inventory.getVersion inventory
            - Z.of_nat (length (Inventory.getUncommittedEvents inventory))) itable in
       (fst out, (inventory, snd out)))
  ∧ ∃ expectedVersion,
      let stored :=
        EventStore.saveEvents env (Product.getId product)
          (Product.getUncommittedEvents product) expectedVersion ptable in
      let out := ProductRepository.save env (product, ptable) in
      (fst stored = Ok tt →
       out = (Ok tt,
              (Product.set_imagesHolder None
                 (Product.set_uncommittedEvents [] product),
               snd stored))
       ∧ Product.getUncommittedEvents (fst (snd out)) = [])
      ∧ (isOk (fst stored) = false → out = (fst stored, (product, ptable))).
Proof.
  intros Ho Hi Hp. split; [|split].
  - by apply OrderRepository_save_run.
  - by apply InventoryRepository_save_run.
  - exists (Product.getVersion product). cbv zeta.
    rewrite ProductRepository_save_run by done. cbv zeta.
    pose proof (saveEvents_Throw_table env (Product.getId product)
                  (Product.getUncommittedEvents product)
                  (Product.getVersion product) ptable) as Hfail.
    destruct (EventStore.saveEvents _ _ _ _ _) as [[[]|err] table']; simpl in *.
    + split; [done|discriminate].
    + split; [discriminate|]. intros _. by rewrite Hfail.
Qed.

Lemma repository_save_spec_witness :
  OrderRepository.save (serial_env 1 100) (order_v1, [])
  = (Ok tt,
     (order_v1,
      [EventStore.mkStoredEvent 1 "order1" "OrderCreated" (data scenario_created)
         (metadata scenario_created) 1 100]))
  ∧ InventoryRepository.save (serial_env 1 100) (inventory_v1 10 2, [])
    = (Ok tt,
       (inventory_v1 10 2,
        [EventStore.mkStoredEvent 1 "inv1" "InventoryItemCreated"
           (data (inventory_created "inv1" 10 2))
           (metadata (inventory_created "inv1" 10 2)) 1 100]))
  ∧ isOk (fst (ProductRepository.save (serial_env 1 100) (product_v1, []))) = false.
Proof.
  destruct (repository_save_spec (serial_env 1 100) order_v1 [] (inventory_v1 10 2) []
              product_v1 [])
    as (Horder & Hinventory & _ & _).
  - vm_compute. discriminate.
  - vm_compute. discriminate.
  - vm_compute. discriminate.
  - split; [|split].
    + rewrite Horder. vm_compute. reflexivity.
    + rewrite Hinventory. vm_compute. reflexivity.
    + vm_compute. reflexivity.
Defined.

(** ** The Product aggregate *)

Section ProductFacts.
Import Product.

(** The commands that test [isActive] reject a discontinued product and
    leave it as it was; [reactivate] is accepted. *)
Lemma discontinued_product_rejects_guarded_commands this now :
  isActive this = false →
  (∀ name0 description0 categoryId0 images0 attributes0 isActive0,
     updateProduct name0 description0 categoryId0 images0 attributes0 isActive0
       now this
     = (Throw (Error "Cannot update a discontinued product"), this))
  ∧ (∀ newPrice reason,
       changePrice newPrice reason now this
       = (Throw (Error "Cannot change price of a discontinued product"), this))
  ∧ (∀ newCategoryId,
       changeCategory newCategoryId now this
       = (Throw (Error "Cannot change category of a discontinued product"), this))
  ∧ (∀ imageUrl isPrimary,
       addImage imageUrl isPrimary now this
       = (Throw (Error "Cannot add image to a discontinued product"), this))
  ∧ (∀ key0 value0,
       updateAttribute key0 value0 now this
       = (Throw (Error "Cannot update attributes of a discontinued product"), this))
  ∧ (∀ reason,
       discontinue reason now this
       = (Throw (Error "Product is already discontinued"), this))
  ∧ fst (reactivate now this) = Ok tt
  ∧ isActive (snd (reactivate now this)) = true.
Proof.
  intros Hoff.
  unfold updateProduct, changePrice, changeCategory, addImage, updateAttribute,
    discontinue, reactivate, applyEvent.
  run_m. rewrite Hoff. simpl. by repeat split.
Qed.

(** [updateStock] and [removeImage] do not test [isActive]. *)
Lemma updateStock_ignores_isActive this newStock changeReason now :
  0 ≤ newStock →
  fst (updateStock newStock changeReason now this) = Ok tt
  ∧ stock (snd (updateStock newStock changeReason now this)) = newStock
  ∧ uncommittedEvents (snd (updateStock newStock changeReason now this))
    = uncommittedEvents this
      ++ [newEvent (id this) (ProductStockUpdated (stock this) newStock changeReason)
            now].
Proof.
  intros Hpos. unfold updateStock, applyEvent. run_m.
  destruct (newStock <? 0) eqn:E; [lia|]. by repeat split.
Qed.

(** The two methods on a product object whose [isActive] is false: each
    returns normally, changes the object and appends its event.  No call
    of [Product.create] or [Product.fromEvents] yields such an object,
    the constructor throwing for every id ([Product_new_throws]). *)
Example discontinued_product_accepts_updateStock :
  isProductActive discontinued_product = false
  ∧ (let out := updateStock 5 "restock" 300 discontinued_product in
     fst out = Ok tt
     ∧ getStock (snd out) = 5
     ∧ event_types (getUncommittedEvents (snd out))
       = ["ProductCreated"; "ProductDiscontinued"; "ProductStockUpdated"])
  ∧ (let out := removeImage "a.png" 300 discontinued_product in
     fst out = Ok tt
     ∧ images (snd out) = []
     ∧ event_types (getUncommittedEvents (snd out))
       = ["ProductCreated"; "ProductDiscontinued"; "ProductImageRemoved"]).
Proof. cbv zeta. repeat split; vm_compute; reflexivity. Qed.

End ProductFacts.

(** ** The Order aggregate *)

Section OrderFacts.
Import Order.
Variables is_uuid is_email : string → bool.

(** The item schema rejects the items [applyOrderCreated] builds: their
    [name] is empty. *)
Lemma OrderItem_unnamed_rejected id0 productId0 sku0 quantity0 unitPrice0
    totalPrice0 currency0 :
  OrderItem.new is_uuid
    (OrderItem.mk id0 productId0 sku0 "" quantity0 unitPrice0 totalPrice0 currency0)
  = Throw (Invalid "order item").
Proof.
  unfold OrderItem.new, OrderItem.schema. simpl.
  destruct (is_uuid id0), (is_uuid productId0), (string_min_max 1 100 sku0);
    reflexivity.
Qed.

Lemma scenario_address_valid :
  OrderAddress.new is_email scenario_address = Ok scenario_address.
Proof. reflexivity. Qed.

(** Replaying the scenario's [OrderCreated] on an order object throws at
    its first item, whatever the object. *)
Lemma apply_scenario_created_throws this :
  fst (Order.apply is_uuid is_email scenario_created this)
  = Throw (Invalid "order item").
Proof.
  change (Order.apply is_uuid is_email scenario_created this)
    with (applyOrderCreated is_uuid is_email 100 "user1"
            [CreatedItem.mk "p1" 2 10 "S1"] 20 "USD" scenario_address
            scenario_address "card" this).
  unfold applyOrderCreated. run_m.
  rewrite !scenario_address_valid. cbn [forEach]. run_m.
  rewrite OrderItem_unnamed_rejected. reflexivity.
Qed.

(** The status checks of the scenario, on order objects: [cancel] is
    accepted in an open status, counts one more event and leaves the order
    cancelled; [confirm] is then rejected and changes nothing. *)
Lemma cancel_then_confirm this cancelledBy reason refundAmount now confirmedBy now' :
  is_closed this = false →
  let out := cancel is_uuid is_email cancelledBy reason refundAmount now this in
  fst out = Ok tt
  ∧ getStatus (snd out) = "cancelled"
  ∧ getVersion (snd out) = getVersion this + 1
  ∧ confirm is_uuid is_email confirmedBy now' (snd out)
    = (Throw (Error "Order can only be confirmed when in pending status"), snd out).
Proof.
  intros Hopen. unfold cancel, confirm, applyEvent, Order.apply, applyOrderCancelled.
  run_m. rewrite Hopen. simpl. by repeat split.
Qed.

(** C6. The scenario stops at its first step: [Order.create] with the
    single item (quantity 2, unit price 10, total 20) throws, whatever the
    format tests of the validation library answer, because the constructor
    builds its placeholder addresses through the address schema. *)
Theorem order_create_scenario_throws now :
  OrderItem.totalPrice scenario_item = 20
  ∧ Order.create is_uuid is_email "order1" "user1" [scenario_item] scenario_address
      scenario_address "card" now
    = Throw (Invalid "order address").
Proof. split; reflexivity. Qed.

End OrderFacts.
(** * Further properties *)

(** ** The event store: streams, reads and feeds *)

Section StreamFacts.
Context {D : Type} `{EventClass D}.
Import EventStore.

Lemma stream_app a (t1 t2 : list (StoredEvent D)) :
  stream a (t1 ++ t2) = stream a t1 ++ stream a t2.
Proof. unfold stream. induction t1 as [|r t1 IH]; simpl; [done|].
  rewrite IH. by destruct (String.eqb _ _). Qed.

Lemma stream_batch_rows_same env a ev events : ∀ i,
  stream a (batch_rows env a ev i events) = batch_rows env a ev i events.
Proof.
  induction events as [|e rest IH]; intros i; simpl; [done|].
  unfold stream in *. simpl. rewrite String.eqb_refl. by rewrite IH.
Qed.

Lemma stream_batch_rows_other env a b ev events : a ≠ b → ∀ i,
  stream b (batch_rows env a ev i events) = [].
Proof.
  intros Hne. induction events as [|e rest IH]; intros i; simpl; [done|].
  unfold stream in *. simpl.
  destruct (String.eqb a b) eqn:E; [by apply String.eqb_eq in E|]. apply IH.
Qed.

Lemma batch_rows_versions env a ev events : ∀ i,
  List.map version (batch_rows env a ev i events)
  = List.map (λ j, ev + Z.of_nat j) (seq (S i) (length events)).
Proof.
  induction events as [|e rest IH]; intros i; simpl; [done|].
  rewrite IH. f_equal. lia.
Qed.

Lemma fold_max_increasing ev : ∀ m j,
  fold_left Z.max (List.map (λ k, ev + Z.of_nat k) (seq (S j) m)) (ev + Z.of_nat j)
  = ev + Z.of_nat (j + m).
Proof.
  induction m as [|m IH]; intros j; simpl.
  - by rewrite Nat.add_0_r.
  - replace (Z.max (ev + Z.of_nat j) (ev + Z.of_nat (S j))) with (ev + Z.of_nat (S j))
      by lia.
    rewrite IH. f_equal. lia.
Qed.

(** The version the store reads after a batch was appended to a stream
    whose version was [ev]. *)
Lemma current_version_after_batch env a ev events (table : list (StoredEvent D)) :
  current_version a table = ev → events ≠ [] →
  current_version a (table ++ batch_rows env a ev 0 events)
  = ev + Z.of_nat (length events).
Proof.
  intros Hcur Hne. unfold current_version in *. fold (stream a table) in Hcur.
  fold (stream a (table ++ batch_rows env a ev 0 events)).
  rewrite stream_app, stream_batch_rows_same, map_app, batch_rows_versions.
  destruct events as [|e rest]; [done|]. cbn [length seq List.map].
  destruct (List.map version (stream a table)) as [|v vs]; cbn [app fold_left].
  - rewrite (fold_max_increasing ev (length rest) 1). lia.
  - rewrite fold_left_app, Hcur. cbn [fold_left].
    replace (Z.max ev (ev + Z.of_nat 1)) with (ev + Z.of_nat 1) by lia.
    rewrite (fold_max_increasing ev (length rest) 1). lia.
Qed.

Lemma saveEvents_Ok_table env a (events : list (Event D)) ev table :
  fst (saveEvents env a events ev table) = Ok tt →
  current_version a table = ev
  ∧ snd (saveEvents env a events ev table) = table ++ batch_rows env a ev 0 events.
Proof.
  unfold saveEvents, saveEvents_try.
  destruct (query_fails env 0); [done|]. destruct (query_fails env 1); [done|].
  destruct (current_version a table =? ev) eqn:Hcur; simpl; [|done].
  apply Z.eqb_eq in Hcur.
  destruct (insertEvents env a ev 0 events table) as [txn|err] eqn:Hins; [|done].
  destruct (query_fails env _); [done|]. simpl. intros _.
  apply insertEvents_Ok in Hins. by subst.
Qed.

Lemma saveEvents_conflict env a (events : list (Event D)) ev table :
  current_version a table ≠ ev →
  isOk (fst (saveEvents env a events ev table)) = false
  ∧ (query_fails env 0 = false → query_fails env 1 = false →
     fst (saveEvents env a events ev table)
     = Throw (ConcurrencyConflict ev (current_version a table))).
Proof.
  intros Hne. unfold saveEvents, saveEvents_try.
  destruct (query_fails env 0); [done|]. destruct (query_fails env 1); [done|].
  destruct (current_version a table =? ev) eqn:Hcur; simpl; [|done].
  by apply Z.eqb_eq in Hcur.
Qed.

Lemma stale_version_conflicts env1 env2 a (events1 events2 : list (Event D)) ev table :
  events1 ≠ [] →
  fst (saveEvents env1 a events1 ev table) = Ok tt →
  isOk (fst (saveEvents env2 a events2 ev (snd (saveEvents env1 a events1 ev table))))
  = false
  ∧ snd (saveEvents env2 a events2 ev (snd (saveEvents env1 a events1 ev table)))
    = snd (saveEvents env1 a events1 ev table)
  ∧ (query_fails env2 0 = false → query_fails env2 1 = false →
     fst (saveEvents env2 a events2 ev (snd (saveEvents env1 a events1 ev table)))
     = Throw (ConcurrencyConflict ev (ev + Z.of_nat (length events1)))).
Proof.
  intros Hne Hok.
  destruct (saveEvents_Ok_table _ _ _ _ _ Hok) as [Hcur Htable].
  assert (Hnew : current_version a (snd (saveEvents env1 a events1 ev table))
                 = ev + Z.of_nat (length events1)).
  { rewrite Htable. by apply current_version_after_batch. }
  assert (Hstale : current_version a (snd (saveEvents env1 a events1 ev table)) ≠ ev).
  { rewrite Hnew. destruct events1; [done|]. simpl. lia. }
  destruct (saveEvents_conflict env2 a events2 ev _ Hstale) as [Hfail Herr].
  split; [done|]. split; [by apply saveEvents_Throw_table|].
  intros Q0 Q1. rewrite Herr by done. by rewrite Hnew.
Qed.

Lemma saveEvents_accepted env a (events : list (Event D)) ev table :
  current_version a table = ev → (∀ n, query_fails env n = false) →
  saveEvents env a events ev table = (Ok tt, table ++ batch_rows env a ev 0 events).
Proof.
  intros Hcur Hq. unfold saveEvents, saveEvents_try.
  rewrite (Hq 0%nat), (Hq 1%nat). cbv zeta.
  apply Z.eqb_eq in Hcur. rewrite Hcur. cbn [negb].
  rewrite insertEvents_no_failure by (intros; apply Hq). by rewrite Hq.
Qed.

(** X1. Lost updates are prevented: once a non-empty batch was saved
    against expected version [ev], every later [saveEvents] for the same
    aggregate that still presents [ev] is refused and leaves the table as
    the first save left it; the conflict reports the version the first
    batch reached. *)
Theorem second_save_with_stale_version_conflicts env1 env2 a
    (events1 events2 : list (Event D)) ev table :
  events1 ≠ [] →
  fst (saveEvents env1 a events1 ev table) = Ok tt →
  let table1 := snd (saveEvents env1 a events1 ev table) in
  isOk (fst (saveEvents env2 a events2 ev table1)) = false
  ∧ snd (saveEvents env2 a events2 ev table1) = table1
  ∧ (query_fails env2 0 = false → query_fails env2 1 = false →
     fst (saveEvents env2 a events2 ev table1)
     = Throw (ConcurrencyConflict ev (ev + Z.of_nat (length events1)))).
Proof. intros Hne Hok. cbv zeta. by apply stale_version_conflicts. Qed.

(** *** Sorting by insertion *)

Section InsertionSort.
Context {A : Type} (leb : A → A → bool).



Hypothesis leb_total : ∀ a b, leb a b = false → leb b a = true.



End InsertionSort.


Lemma filter_andb {A} (f g : A → bool) l :
  List.filter (λ x, f x && g x) l = List.filter g (List.filter f l).
Proof.
  induction l as [|x l IH]; simpl; [done|].
  destruct (f x); simpl; [|done]. destruct (g x); by rewrite IH.
Qed.




(** *** Gap-free streams *)

Lemma map_of_nat_seq_shift n : ∀ i k,
  List.map (λ j, Z.of_nat i + Z.of_nat j) (seq k n)
  = List.map Z.of_nat (seq (i + k) n).
Proof.
  induction n as [|n IH]; intros i k; simpl; [done|].
  rewrite IH. f_equal; [lia|]. by rewrite Nat.add_succ_r.
Qed.

Lemma gap_free_current_version a (table : list (StoredEvent D)) :
  gap_free a table → current_version a table = Z.of_nat (length (stream a table)).
Proof.
  unfold gap_free, current_version. fold (stream a table). intros ->.
  destruct (length (stream a table)) as [|n]; cbn [seq List.map]; [done|].
  pose proof (fold_max_increasing 0 n 1) as Hmax.
  rewrite (map_ext _ Z.of_nat) in Hmax by (intros; lia).
  change (0 + Z.of_nat 1) with (Z.of_nat 1) in Hmax. rewrite Hmax. lia.
Qed.

Lemma gap_free_after_batch env a (events : list (Event D)) (table : list (StoredEvent D)) :
  gap_free a table →
  gap_free a
    (table ++ batch_rows env a (Z.of_nat (length (stream a table))) 0 events).
Proof.
  intros Hfree. unfold gap_free. rewrite stream_app, stream_batch_rows_same.
  rewrite map_app, length_app, batch_rows_length, seq_app, map_app.
  rewrite Hfree, batch_rows_versions, map_of_nat_seq_shift.
  by rewrite (Nat.add_comm _ 1).
Qed.

(** X4. Versions stay gap-free.  If in every stream of the table the
    versions are 1, 2, ..., n in insertion order, they still are after any
    call of [saveEvents], accepted or not.  An accepted call presented the
    number of events already stored for the aggregate as expected version
    and lengthened that stream by the batch; no call touches the stream of
    another aggregate. *)
Theorem saveEvents_keeps_streams_gap_free env a (events : list (Event D)) ev table :
  (∀ b, gap_free b table) →
  let out := saveEvents env a events ev table in
  (∀ b, gap_free b (snd out))
  ∧ (fst out = Ok tt →
     ev = Z.of_nat (length (stream a table))
     ∧ stream a (snd out) = stream a table ++ batch_rows env a ev 0 events)
  ∧ (∀ b, b ≠ a → stream b (snd out) = stream b table).
Proof.
  intros Hfree. cbv zeta.
  destruct (fst (saveEvents env a events ev table)) as [[]|err] eqn:Hres.
  - destruct (saveEvents_Ok_table _ _ _ _ _ Hres) as [Hcur ->].
    rewrite gap_free_current_version in Hcur by done.
    assert (Hother : ∀ b, b ≠ a →
              stream b (table ++ batch_rows env a ev 0 events) = stream b table).
    { intros b Hb. rewrite stream_app, stream_batch_rows_other by done.
      by rewrite app_nil_r. }
    split; [|split; [|done]].
    + intros b. destruct (decide (b = a)) as [->|Hb].
      * rewrite <- Hcur. by apply gap_free_after_batch.
      * unfold gap_free. rewrite Hother by done. apply Hfree.
    + intros _. split; [done|]. by rewrite stream_app, stream_batch_rows_same.
  - rewrite saveEvents_Throw_table by (by rewrite Hres).
    split; [done|]. split; [discriminate|done].
Qed.

Lemma filter_version_above_drop (l : list (StoredEvent D)) : ∀ i v,
  List.map version l = List.map Z.of_nat (seq (S i) (length l)) →
  List.filter (λ r, v <? version r) l = drop (Z.to_nat v - i) l.
Proof.
  induction l as [|r l IH]; intros i v Hvers; simpl in *.
  - by rewrite drop_nil.
  - injection Hvers as Hr Hrest.
    destruct (v <? version r) eqn:Hkeep.
    + apply Z.ltb_lt in Hkeep.
      replace (Z.to_nat v - i)%nat with 0%nat by lia. simpl. f_equal.
      rewrite (IH (S i) v) by done.
      by replace (Z.to_nat v - S i)%nat with 0%nat by lia.
    + apply Z.ltb_ge in Hkeep.
      replace (Z.to_nat v - i)%nat with (S (Z.to_nat v - S i)) by lia. simpl.
      by apply IH.
Qed.

Lemma foldr_version_insert_sorted (l : list (StoredEvent D)) : ∀ i,
  List.map version l = List.map Z.of_nat (seq i (length l)) →
  foldr version_insert [] l = l.
Proof.
  induction l as [|r l IH]; intros i Hvers; simpl in *; [done|].
  injection Hvers as Hr Hrest. rewrite (IH (S i)) by done.
  destruct l as [|x xs]; simpl in *; [done|].
  injection Hrest as Hx _.
  destruct (version r <=? version x) eqn:Hle; [done|].
  apply Z.leb_gt in Hle. lia.
Qed.

Lemma getEvents_gap_free a v (table : list (StoredEvent D)) :
  gap_free a table → getEvents a v table = drop (Z.to_nat v) (stream a table).
Proof.
  intros Hfree. unfold getEvents. rewrite filter_andb. fold (stream a table).
  rewrite (filter_version_above_drop _ 0 v) by done. rewrite Nat.sub_0_r.
  apply (foldr_version_insert_sorted _ (S (Z.to_nat v))).
  by rewrite <- skipn_map, Hfree, skipn_map, skipn_seq, length_skipn.
Qed.


Lemma batch_rows_eventData env a ev (events : list (Event D)) : ∀ i,
  List.map eventData (batch_rows env a ev i events) = List.map data events.
Proof. induction events as [|e l IH]; intros i; [done|]. simpl. by rewrite IH. Qed.

End StreamFacts.

Lemma second_save_with_stale_version_conflicts_witness :
  let table1 :=
    snd (EventStore.saveEvents (serial_env 1 5) "A" [stock_event "A" 7; stock_event "A" 8] 0 []) in
  EventStore.saveEvents (serial_env 3 6) "A" [stock_event "A" 9] 0 table1
  = (Throw (ConcurrencyConflict 0 2), table1).
Proof.
  cbv zeta.
  destruct (second_save_with_stale_version_conflicts (serial_env 1 5) (serial_env 3 6)
              "A" [stock_event "A" 7; stock_event "A" 8] [stock_event "A" 9] 0 [])
    as (_ & Hsame & Herr).
  - discriminate.
  - vm_compute. reflexivity.
  - rewrite (surjective_pairing (EventStore.saveEvents (serial_env 3 6) _ _ _ _)).
    rewrite Hsame, Herr by reflexivity. reflexivity.
Defined.

Lemma saveEvents_keeps_streams_gap_free_witness :
  (∀ b, gap_free b ([] : list (EventStore.StoredEvent Inventory.InventoryEvent)))
  ∧ gap_free "A"
      (snd (EventStore.saveEvents (serial_env 1 5) "A"
              [stock_event "A" 7; stock_event "A" 8] 0 []))
  ∧ gap_free "B"
      (snd (EventStore.saveEvents (serial_env 1 5) "A"
              [stock_event "A" 7; stock_event "A" 8] 0 [])).
Proof.
  assert (Hempty : ∀ b,
            gap_free b ([] : list (EventStore.StoredEvent Inventory.InventoryEvent))).
  { intros b. reflexivity. }
  split; [exact Hempty|].
  destruct (saveEvents_keeps_streams_gap_free (serial_env 1 5) "A"
              [stock_event "A" 7; stock_event "A" 8] 0 [] Hempty) as (Hfree & _).
  split; apply Hfree.
Defined.


(** ** The Inventory aggregate: commands *)

Section InventoryCommands.
Import Inventory.

(** A command either throws before touching the object, or applies one
    event through [applyEvent], or two ([updateStock] with an alert). *)
Lemma issue_outcome c this :
  (isOk (fst (issue c this)) = false ∧ snd (issue c this) = this)
  ∨ (fst (issue c this) = Ok tt
     ∧ ∃ e1, snd (issue c this) = snd (applyEvent e1 this)
             ∨ ∃ e2, snd (issue c this)
                     = snd (applyEvent e2 (snd (applyEvent e1 this)))).
Proof.
  destruct c; cbn [issue].
  - right. unfold updateStock, checkStockAlerts. run_m.
    rewrite Inventory_applyEvent_run. cbn beta iota.
    match goal with
    | |- context [getAvailableStock ?s =? 0] => set (s1 := s)
    end.
    destruct (getAvailableStock s1 =? 0); cbn beta iota.
    + rewrite Inventory_applyEvent_run. split; [reflexivity|].
      eexists. right. eexists. rewrite !Inventory_applyEvent_run. reflexivity.
    + destruct (getAvailableStock s1 <=? lowStockThreshold s1); cbn beta iota.
      * rewrite Inventory_applyEvent_run. split; [reflexivity|].
        eexists. right. eexists. rewrite !Inventory_applyEvent_run. reflexivity.
      * split; [reflexivity|]. eexists. left.
        rewrite Inventory_applyEvent_run. reflexivity.
  - unfold reserveStock. run_m.
    destruct (quantity <=? 0); [left; split; reflexivity|].
    destruct (getAvailableStock this <? quantity); [left; split; reflexivity|].
    right. rewrite Inventory_applyEvent_run. split; [reflexivity|].
    eexists. left. rewrite Inventory_applyEvent_run. reflexivity.
  - unfold releaseStock. run_m.
    destruct (reservations this !! reservationId this orderId);
      [|left; split; reflexivity].
    right. rewrite Inventory_applyEvent_run. split; [reflexivity|].
    eexists. left. rewrite Inventory_applyEvent_run. reflexivity.
  - unfold allocateStock. run_m.
    destruct (reservations this !! reservationId this orderId) as [r|];
      [|left; split; reflexivity].
    destruct (StockReservation.quantity r <? quantity); [left; split; reflexivity|].
    right. rewrite Inventory_applyEvent_run. split; [reflexivity|].
    eexists. left. rewrite Inventory_applyEvent_run. reflexivity.
  - unfold updateLowStockThreshold. run_m.
    destruct (newThreshold <? 0); [left; split; reflexivity|].
    right. rewrite Inventory_applyEvent_run. split; [reflexivity|].
    eexists. left. rewrite Inventory_applyEvent_run. reflexivity.
Qed.

Lemma updateStock_never_throws this newStock changeReason now changeType :
  fst (updateStock newStock changeReason changeType now this) = Ok tt.
Proof.
  unfold updateStock, checkStockAlerts. run_m.
  rewrite Inventory_applyEvent_run. cbn beta iota.
  match goal with
  | |- context [getAvailableStock ?s =? 0] => set (s1 := s)
  end.
  destruct (getAvailableStock s1 =? 0); cbn beta iota;
    [rewrite Inventory_applyEvent_run; reflexivity|].
  destruct (getAvailableStock s1 <=? lowStockThreshold s1); cbn beta iota;
    [rewrite Inventory_applyEvent_run; reflexivity|reflexivity].
Qed.

(** X6. Which commands the inventory accepts: [updateStock] always;
    [reserveStock] when the quantity is positive and at most the available
    stock; [releaseStock] when the order has a reservation; [allocateStock]
    when the order has a reservation of at least the quantity;
    [updateLowStockThreshold] when the threshold is not negative.  A
    rejected command leaves the inventory exactly as it was: no event, no
    version change. *)
Theorem inventory_command_acceptance this :
  (∀ newStock changeReason changeType now,
     fst (updateStock newStock changeReason changeType now this) = Ok tt)
  ∧ (∀ orderId quantity expiresAt now,
       fst (reserveStock orderId quantity expiresAt now this) = Ok tt
       ↔ 0 < quantity ≤ getAvailableStock this)
  ∧ (∀ orderId reason now,
       fst (releaseStock orderId reason now this) = Ok tt
       ↔ is_Some (getReservation orderId this))
  ∧ (∀ orderId quantity now,
       fst (allocateStock orderId quantity now this) = Ok tt
       ↔ ∃ r, getReservation orderId this = Some r
              ∧ quantity ≤ StockReservation.quantity r)
  ∧ (∀ newThreshold now,
       fst (updateLowStockThreshold newThreshold now this) = Ok tt
       ↔ 0 ≤ newThreshold)
  ∧ (∀ c, fst (issue c this) ≠ Ok tt → snd (issue c this) = this).
Proof.
  split; [|split; [|split; [|split; [|split]]]].
  - intros. apply updateStock_never_throws.
  - intros. unfold reserveStock. run_m.
    destruct (quantity <=? 0) eqn:E1; [split; [discriminate|lia]|].
    destruct (getAvailableStock this <? quantity) eqn:E2; [split; [discriminate|lia]|].
    rewrite Inventory_applyEvent_run. split; [lia|reflexivity].
  - intros. unfold releaseStock, getReservation. run_m.
    destruct (reservations this !! reservationId this orderId) eqn:E.
    + rewrite Inventory_applyEvent_run. split; [eauto|reflexivity].
    + split; [discriminate|]. intros [? ?]. discriminate.
  - intros. unfold allocateStock, getReservation. run_m.
    destruct (reservations this !! reservationId this orderId) as [r|] eqn:E.
    + destruct (StockReservation.quantity r <? quantity) eqn:E1.
      * split; [discriminate|]. intros (r' & [= <-] & Hle). lia.
      * rewrite Inventory_applyEvent_run. split; [|reflexivity]. intros _. exists r.
        split; [reflexivity|lia].
    + split; [discriminate|]. intros (r' & ? & _). discriminate.
  - intros. unfold updateLowStockThreshold. run_m.
    destruct (newThreshold <? 0) eqn:E1; [split; [discriminate|lia]|].
    rewrite Inventory_applyEvent_run. split; [lia|reflexivity].
  - intros c Hno. destruct (issue_outcome c this) as [[_ Hsame]|[Hok _]];
      [exact Hsame|contradiction].
Qed.

(** X7. An accepted reservation lowers the available stock by exactly its
    quantity and raises the reserved stock by it; the current stock is
    untouched, the order's reservation is the new one (unallocated), and
    one [StockReserved] event is appended. *)
Theorem accepted_reservation_effect this orderId quantity expiresAt now :
  fst (reserveStock orderId quantity expiresAt now this) = Ok tt →
  let this' := snd (reserveStock orderId quantity expiresAt now this) in
  getAvailableStock this' = getAvailableStock this - quantity
  ∧ getReservedStock this' = getReservedStock this + quantity
  ∧ getCurrentStock this' = getCurrentStock this
  ∧ getReservation orderId this'
    = Some (StockReservation.mk (reservationId this orderId) orderId quantity now
              expiresAt false)
  ∧ getVersion this' = getVersion this + 1
  ∧ getUncommittedEvents this'
    = getUncommittedEvents this
      ++ [newEvent (id this)
            (StockReserved (productId this) orderId quantity now expiresAt) now].
Proof.
  intros Hok. cbv zeta.
  assert (Hrun : reserveStock orderId quantity expiresAt now this
                 = (Ok tt, snd (reserveStock orderId quantity expiresAt now this))).
  { rewrite <- Hok. apply surjective_pairing. }
  destruct (reserveStock_Ok_inv _ _ _ _ _ _ Hrun) as [Hq Hav].
  rewrite reserveStock_accepted by done. cbn [snd].
  unfold getAvailableStock, getReservedStock, getCurrentStock, getReservation,
    getVersion, getUncommittedEvents in *.
  simpl. repeat split; try reflexivity; [lia|].
  apply lookup_insert_eq.
Qed.

(** What an accepted [releaseStock] does. *)
Lemma releaseStock_accepted orderId reason now this r :
  reservations this !! reservationId this orderId = Some r →
  releaseStock orderId reason now this =
    (Ok tt,
     set_uncommittedEvents
       (uncommittedEvents this
        ++ [newEvent (id this)
              (StockReleased (productId this) orderId (StockReservation.quantity r)
                 now reason) now])
       (set_version (version this + 1)
          (set_updatedAt now
             (set_reservations (delete (reservationId this orderId) (reservations this))
                (set_reservedStock (reservedStock this - StockReservation.quantity r)
                   this))))).
Proof.
  intros Hr. unfold releaseStock. run_m. rewrite Hr.
  rewrite Inventory_applyEvent_run. unfold apply, applyStockReleased. simpl.
  by rewrite Hr.
Qed.

(** X8. Reserving and releasing is a round trip.  For an order without a
    reservation, an accepted [reserveStock] followed by [releaseStock] for
    that order is accepted too and restores the reservations, the reserved
    stock and the available stock; the two commands leave two events and
    two versions behind, the release reporting the reserved quantity. *)
Theorem reserve_then_release_restores this orderId quantity expiresAt now reason now' :
  getReservation orderId this = None →
  fst (reserveStock orderId quantity expiresAt now this) = Ok tt →
  let reserved := snd (reserveStock orderId quantity expiresAt now this) in
  let released := snd (releaseStock orderId reason now' reserved) in
  fst (releaseStock orderId reason now' reserved) = Ok tt
  ∧ reservations released = reservations this
  ∧ getReservedStock released = getReservedStock this
  ∧ getCurrentStock released = getCurrentStock this
  ∧ getAvailableStock released = getAvailableStock this
  ∧ getVersion released = getVersion this + 2
  ∧ getUncommittedEvents released
    = getUncommittedEvents this
      ++ [newEvent (id this)
            (StockReserved (productId this) orderId quantity now expiresAt) now;
          newEvent (id this)
            (StockReleased (productId this) orderId quantity now' reason) now'].
Proof.
  intros Hfresh Hok. cbv zeta.
  assert (Hrun : reserveStock orderId quantity expiresAt now this
                 = (Ok tt, snd (reserveStock orderId quantity expiresAt now this))).
  { rewrite <- Hok. apply surjective_pairing. }
  destruct (reserveStock_Ok_inv _ _ _ _ _ _ Hrun) as [Hq Hav].
  rewrite reserveStock_accepted by done. cbn [snd].
  erewrite releaseStock_accepted; [|apply lookup_insert_eq].
  unfold getAvailableStock, getReservedStock, getCurrentStock, getReservation,
    getVersion, getUncommittedEvents in *.
  simpl. repeat split; try reflexivity.
  - unfold reservationId. simpl. by apply delete_insert_id.
  - lia.
  - f_equal. lia.
  - lia.
  - by rewrite <- app_assoc.
Qed.

(** X9. [allocateStock] takes the quantity out of the current stock and out
    of the reserved stock alike, so the available stock does not move; the
    reservation stays in the map, flagged allocated, with its quantity
    unchanged.  The command tests only that the quantity does not exceed
    the reserved one: it accepts an already allocated reservation and a
    zero or negative quantity as well. *)
Theorem accepted_allocation_effect this orderId quantity now r :
  getReservation orderId this = Some r →
  quantity ≤ StockReservation.quantity r →
  let this' := snd (allocateStock orderId quantity now this) in
  fst (allocateStock orderId quantity now this) = Ok tt
  ∧ getCurrentStock this' = getCurrentStock this - quantity
  ∧ getReservedStock this' = getReservedStock this - quantity
  ∧ getAvailableStock this' = getAvailableStock this
  ∧ getReservation orderId this'
    = Some (StockReservation.mk (StockReservation.id r) (StockReservation.orderId r)
              (StockReservation.quantity r) (StockReservation.reservedAt r)
              (StockReservation.expiresAt r) true)
  ∧ getVersion this' = getVersion this + 1.
Proof.
  intros Hr Hq. cbv zeta. unfold getReservation in Hr.
  unfold allocateStock. run_m. rewrite Hr.
  destruct (StockReservation.quantity r <? quantity) eqn:E; [lia|].
  rewrite Inventory_applyEvent_run. unfold apply, applyStockAllocated. simpl.
  rewrite Hr.
  unfold getAvailableStock, getReservedStock, getCurrentStock, getReservation,
    getVersion.
  simpl. repeat split; try reflexivity; [lia|].
  apply lookup_insert_eq.
Qed.

(** X10. [updateStock] appends the [StockUpdated] event and then, exactly
    when the stock it leaves is out ([isOutOfStock]) or low ([isLowStock]),
    the matching alert: the version goes up by two in that case and by one
    otherwise.  The alert changes nothing of the stock figures. *)
Theorem updateStock_events this newStock changeReason changeType now :
  let this' := snd (updateStock newStock changeReason changeType now this) in
  let updated :=
    newEvent (id this)
      (StockUpdated (productId this) (currentStock this) (currentStock this')
         changeReason changeType) now in
  getReservedStock this' = getReservedStock this
  ∧ getUncommittedEvents this'
    = getUncommittedEvents this
      ++ updated
         :: (if isOutOfStock this'
             then [newEvent (id this) (OutOfStockAlert (productId this) now) now]
             else if isLowStock this'
                  then [newEvent (id this)
                          (LowStockAlert (productId this) (getAvailableStock this')
                             (lowStockThreshold this) now) now]
                  else [])
  ∧ getVersion this'
    = getVersion this + (if isOutOfStock this' || isLowStock this' then 2 else 1).
Proof.
  cbv zeta. unfold updateStock, checkStockAlerts. run_m.
  rewrite Inventory_applyEvent_run. cbn beta iota.
  match goal with
  | |- context [getAvailableStock ?s =? 0] => set (s1 := s)
  end.
  assert (Hav : ∀ now', getAvailableStock (set_updatedAt now' s1) = getAvailableStock s1)
    by reflexivity.
  unfold isOutOfStock, isLowStock, getReservedStock, getUncommittedEvents, getVersion.
  destruct (getAvailableStock s1 =? 0) eqn:E0; cbn beta iota.
  - rewrite Inventory_applyEvent_run. cbn [snd].
    unfold apply. cbn [data newEvent applyOutOfStockAlert].
    change (Shared.timestamp (metadata (mkEvent (id s1) (OutOfStockAlert (productId s1) now)
                                          (mkEventMetadata now 1)))) with now.
    unfold applyOutOfStockAlert.
    replace (getAvailableStock _ =? 0) with true by (symmetry; exact E0).
    cbn [orb]. subst s1. unfold apply, applyStockUpdated. simpl.
    repeat split; try reflexivity.
    + by rewrite <- app_assoc.
    + lia.
  - destruct (getAvailableStock s1 <=? lowStockThreshold s1) eqn:E1; cbn beta iota.
    + rewrite Inventory_applyEvent_run. cbn [snd].
      unfold apply. cbn [data newEvent]. unfold applyLowStockAlert.
      cbn [metadata Shared.timestamp].
      replace (getAvailableStock _ =? 0) with false by (symmetry; exact E0).
      replace (getAvailableStock (set_uncommittedEvents _ (set_version _ (set_updatedAt now s1)))
               <=? lowStockThreshold _) with true by (symmetry; exact E1).
      assert (H0 : (0 <? getAvailableStock s1) = true).
      { apply Z.ltb_lt. apply Z.eqb_neq in E0. unfold getAvailableStock in *. lia. }
      replace (0 <? getAvailableStock _) with true by (symmetry; exact H0).
      cbn [orb andb]. subst s1. unfold apply, applyStockUpdated. simpl.
      repeat split; try reflexivity.
      * by rewrite <- app_assoc.
      * lia.
    + cbn [snd]. rewrite E0, E1. cbn [orb andb].
      subst s1. unfold apply, applyStockUpdated. simpl.
      repeat split; reflexivity.
Qed.

(** *** Replay *)

Lemma Inventory_apply_id event this : id (apply event this) = id this.
Proof.
  unfold apply. destruct (data event); try by destruct this.
  - unfold applyStockReleased. by destruct (reservations this !! _).
  - unfold applyStockAllocated. by destruct (reservations this !! _).
Qed.

(** An object that is the replay of its uncommitted events stays so when
    one more event is applied through [applyEvent]. *)
Lemma replay_applyEvent event this :
  (∀ now0, fromEvents (id this) (uncommittedEvents this) now0 = Ok this) →
  ∀ now0,
    fromEvents (id (snd (applyEvent event this)))
      (uncommittedEvents (snd (applyEvent event this))) now0
    = Ok (snd (applyEvent event this)).
Proof.
  intros Hreplay now0. specialize (Hreplay now0).
  rewrite Inventory_fromEvents_spec in Hreplay. injection Hreplay as Hthis.
  rewrite Inventory_applyEvent_run. cbn [snd].
  assert (Hid : id (set_uncommittedEvents (uncommittedEvents this ++ [event])
                      (set_version (version this + 1) (apply event this)))
                = id this) by apply Inventory_apply_id.
  rewrite Hid. cbn [uncommittedEvents set_uncommittedEvents].
  rewrite Inventory_fromEvents_spec, fold_left_app. cbn [fold_left].
  f_equal.
  set (F := fold_left (λ s e, apply e s) (uncommittedEvents this) (new (id this) now0))
    in *.
  assert (Happly : apply event this
                   = set_uncommittedEvents (uncommittedEvents this)
                       (set_version (Z.of_nat (length (uncommittedEvents this)))
                          (apply event F))).
  { transitivity (apply event
                    (set_uncommittedEvents (uncommittedEvents this)
                       (set_version (Z.of_nat (length (uncommittedEvents this))) F)));
      [by f_equal|].
    by rewrite Inventory_apply_set_uncommittedEvents, Inventory_apply_set_version. }
  assert (Hversion : version this = Z.of_nat (length (uncommittedEvents this))).
  { transitivity (version
                    (set_uncommittedEvents (uncommittedEvents this)
                       (set_version (Z.of_nat (length (uncommittedEvents this))) F)));
      [by f_equal|reflexivity]. }
  rewrite Happly, Hversion, length_app, Nat2Z.inj_add.
  destruct (apply event F). reflexivity.
Qed.

Lemma replay_created id0 productId0 sku0 initialStock threshold now now0 :
  let created :=
    snd (applyEvent
           (newEvent id0 (InventoryItemCreated productId0 sku0 initialStock threshold 0)
              now) (new id0 now)) in
  fromEvents (id created) (uncommittedEvents created) now0 = Ok created.
Proof. reflexivity. Qed.

(** What every event applied through [applyEvent] preserves. *)
Lemma applyEvent_invariant id0 e s :
  (id s = id0
   ∧ (1 ≤ length (uncommittedEvents s))%nat
   ∧ reservations_keyed s = true
   ∧ ∀ now0, fromEvents (id s) (uncommittedEvents s) now0 = Ok s) →
  id (snd (applyEvent e s)) = id0
  ∧ (1 ≤ length (uncommittedEvents (snd (applyEvent e s))))%nat
  ∧ reservations_keyed (snd (applyEvent e s)) = true
  ∧ ∀ now0, fromEvents (id (snd (applyEvent e s)))
              (uncommittedEvents (snd (applyEvent e s))) now0
            = Ok (snd (applyEvent e s)).
Proof.
  intros (Hid & Hlen & Hkeyed & Hreplay). split; [|split; [|split]].
  - rewrite Inventory_applyEvent_run. cbn [snd].
    etransitivity; [apply (Inventory_apply_id e s)|exact Hid].
  - rewrite Inventory_applyEvent_run. cbn [snd uncommittedEvents set_uncommittedEvents].
    rewrite length_app. lia.
  - by apply reservations_keyed_applyEvent.
  - by apply replay_applyEvent.
Qed.

Lemma after_commands_invariant id0 cs : ∀ this,
  (id this = id0
   ∧ (1 ≤ length (uncommittedEvents this))%nat
   ∧ reservations_keyed this = true
   ∧ ∀ now0, fromEvents (id this) (uncommittedEvents this) now0 = Ok this) →
  id (after_commands cs this) = id0
  ∧ (1 ≤ length (uncommittedEvents (after_commands cs this)))%nat
  ∧ reservations_keyed (after_commands cs this) = true
  ∧ ∀ now0, fromEvents (id (after_commands cs this))
              (uncommittedEvents (after_commands cs this)) now0
            = Ok (after_commands cs this).
Proof.
  induction cs as [|c cs IH]; intros this Hthis; [exact Hthis|].
  cbn [after_commands fold_left]. apply IH.
  destruct (issue_outcome c this) as [[_ ->]|[_ [e1 [->|[e2 ->]]]]].
  - exact Hthis.
  - by apply applyEvent_invariant.
  - by apply applyEvent_invariant, applyEvent_invariant.
Qed.

Lemma replay_version this :
  (∀ now0, fromEvents (id this) (uncommittedEvents this) now0 = Ok this) →
  version this = Z.of_nat (length (uncommittedEvents this)).
Proof.
  intros Hreplay. specialize (Hreplay 0).
  rewrite Inventory_fromEvents_spec in Hreplay. injection Hreplay as Hthis.
  transitivity (version
                  (set_uncommittedEvents (uncommittedEvents this)
                     (set_version (Z.of_nat (length (uncommittedEvents this)))
                        (fold_left (λ s e, apply e s) (uncommittedEvents this)
                           (new (id this) 0)))));
    [by f_equal|reflexivity].
Qed.

Lemma created_invariant id0 productId0 sku0 initialStock threshold now cs :
  let this :=
    after_commands cs
      (set_uncommittedEvents
         ([] ++ [newEvent id0
                   (InventoryItemCreated productId0 sku0 initialStock threshold 0) now])
         (set_version (0 + 1)
            (apply
               (newEvent id0
                  (InventoryItemCreated productId0 sku0 initialStock threshold 0) now)
               (new id0 now)))) in
  id this = id0
  ∧ (1 ≤ length (uncommittedEvents this))%nat
  ∧ reservations_keyed this = true
  ∧ ∀ now0, fromEvents (id this) (uncommittedEvents this) now0 = Ok this.
Proof.
  cbv zeta. apply after_commands_invariant.
  split; [reflexivity|]. split; [simpl; lia|]. split; [reflexivity|].
  intros now0. reflexivity.
Qed.

(** X11. An inventory is the replay of its events.  Whatever commands a
    caller issues on a created inventory (rejected ones included), the
    object keeps its id, its version is the number of its uncommitted
    events, every reservation sits under the key of its own order, and
    [fromEvents] on its uncommitted events rebuilds exactly the same
    object, at any later instant. *)
Theorem inventory_is_replay_of_its_events id0 productId0 sku0 initialStock threshold
    now cs :
  accepted (create id0 productId0 sku0 initialStock threshold now) (λ created,
    let this := after_commands cs created in
    getId this = id0
    ∧ getVersion this = Z.of_nat (length (getUncommittedEvents this))
    ∧ (1 ≤ length (getUncommittedEvents this))%nat
    ∧ reservations_keyed this = true
    ∧ ∀ now0, fromEvents id0 (getUncommittedEvents this) now0 = Ok this).
Proof.
  unfold create, construct. rewrite Inventory_applyEvent_run. cbn [accepted].
  cbn [version uncommittedEvents new].
  destruct (created_invariant id0 productId0 sku0 initialStock threshold now cs)
    as (Hid & Hlen & Hkeyed & Hreplay).
  cbv zeta. unfold getId, getVersion, getUncommittedEvents.
  split; [exact Hid|]. split; [|split; [exact Hlen|split; [exact Hkeyed|]]].
  - by apply replay_version.
  - intros now0. rewrite <- Hid at 1. apply Hreplay.
Qed.

End InventoryCommands.

(** ** Saving an inventory *)

Section InventoryPersistence.
Import Inventory.

Lemma stream_empty_gap_free {D} a (table : list (EventStore.StoredEvent D)) :
  stream a table = [] → gap_free a table.
Proof. unfold gap_free. by intros ->. Qed.

Lemma stream_empty_current_version {D} a (table : list (EventStore.StoredEvent D)) :
  stream a table = [] → EventStore.current_version a table = 0.
Proof. unfold stream, EventStore.current_version. by intros ->. Qed.

(** Every command moves the version and the list of uncommitted events
    together, and keeps the id. *)
Lemma applyEvent_keeps_step e s :
  id (snd (applyEvent e s)) = id s
  ∧ version (snd (applyEvent e s))
    - Z.of_nat (length (uncommittedEvents (snd (applyEvent e s))))
    = version s - Z.of_nat (length (uncommittedEvents s)).
Proof.
  rewrite Inventory_applyEvent_run. cbn [snd]. split.
  - apply (Inventory_apply_id e s).
  - cbn [version uncommittedEvents set_uncommittedEvents set_version].
    rewrite length_app. simpl. lia.
Qed.

Lemma issue_keeps_step c s :
  id (snd (issue c s)) = id s
  ∧ version (snd (issue c s))
    - Z.of_nat (length (uncommittedEvents (snd (issue c s))))
    = version s - Z.of_nat (length (uncommittedEvents s)).
Proof.
  destruct (issue_outcome c s) as [[_ ->]|[_ [e1 [->|[e2 ->]]]]].
  - done.
  - apply applyEvent_keeps_step.
  - destruct (applyEvent_keeps_step e2 (snd (applyEvent e1 s))) as [-> ->].
    apply applyEvent_keeps_step.
Qed.

Lemma after_commands_keeps_step cs : ∀ s,
  id (after_commands cs s) = id s
  ∧ version (after_commands cs s)
    - Z.of_nat (length (uncommittedEvents (after_commands cs s)))
    = version s - Z.of_nat (length (uncommittedEvents s)).
Proof.
  induction cs as [|c cs IH]; intros s; [done|].
  cbn [after_commands fold_left].
  destruct (IH (snd (issue c s))) as [Hid Hv].
  destruct (issue_keeps_step c s) as [Hid' Hv'].
  unfold after_commands in *. split; congruence.
Qed.

Lemma after_commands_in_step cs this table :
  in_step this table → in_step (after_commands cs this) table.
Proof.
  unfold in_step, getId, getVersion, getUncommittedEvents. intros [Hfree Hlen].
  destruct (after_commands_keeps_step cs this) as [-> ->]. done.
Qed.

Lemma in_step_save env this table :
  in_step this table →
  (∀ n, EventStore.query_fails env n = false) →
  getUncommittedEvents this ≠ [] →
  InventoryRepository.save env (this, table)
  = (Ok tt,
     (this,
      table ++ batch_rows env (getId this)
                 (getVersion this - Z.of_nat (length (getUncommittedEvents this))) 0
                 (getUncommittedEvents this))).
Proof.
  intros [Hfree Hlen] Hq Hne. rewrite InventoryRepository_save_run by done.
  cbv zeta. rewrite saveEvents_accepted; [done| |done].
  rewrite gap_free_current_version by done. exact Hlen.
Qed.

(** X12. The first save of a new inventory.  Whatever commands were
    issued on a created inventory, saving it into a store that holds no
    event of its id succeeds when the database rejects no query: the table
    grows by one row per uncommitted event, with versions 1, 2, ..., n,
    and [getEvents] then returns exactly these rows, in that order. *)
Theorem created_inventory_first_save env id0 productId0 sku0 initialStock threshold
    now cs table :
  (∀ n, EventStore.query_fails env n = false) →
  stream id0 table = [] →
  accepted (create id0 productId0 sku0 initialStock threshold now) (λ created,
    let this := after_commands cs created in
    let rows := batch_rows env id0 0 0 (getUncommittedEvents this) in
    InventoryRepository.save env (this, table) = (Ok tt, (this, table ++ rows))
    ∧ List.map EventStore.version rows
      = List.map Z.of_nat (seq 1 (length (getUncommittedEvents this)))
    ∧ List.map EventStore.eventData rows = List.map data (getUncommittedEvents this)
    ∧ EventStore.getEvents id0 0 (table ++ rows) = rows).
Proof.
  intros Hq Hempty. unfold create, construct. rewrite Inventory_applyEvent_run.
  cbn [accepted]. cbn [version uncommittedEvents new].
  destruct (created_invariant id0 productId0 sku0 initialStock threshold now cs)
    as (Hid & Hlen & _ & Hreplay).
  apply replay_version in Hreplay. cbv zeta in *.
  match goal with
  | |- context [after_commands cs ?s] => set (this := after_commands cs s) in *
  end.
  assert (Hstep : in_step this table).
  { unfold in_step, getId, getVersion, getUncommittedEvents.
    rewrite Hid, Hempty, Hreplay. split; [by apply stream_empty_gap_free|].
    simpl. lia. }
  assert (Hne : getUncommittedEvents this ≠ []).
  { unfold getUncommittedEvents. destruct (uncommittedEvents this); [simpl in Hlen; lia|done]. }
  split; [|split; [|split]].
  - rewrite (in_step_save env this table Hstep Hq Hne).
    unfold getId, getVersion, getUncommittedEvents. rewrite Hid, Hreplay.
    by rewrite Z.sub_diag.
  - rewrite batch_rows_versions.
    rewrite (map_ext _ Z.of_nat) by (intros; lia). done.
  - apply batch_rows_eventData.
  - pose proof (gap_free_after_batch env id0 (getUncommittedEvents this) table
                  (stream_empty_gap_free _ _ Hempty)) as Hfree.
    rewrite Hempty in Hfree. simpl in Hfree.
    rewrite getEvents_gap_free by done.
    rewrite stream_app, Hempty, stream_batch_rows_same. done.
Qed.

(** X13. Saving keeps the aggregate and the store in step.  When the
    store holds exactly the committed events of an inventory, it still
    does after any commands; a save with uncommitted events then succeeds
    if the database rejects no query, and once the events are marked
    committed aggregate and store are in step again, so the next round of
    commands can be saved as well. *)
Theorem inventory_save_cycle env this table cs :
  in_step this table →
  (∀ n, EventStore.query_fails env n = false) →
  getUncommittedEvents (after_commands cs this) ≠ [] →
  let this1 := after_commands cs this in
  let out := InventoryRepository.save env (this1, table) in
  in_step this1 table
  ∧ fst out = Ok tt
  ∧ fst (snd out) = this1
  ∧ stream (getId this) (snd (snd out))
    = stream (getId this) table
      ++ batch_rows env (getId this) (Z.of_nat (length (stream (getId this) table))) 0
           (getUncommittedEvents this1)
  ∧ in_step (snd (markEventsAsCommitted this1)) (snd (snd out)).
Proof.
  intros Hstep Hq Hne. cbv zeta.
  pose proof (after_commands_in_step cs this table Hstep) as Hstep1.
  rewrite (in_step_save env _ table Hstep1 Hq Hne). cbn [fst snd].
  destruct (after_commands_keeps_step cs this) as [Hid Hv].
  destruct Hstep1 as [Hfree Hlen].
  unfold getId, getVersion, getUncommittedEvents in *. rewrite Hid in *.
  rewrite <- Hlen.
  split; [by apply after_commands_in_step|]. split; [done|]. split; [done|].
  split; [by rewrite stream_app, stream_batch_rows_same|].
  unfold in_step, markEventsAsCommitted, getId, getVersion, getUncommittedEvents.
  run_m. cbn [snd id version uncommittedEvents set_uncommittedEvents]. rewrite Hid.
  split; [by apply gap_free_after_batch|].
  rewrite stream_app, stream_batch_rows_same, length_app, batch_rows_length.
  simpl. lia.
Qed.

(** X14. Saving again.  A second [save] of an inventory whose events were
    not marked committed after an accepted first save is refused with a
    concurrency conflict and changes nothing; once the events are marked
    committed, [save] returns at once, without a query. *)
Theorem inventory_save_again env1 env2 this table :
  getUncommittedEvents this ≠ [] →
  fst (InventoryRepository.save env1 (this, table)) = Ok tt →
  let st1 := snd (InventoryRepository.save env1 (this, table)) in
  let expected := getVersion this - Z.of_nat (length (getUncommittedEvents this)) in
  isOk (fst (InventoryRepository.save env2 st1)) = false
  ∧ snd (InventoryRepository.save env2 st1) = st1
  ∧ (EventStore.query_fails env2 0 = false → EventStore.query_fails env2 1 = false →
     fst (InventoryRepository.save env2 st1)
     = Throw (ConcurrencyConflict expected (getVersion this)))
  ∧ InventoryRepository.save env2 (snd (markEventsAsCommitted (fst st1)), snd st1)
    = (Ok tt, (snd (markEventsAsCommitted (fst st1)), snd st1)).
Proof.
  intros Hne Hok. cbv zeta. rewrite InventoryRepository_save_run in * by done.
  cbv zeta in *. cbn [fst snd] in *.
  rewrite InventoryRepository_save_run by done. cbv zeta. cbn [fst snd].
  destruct (stale_version_conflicts env1 env2 (getId this)
              (getUncommittedEvents this) (getUncommittedEvents this) _ table Hne Hok)
    as (Hfail & Hsame & Herr).
  split; [done|]. split; [by rewrite Hsame|]. split.
  - intros Q0 Q1. rewrite Herr by done. do 2 f_equal. lia.
  - reflexivity.
Qed.

End InventoryPersistence.

(** ** Saving a product *)

Lemma saveEvents_stale_version {D} `{EventClass D} env a (events : list (Event D)) ev
    (table : list (EventStore.StoredEvent D)) :
  EventStore.current_version a table ≠ ev →
  EventStore.query_fails env 0 = false → EventStore.query_fails env 1 = false →
  EventStore.saveEvents env a events ev table
  = (Throw (ConcurrencyConflict ev (EventStore.current_version a table)), table).
Proof.
  intros Hstale Q0 Q1.
  destruct (saveEvents_conflict env a events ev table Hstale) as [Hfail Herr].
  rewrite (surjective_pairing (EventStore.saveEvents env a events ev table)).
  rewrite Herr by done. f_equal. by apply saveEvents_Throw_table.
Qed.

(** X15. The product repository cannot save a product that is in step
    with the store.  When the store holds exactly the committed events of
    the product and the product has uncommitted events, [save] presents
    the product's full version as expected version although the store is
    at the version less the uncommitted events: the call is refused with
    a concurrency conflict, nothing is stored and the events stay
    uncommitted. *)
Theorem product_save_conflicts env product table :
  product_in_step product table →
  Product.getUncommittedEvents product ≠ [] →
  EventStore.query_fails env 0 = false → EventStore.query_fails env 1 = false →
  ProductRepository.save env (product, table)
  = (Throw (ConcurrencyConflict (Product.getVersion product)
              (Product.getVersion product
               - Z.of_nat (length (Product.getUncommittedEvents product)))),
     (product, table)).
Proof.
  intros [Hfree Hlen] Hne Q0 Q1. rewrite ProductRepository_save_run by done.
  cbv zeta. rewrite saveEvents_stale_version; [|..|done|done].
  - cbn [fst snd]. rewrite gap_free_current_version by done. by rewrite Hlen.
  - rewrite gap_free_current_version by done. rewrite Hlen.
    destruct (Product.getUncommittedEvents product); [done|]. simpl. lia.
Qed.


(** ** The Payment aggregate *)

Section PaymentCommands.
Import Payment.

(** A command either throws before touching the object or applies one
    event through [applyEvent]. *)
Lemma issue_payment_outcome c this :
  (isOk (fst (issue_payment c this)) = false ∧ snd (issue_payment c this) = this)
  ∨ (fst (issue_payment c this) = Ok tt
     ∧ ∃ e, snd (issue_payment c this) = snd (applyEvent e this)
            ∧ status (apply e this) = status_after c
            ∧ aggregateId e = id this).
Proof.
  destruct c; cbn [issue_payment status_after].
  - unfold processPayment. run_m.
    destruct (status this) eqn:Hs; try (left; split; reflexivity).
    right. rewrite Payment_applyEvent_run. split; [reflexivity|].
    eexists. rewrite Payment_applyEvent_run. split; [reflexivity|]. split; reflexivity.
  - unfold markAsFailed. run_m.
    destruct (status this) eqn:Hs; try (left; split; reflexivity).
    + right. rewrite Payment_applyEvent_run. split; [reflexivity|].
      eexists. rewrite Payment_applyEvent_run. split; [reflexivity|]. split; reflexivity.
    + right. rewrite Payment_applyEvent_run. split; [reflexivity|].
      eexists. rewrite Payment_applyEvent_run. split; [reflexivity|]. split; reflexivity.
  - unfold refund. run_m.
    destruct (status this) eqn:Hs; try (left; split; reflexivity).
    destruct (amount this <? refundAmount0); [left; split; reflexivity|].
    right. rewrite Payment_applyEvent_run. split; [reflexivity|].
    eexists. rewrite Payment_applyEvent_run. split; [reflexivity|]. split; reflexivity.
  - unfold cancel. run_m.
    destruct (status this) eqn:Hs; try (left; split; reflexivity).
    right. rewrite Payment_applyEvent_run. split; [reflexivity|].
    eexists. rewrite Payment_applyEvent_run. split; [reflexivity|]. split; reflexivity.
Qed.

(** X16. Which commands a payment accepts, by status: [processPayment]
    and [cancel] only when pending, [markAsFailed] when pending or
    processing, [refund] only when completed and for an amount not above
    the payment's (zero and negative amounts included).  A rejected
    command leaves the payment exactly as it was; an accepted one appends
    one event, raises the version by one and leaves the status completed,
    failed, refunded or cancelled. *)
Theorem payment_command_acceptance this :
  (∀ transactionId0 gatewayResponse0 now,
     fst (processPayment transactionId0 gatewayResponse0 now this) = Ok tt
     ↔ status this = pending)
  ∧ (∀ failureReason0 errorCode0 gatewayResponse0 now,
       fst (markAsFailed failureReason0 errorCode0 gatewayResponse0 now this) = Ok tt
       ↔ status this = pending ∨ status this = processing)
  ∧ (∀ refundId0 refundAmount0 refundReason0 refundMethod0 gatewayResponse0 now,
       fst (refund refundId0 refundAmount0 refundReason0 refundMethod0
              gatewayResponse0 now this) = Ok tt
       ↔ status this = completed ∧ refundAmount0 ≤ amount this)
  ∧ (∀ cancelledBy reason now,
       fst (cancel cancelledBy reason now this) = Ok tt ↔ status this = pending)
  ∧ (∀ c, fst (issue_payment c this) ≠ Ok tt → snd (issue_payment c this) = this)
  ∧ (∀ c, fst (issue_payment c this) = Ok tt →
       getStatus (snd (issue_payment c this)) = status_after c
       ∧ getVersion (snd (issue_payment c this)) = getVersion this + 1
       ∧ ∃ e, getUncommittedEvents (snd (issue_payment c this))
              = getUncommittedEvents this ++ [e]).
Proof.
  split; [|split; [|split; [|split; [|split]]]].
  - intros. unfold processPayment. run_m.
    destruct (status this); rewrite ?Payment_applyEvent_run; cbn [fst];
      split; intros Hx; (reflexivity || discriminate).
  - intros. unfold markAsFailed. run_m.
    destruct (status this); rewrite ?Payment_applyEvent_run; cbn [fst];
      split; intros Hx;
      try reflexivity; try discriminate;
      try (by left); try (by right); by destruct Hx.
  - intros. unfold refund. run_m.
    destruct (status this); try (cbn [fst]; split; [discriminate|by intros [? _]]).
    destruct (amount this <? refundAmount0) eqn:Hlt.
    + apply Z.ltb_lt in Hlt. cbn [fst]. split; [discriminate|]. intros [_ Hle]. lia.
    + apply Z.ltb_ge in Hlt. rewrite Payment_applyEvent_run. cbn [fst]. done.
  - intros. unfold cancel. run_m.
    destruct (status this); rewrite ?Payment_applyEvent_run; cbn [fst];
      split; intros Hx; (reflexivity || discriminate).
  - intros c Hc. destruct (issue_payment_outcome c this) as [[_ Hsame]|[Hok _]]; done.
  - intros c Hc. destruct (issue_payment_outcome c this) as [[Hfail _]|[_ (e & -> & Hst & _)]].
    + by rewrite Hc in Hfail.
    + rewrite Payment_applyEvent_run. cbn [snd].
      unfold getStatus, getVersion, getUncommittedEvents.
      split; [exact Hst|]. split; [reflexivity|]. by exists e.
Qed.

Lemma Payment_apply_id event this : id (apply event this) = id this.
Proof. unfold apply. by destruct (data event). Qed.

(** A payment that is the replay of its uncommitted events stays so when
    one more event is applied through [applyEvent]. *)
Lemma Payment_replay_applyEvent event this :
  (∀ now0, fromEvents (id this) (uncommittedEvents this) now0 = Ok this) →
  ∀ now0,
    fromEvents (id this) (uncommittedEvents (snd (applyEvent event this))) now0
    = Ok (snd (applyEvent event this)).
Proof.
  intros Hreplay now0. specialize (Hreplay now0).
  rewrite Payment_fromEvents_spec in Hreplay. injection Hreplay as Hthis.
  rewrite Payment_applyEvent_run. cbn [snd].
  cbn [uncommittedEvents set_uncommittedEvents].
  rewrite Payment_fromEvents_spec, fold_left_app. cbn [fold_left].
  f_equal.
  set (F := fold_left (λ s e, apply e s) (uncommittedEvents this) (new (id this) now0))
    in *.
  assert (Happly : apply event this
                   = set_uncommittedEvents (uncommittedEvents this)
                       (set_version (Z.of_nat (length (uncommittedEvents this)))
                          (apply event F))).
  { transitivity (apply event
                    (set_uncommittedEvents (uncommittedEvents this)
                       (set_version (Z.of_nat (length (uncommittedEvents this))) F)));
      [by f_equal|].
    by rewrite Payment_apply_set_uncommittedEvents, Payment_apply_set_version. }
  assert (Hversion : version this = Z.of_nat (length (uncommittedEvents this))).
  { transitivity (version
                    (set_uncommittedEvents (uncommittedEvents this)
                       (set_version (Z.of_nat (length (uncommittedEvents this))) F)));
      [by f_equal|reflexivity]. }
  rewrite Happly, Hversion, length_app, Nat2Z.inj_add.
  destruct (apply event F). reflexivity.
Qed.

Lemma issue_payment_consistent id0 orderId0 userId0 amount0 currency0 paymentMethod0
    c this :
  payment_consistent id0 orderId0 userId0 amount0 currency0 paymentMethod0 this →
  payment_consistent id0 orderId0 userId0 amount0 currency0 paymentMethod0
    (snd (issue_payment c this)).
Proof.
  intros Hthis.
  pose proof Hthis as (Hid & Horder & Huser & Hamount & Hcur & Hpm & Hproc & Hlen
                       & Hver & Hmethod & Hrefund & Hreplay).
  assert (Hrep : ∀ e now0,
            fromEvents id0 (uncommittedEvents (snd (applyEvent e this))) now0
            = Ok (snd (applyEvent e this))).
  { intros e now0. rewrite <- Hid. apply Payment_replay_applyEvent.
    by rewrite Hid. }
  destruct c; cbn [issue_payment].
  - unfold processPayment. run_m.
    destruct (status this) eqn:Hs; try exact Hthis.
    specialize (Hrep (newEvent (id this)
                        (PaymentProcessed (orderId this) transactionId0 (amount this)
                           (currency this) (paymentMethod this) now gatewayResponse0)
                        now)).
    rewrite Payment_applyEvent_run in *. cbn [snd] in *.
    repeat split; try done.
    + cbn. rewrite length_app, Hlen. reflexivity.
    + cbn. rewrite length_app, Hver, Hlen. reflexivity.
  - unfold markAsFailed. run_m.
    destruct (status this) eqn:Hs; try exact Hthis; [|done].
    specialize (Hrep (newEvent (id this)
                        (PaymentFailed (orderId this) failureReason0 errorCode0 now
                           gatewayResponse0) now)).
    rewrite Payment_applyEvent_run in *. cbn [snd] in *.
    repeat split; try done.
    + cbn. rewrite length_app, Hlen. reflexivity.
    + cbn. rewrite length_app, Hver, Hlen. reflexivity.
  - unfold refund. run_m.
    destruct (status this) eqn:Hs; try exact Hthis.
    destruct (amount this <? refundAmount0) eqn:Hlt; [exact Hthis|].
    apply Z.ltb_ge in Hlt.
    specialize (Hrep (newEvent (id this)
                        (PaymentRefunded (orderId this) refundId0 refundAmount0
                           (currency this) refundReason0 now gatewayResponse0) now)).
    rewrite Payment_applyEvent_run in *. cbn [snd] in *.
    repeat split; try done.
    + cbn. rewrite length_app, Hlen. reflexivity.
    + cbn. rewrite length_app, Hver, Hlen. reflexivity.
    + cbn. intros r [= <-]. lia.
  - unfold cancel. run_m.
    destruct (status this) eqn:Hs; try exact Hthis.
    specialize (Hrep (newEvent (id this)
                        (PaymentCancelled (orderId this) now cancelledBy reason) now)).
    rewrite Payment_applyEvent_run in *. cbn [snd] in *.
    repeat split; try done.
    + cbn. rewrite length_app, Hlen. reflexivity.
    + cbn. rewrite length_app, Hver, Hlen. reflexivity.
Qed.

Lemma after_payment_commands_consistent id0 orderId0 userId0 amount0 currency0
    paymentMethod0 cs : ∀ this,
  payment_consistent id0 orderId0 userId0 amount0 currency0 paymentMethod0 this →
  payment_consistent id0 orderId0 userId0 amount0 currency0 paymentMethod0
    (after_payment_commands cs this).
Proof.
  induction cs as [|c cs IH]; intros this Hthis; [exact Hthis|].
  cbn [after_payment_commands fold_left]. apply IH.
  by apply issue_payment_consistent.
Qed.

(** X17. The life of a payment.  Whatever commands are issued on a
    created payment, accepted or not: its id, order, user, amount,
    currency and payment method stay those of the creation; its status is
    never [processing]; the number of its events follows from the status
    (pending 1; completed, failed, cancelled 2; refunded 3), so no payment
    has more than three; its version is the number of its events; a
    recorded refund amount is not above the payment amount; the refund
    method given to [refund] is never recorded; and [fromEvents] on its
    events rebuilds exactly the same payment. *)
Theorem payment_lifecycle id0 orderId0 userId0 amount0 currency0 paymentMethod0
    paymentDetails0 now cs :
  accepted
    (create id0 orderId0 userId0 amount0 currency0 paymentMethod0 paymentDetails0 now)
    (λ created,
       let this := after_payment_commands cs created in
       getId this = id0
       ∧ orderId this = orderId0
       ∧ userId this = userId0
       ∧ amount this = amount0
       ∧ currency this = currency0
       ∧ paymentMethod this = paymentMethod0
       ∧ getStatus this ≠ processing
       ∧ length (getUncommittedEvents this) = events_behind (getStatus this)
       ∧ (length (getUncommittedEvents this) ≤ 3)%nat
       ∧ getVersion this = Z.of_nat (length (getUncommittedEvents this))
       ∧ refundMethod this = None
       ∧ (∀ r, refundAmount this = Some r → r ≤ amount0)
       ∧ ∀ now0, fromEvents id0 (getUncommittedEvents this) now0 = Ok this).
Proof.
  unfold create, construct. rewrite Payment_applyEvent_run. cbn [accepted].
  cbv zeta.
  match goal with
  | |- context [after_payment_commands cs ?s] => set (created := s)
  end.
  assert (Hcreated : payment_consistent id0 orderId0 userId0 amount0 currency0
                       paymentMethod0 created).
  { by repeat split. }
  destruct (after_payment_commands_consistent _ _ _ _ _ _ cs created Hcreated)
    as (Hid & Horder & Huser & Hamount & Hcur & Hpm & Hproc & Hlen
        & Hver & Hmethod & Hrefund & Hreplay).
  unfold getId, getStatus, getVersion, getUncommittedEvents.
  repeat (split; [done|]). split; [|done].
  rewrite Hlen. by destruct (status (after_payment_commands cs created)); simpl; lia.
Qed.

End PaymentCommands.


(** ** Snapshots *)

Section SnapshotFacts.
Context {J : Type}.
Import SnapshotStore.

(** The first row of the greatest version, in list order. *)
Lemma head_version_desc_insert (r : Snapshot J) rows :
  head (version_desc_insert r rows)
  = match head rows with
    | None => Some r
    | Some x => if version x <=? version r then Some r else Some x
    end.
Proof. destruct rows as [|x xs]; [done|]. simpl. by destruct (version x <=? version r). Qed.

Lemma head_sorted_desc_max (l : list (Snapshot J)) :
  match head (foldr version_desc_insert [] l) with
  | None => l = []
  | Some r => r ∈ l ∧ ∀ x, x ∈ l → version x ≤ version r
  end.
Proof.
  induction l as [|y l IH]; [done|].
  cbn [foldr]. rewrite head_version_desc_insert.
  destruct (head (foldr version_desc_insert [] l)) as [r|].
  - destruct IH as [Hin Hmax].
    destruct (version r <=? version y) eqn:Hle.
    + apply Z.leb_le in Hle. split; [left|].
      intros x [->|Hx]%elem_of_cons; [lia|]. specialize (Hmax x Hx). lia.
    + apply Z.leb_gt in Hle. split; [by right|].
      intros x [->|Hx]%elem_of_cons; [lia|]. by apply Hmax.
  - subst l. split; [left|]. by intros x ->%list_elem_of_singleton.
Qed.

Lemma getLatestSnapshot_head a (table : list (Snapshot J)) :
  getLatestSnapshot a table
  = (λ row, (snapshotData row, version row))
    <$> head (foldr version_desc_insert []
                (List.filter (λ r, String.eqb (aggregateId r) a) table)).
Proof.
  unfold getLatestSnapshot.
  by destruct (foldr version_desc_insert [] _).
Qed.

Lemma getLatestSnapshot_spec a (table : list (Snapshot J)) :
  match getLatestSnapshot a table with
  | None => ∀ row, row ∈ table → aggregateId row ≠ a
  | Some (d, v) =>
      ∃ row, row ∈ table ∧ aggregateId row = a
             ∧ snapshotData row = d ∧ version row = v
             ∧ ∀ row', row' ∈ table → aggregateId row' = a → version row' ≤ v
  end.
Proof.
  rewrite getLatestSnapshot_head.
  pose proof (head_sorted_desc_max
                (List.filter (λ r, String.eqb (aggregateId r) a) table)) as Hmax.
  destruct (head _) as [r|]; cbn [fmap option_fmap option_map].
  - destruct Hmax as [Hin Hmax].
    apply list_elem_of_In, filter_In in Hin as [Hin Ha].
    apply String.eqb_eq in Ha. exists r.
    split; [by apply list_elem_of_In|]. repeat (split; [done|]).
    intros row' Hrow' Ha'. apply Hmax, list_elem_of_In, filter_In.
    split; [by apply list_elem_of_In|]. by apply String.eqb_eq.
  - intros row Hrow Ha.
    assert (Hin : In row (List.filter (λ r, String.eqb (aggregateId r) a) table)).
    { apply filter_In. split; [by apply list_elem_of_In|]. by apply String.eqb_eq. }
    by rewrite Hmax in Hin.
Qed.

(** X18. [getLatestSnapshot] returns [null] exactly when the table holds
    no snapshot of the aggregate, and otherwise the data and the version
    of a snapshot of the aggregate whose version no other snapshot of the
    aggregate exceeds: the latest by version, whenever it was saved. *)
Theorem getLatestSnapshot_is_greatest_version a (table : list (Snapshot J)) :
  (getLatestSnapshot a table = None ↔ ∀ row, row ∈ table → aggregateId row ≠ a)
  ∧ ∀ d v, getLatestSnapshot a table = Some (d, v) →
      (∃ row, row ∈ table ∧ aggregateId row = a
              ∧ snapshotData row = d ∧ version row = v)
      ∧ ∀ row, row ∈ table → aggregateId row = a → version row ≤ v.
Proof.
  pose proof (getLatestSnapshot_spec a table) as Hspec.
  destruct (getLatestSnapshot a table) as [[d0 v0]|].
  - destruct Hspec as (row & Hin & Ha & Hd & Hv & Hmax). split.
    + split; [done|]. intros Hnone. by destruct (Hnone row Hin).
    + intros d v [= <- <-]. split; [by exists row|done].
  - split; [done|]. intros d v [=].
Qed.

Lemma upsert_keys env a ty d v (table : list (Snapshot J)) :
  List.map fixed_columns (upsert env a ty d v table)
  = List.map fixed_columns table
    ++ (if has_snapshot a v table then []
        else [(EventStore.gen_random_uuid env 0, a, ty, v)]).
Proof.
  induction table as [|row rest IH]; [done|].
  cbn [upsert has_snapshot existsb].
  destruct (String.eqb (aggregateId row) a && (version row =? v)) eqn:Hkey.
  - cbn [orb]. by rewrite app_nil_r.
  - cbn [orb List.map app]. fold (has_snapshot a v rest). by rewrite IH.
Qed.

Lemma map_snapshot_key (l : list (Snapshot J)) :
  List.map snapshot_key l = List.map (λ c, (c.1.1.2, c.2)) (List.map fixed_columns l).
Proof. rewrite List.map_map. by apply map_ext. Qed.

Lemma has_snapshot_spec a v (table : list (Snapshot J)) :
  has_snapshot a v table = true ↔ (a, v) ∈ List.map snapshot_key table.
Proof.
  unfold has_snapshot. rewrite existsb_exists, list_elem_of_In, in_map_iff.
  split; intros (r & H1 & H2); exists r.
  - apply andb_true_iff in H2 as [Ha Hv].
    apply String.eqb_eq in Ha. apply Z.eqb_eq in Hv.
    split; [|done]. unfold snapshot_key. by rewrite Ha, Hv.
  - injection H1 as Ha Hv. split; [done|].
    apply andb_true_iff. split; [by apply String.eqb_eq|by apply Z.eqb_eq].
Qed.

Lemma upsert_keys_unique env a ty d v (table : list (Snapshot J)) :
  keys_unique table → keys_unique (upsert env a ty d v table).
Proof.
  unfold keys_unique. intros Huniq.
  rewrite map_snapshot_key, upsert_keys, map_app, <- map_snapshot_key.
  destruct (has_snapshot a v table) eqn:Hhas; [by rewrite app_nil_r|].
  cbn [List.map fst snd]. apply NoDup_app. split; [done|].
  split; [|apply NoDup_singleton].
  intros k Hk ->%list_elem_of_singleton.
  apply has_snapshot_spec in Hk. congruence.
Qed.

Lemma upsert_other env a ty d v b (table : list (Snapshot J)) :
  b ≠ a →
  List.filter (λ r, String.eqb (aggregateId r) b) (upsert env a ty d v table)
  = List.filter (λ r, String.eqb (aggregateId r) b) table.
Proof.
  intros Hb. induction table as [|row rest IH]; cbn [upsert List.filter].
  - cbn [aggregateId]. by destruct (String.eqb_spec a b) as [->|].
  - destruct (String.eqb (aggregateId row) a && (version row =? v)) eqn:Hkey.
    + apply andb_true_iff in Hkey as [Ha _]. apply String.eqb_eq in Ha.
      cbn [List.filter aggregateId]. rewrite Ha.
      by destruct (String.eqb_spec a b) as [->|].
    + cbn [List.filter]. by rewrite IH.
Qed.

(** The rows after an upsert: a row of the key with the new data, and
    otherwise rows of the table. *)
Lemma upsert_elem env a ty d v (table : list (Snapshot J)) :
  (∃ u, u ∈ upsert env a ty d v table
        ∧ aggregateId u = a ∧ version u = v ∧ snapshotData u = d)
  ∧ (∀ x, x ∈ upsert env a ty d v table →
       x ∈ table ∨ (aggregateId x = a ∧ version x = v ∧ snapshotData x = d))
  ∧ (∀ x, x ∈ table → snapshot_key x ≠ (a, v) → x ∈ upsert env a ty d v table).
Proof.
  induction table as [|row rest (IHu & IHin & IHkeep)]; cbn [upsert].
  - split; [|split].
    + eexists. split; [left|]. done.
    + intros x ->%list_elem_of_singleton. by right.
    + intros x Hx. by apply elem_of_nil in Hx.
  - destruct (String.eqb (aggregateId row) a && (version row =? v)) eqn:Hkey.
    + apply andb_true_iff in Hkey as [Ha Hv].
      apply String.eqb_eq in Ha. apply Z.eqb_eq in Hv.
      split; [|split].
      * eexists. split; [left|]. done.
      * intros x [->|Hx]%elem_of_cons; [by right|]. left. by right.
      * intros x [->|Hx]%elem_of_cons Hne; [|by right].
        destruct Hne. unfold snapshot_key. by rewrite Ha, Hv.
    + split; [|split].
      * destruct IHu as (u & Hu & Hrest). exists u. split; [by right|done].
      * intros x [->|Hx]%elem_of_cons; [left; left|].
        destruct (IHin x Hx) as [Hin|Hnew]; [left; by right|by right].
      * intros x [->|Hx]%elem_of_cons Hne; [left|]. right. by apply IHkeep.
Qed.

Lemma keys_unique_inj (table : list (Snapshot J)) x y :
  keys_unique table → x ∈ table → y ∈ table → snapshot_key x = snapshot_key y → x = y.
Proof.
  unfold keys_unique. induction table as [|r rest IH]; intros Huniq Hx Hy Hkey.
  - by apply elem_of_nil in Hx.
  - cbn [List.map] in Huniq. apply NoDup_cons in Huniq as [Hnotin Huniq].
    apply elem_of_cons in Hx as [->|Hx]; apply elem_of_cons in Hy as [->|Hy].
    + done.
    + destruct Hnotin. rewrite Hkey. apply list_elem_of_In, in_map.
      by apply list_elem_of_In.
    + destruct Hnotin. rewrite <- Hkey. apply list_elem_of_In, in_map.
      by apply list_elem_of_In.
    + by apply IH.
Qed.

(** X19. Saving a snapshot.  On a table that satisfies its unique
    constraint, [saveSnapshot] (when the database accepts the statement)
    keeps the constraint; it rewrites the data of the snapshot of that
    aggregate and version if there is one, leaving its id and aggregate
    type as they were, and appends a row otherwise.  Afterwards the latest
    snapshot of the aggregate is the saved one if its version is at least
    the previous latest version, and the previous latest one otherwise;
    the latest snapshot of every other aggregate is unchanged. *)
Theorem saveSnapshot_then_latest env a ty d v (table : list (Snapshot J)) :
  keys_unique table →
  EventStore.query_fails env 0 = false →
  let table' := snd (saveSnapshot env a ty d v table) in
  fst (saveSnapshot env a ty d v table) = Ok tt
  ∧ keys_unique table'
  ∧ List.map fixed_columns table'
    = List.map fixed_columns table
      ++ (if has_snapshot a v table then []
          else [(EventStore.gen_random_uuid env 0, a, ty, v)])
  ∧ getLatestSnapshot a table'
    = match getLatestSnapshot a table with
      | Some (d0, v0) => if v0 <=? v then Some (d, v) else Some (d0, v0)
      | None => Some (d, v)
      end
  ∧ ∀ b, b ≠ a → getLatestSnapshot b table' = getLatestSnapshot b table.
Proof.
  intros Huniq Hq. unfold saveSnapshot. rewrite Hq. cbn [fst snd].
  pose proof (upsert_keys_unique env a ty d v table Huniq) as Huniq'.
  split; [done|]. split; [done|]. split; [apply upsert_keys|]. split.
  - destruct (upsert_elem env a ty d v table) as ((u & Hu & Hua & Huv & Hud) & Hin & Hkeep).
    assert (Hkey_u : ∀ x, x ∈ upsert env a ty d v table →
              aggregateId x = a → version x = v → x = u).
    { intros x Hx Ha Hv. apply (keys_unique_inj _ x u Huniq' Hx Hu).
      unfold snapshot_key. by rewrite Ha, Hv, Hua, Huv. }
    pose proof (getLatestSnapshot_spec a (upsert env a ty d v table)) as Hnew.
    pose proof (getLatestSnapshot_spec a table) as Hold.
    destruct (getLatestSnapshot a (upsert env a ty d v table)) as [[d1 v1]|];
      [|by destruct (Hnew u Hu)].
    destruct Hnew as (r1 & Hr1 & Ha1 & Hd1 & Hv1 & Hmax1).
    pose proof (Hmax1 u Hu Hua) as Hv_le. rewrite Huv in Hv_le.
    destruct (getLatestSnapshot a table) as [[d0 v0]|].
    + destruct Hold as (r0 & Hr0 & Ha0 & Hd0 & Hv0 & Hmax0).
      destruct (v0 <=? v) eqn:Hle.
      * apply Z.leb_le in Hle.
        assert (Hr1u : r1 = u).
        { apply Hkey_u; [done..|].
          destruct (Hin r1 Hr1) as [Hold1|(_ & Hv' & _)]; [|done].
          specialize (Hmax0 r1 Hold1 Ha1). lia. }
        subst r1. by rewrite <- Hd1, <- Hv1, Hud, Huv.
      * apply Z.leb_gt in Hle.
        assert (Hr0' : r0 ∈ upsert env a ty d v table).
        { apply Hkeep; [done|]. unfold snapshot_key. intros [= _ Hv']. lia. }
        pose proof (Hmax1 r0 Hr0' Ha0) as Hge.
        destruct (Hin r1 Hr1) as [Hold1|(_ & Hv' & _)]; [|lia].
        specialize (Hmax0 r1 Hold1 Ha1).
        assert (r1 = r0) as ->.
        { apply (keys_unique_inj table); [done..|].
          unfold snapshot_key. rewrite Ha1, Ha0. f_equal. lia. }
        by rewrite <- Hd1, <- Hv1, Hd0, Hv0.
    + assert (Hr1u : r1 = u).
      { destruct (Hin r1 Hr1) as [Hold1|(_ & Hv' & _)]; [by destruct (Hold r1 Hold1)|].
        by apply Hkey_u. }
      subst r1. by rewrite <- Hd1, <- Hv1, Hud, Huv.
  - intros b Hb. unfold getLatestSnapshot. by rewrite upsert_other.
Qed.

(** X20. Saving the same aggregate and version twice keeps one row for
    them: the second save adds no row and changes no id, aggregate type
    or version, and the row holds the data of the second save.  A
    rejected [saveSnapshot] leaves the table as it was. *)
Theorem saveSnapshot_twice env1 env2 a ty1 ty2 d1 d2 v (table : list (Snapshot J)) :
  EventStore.query_fails env1 0 = false →
  EventStore.query_fails env2 0 = false →
  let table1 := snd (saveSnapshot env1 a ty1 d1 v table) in
  let table2 := snd (saveSnapshot env2 a ty2 d2 v table1) in
  List.map fixed_columns table2 = List.map fixed_columns table1
  ∧ length table2 = length table1
  ∧ (∃ u, u ∈ table2 ∧ aggregateId u = a ∧ version u = v ∧ snapshotData u = d2)
  ∧ ∀ env, EventStore.query_fails env 0 = true →
      saveSnapshot env a ty1 d1 v table = (Throw (QueryFailed 0), table).
Proof.
  intros Hq1 Hq2. cbv zeta. unfold saveSnapshot. rewrite Hq1, Hq2. cbn [fst snd].
  assert (Hcols : List.map fixed_columns
                    (upsert env2 a ty2 d2 v (upsert env1 a ty1 d1 v table))
                  = List.map fixed_columns (upsert env1 a ty1 d1 v table)).
  { rewrite (upsert_keys env2).
    destruct (upsert_elem env1 a ty1 d1 v table) as ((u & Hu & Hua & Huv & _) & _).
    assert (Hhas : has_snapshot a v (upsert env1 a ty1 d1 v table) = true).
    { apply has_snapshot_spec, list_elem_of_In, in_map_iff. exists u.
      split; [|by apply list_elem_of_In]. unfold snapshot_key. by rewrite Hua, Huv. }
    by rewrite Hhas, app_nil_r. }
  split; [done|]. split; [|split].
  - by rewrite <- (length_map fixed_columns), Hcols, length_map.
  - apply upsert_elem.
  - intros env Hq. by rewrite Hq.
Qed.

End SnapshotFacts.

(** ** Order and Product: construction *)

(** X21. No order and no product can be constructed.  The constructors
    fill in placeholder values ([''] for the address fields, [0] for the
    price) that their own value objects reject, so [Order.create],
    [Order.fromEvents], [Product.create] and [Product.fromEvents] throw
    for every input, before any event is applied. *)
Theorem aggregates_cannot_be_constructed :
  (∀ is_uuid is_email id0 userId0 items0 shippingAddress0 billingAddress0
     paymentMethod0 now,
     Order.create is_uuid is_email id0 userId0 items0 shippingAddress0 billingAddress0
       paymentMethod0 now
     = Throw (Invalid "order address"))
  ∧ (∀ is_uuid is_email id0 events now,
       Order.fromEvents is_uuid is_email id0 events now
       = Throw (Invalid "order address"))
  ∧ (∀ id0 name0 description0 price0 categoryId0 sku0 images0 attributes0 now,
       Product.create id0 name0 description0 price0 categoryId0 sku0 images0
         attributes0 now
       = Throw (Invalid "product price"))
  ∧ (∀ id0 events now,
       Product.fromEvents id0 events now = Throw (Invalid "product price")).
Proof.
  split; [|split; [|split]]; intros.
  - unfold Order.create. by rewrite Order_new_throws.
  - apply Order_fromEvents_throws.
  - unfold Product.create. by rewrite Product_new_throws.
  - unfold Product.fromEvents. by rewrite Product_new_throws.
Qed.

(** ** The Product aggregate: commands *)

Section ProductCommands.
Import Product.

Lemma existsb_eqb_elem_of (x : string) l : existsb (String.eqb x) l = true ↔ x ∈ l.
Proof.
  rewrite existsb_exists, list_elem_of_In. split.
  - by intros (y & Hy & ->%String.eqb_eq).
  - intros Hx. exists x. split; [done|apply String.eqb_refl].
Qed.

Ltac run_product :=
  unfold applyEvent, apply, newEvent; cbn [data metadata Shared.timestamp];
  unfold applyProductUpdated, applyProductPriceChanged, applyProductDiscontinued,
    applyProductReactivated, applyProductStockUpdated, applyProductCategoryChanged,
    applyProductImageAdded, applyProductImageRemoved, applyProductAttributeUpdated,
    assign_if_defined, share_images;
  run_m.

(** The price schema on a new amount in USD. *)
Lemma ProductPrice_new_USD amount0 :
  ProductPrice.new (ProductPrice.mk amount0 "USD" None None)
  = if (0 <? amount0) && (amount0 <=? MAX_SAFE_INTEGER)
    then Ok (ProductPrice.mk amount0 "USD" None None)
    else Throw (Invalid "product price").
Proof.
  unfold ProductPrice.new, ProductPrice.schema, Joi_number.
  cbn [ProductPrice.amount ProductPrice.currency ProductPrice.compareAtPrice
         ProductPrice.discountPercentage String.length Nat.eqb].
  unfold MAX_SAFE_INTEGER.
  destruct (0 <? amount0) eqn:Hpos, (amount0 <=? 9007199254740991) eqn:Hsafe;
    rewrite ?andb_true_r, ?andb_false_r; cbn [andb]; try reflexivity.
  apply Z.ltb_lt in Hpos.
  assert (Hlow : (- (9007199254740991) <=? amount0) = true)
    by (apply Z.leb_le; lia).
  by rewrite Hlow.
Qed.

(** X22. Which commands a product accepts: [changePrice] iff the
    product is active and the price is positive and a safe number (the
    price schema admits no amount above [Number.MAX_SAFE_INTEGER]);
    [discontinue], [changeCategory], [addImage] and [updateAttribute] iff
    it is active; [reactivate] iff it is not; [updateStock] iff the stock
    is not negative and [removeImage] iff the image is listed, active or
    not; [updateProduct] iff it is active and the attributes, when given,
    pass the attribute schema. *)
Theorem product_command_acceptance this :
  (∀ newPrice reason now,
     fst (changePrice newPrice reason now this) = Ok tt
     ↔ isActive this = true ∧ 0 < newPrice ≤ MAX_SAFE_INTEGER)
  ∧ (∀ reason now, fst (discontinue reason now this) = Ok tt ↔ isActive this = true)
  ∧ (∀ now, fst (reactivate now this) = Ok tt ↔ isActive this = false)
  ∧ (∀ newStock changeReason now,
       fst (updateStock newStock changeReason now this) = Ok tt ↔ 0 ≤ newStock)
  ∧ (∀ newCategoryId now,
       fst (changeCategory newCategoryId now this) = Ok tt ↔ isActive this = true)
  ∧ (∀ imageUrl isPrimary now,
       fst (addImage imageUrl isPrimary now this) = Ok tt ↔ isActive this = true)
  ∧ (∀ imageUrl now,
       fst (removeImage imageUrl now this) = Ok tt ↔ imageUrl ∈ images this)
  ∧ (∀ key0 value0 now,
       fst (updateAttribute key0 value0 now this) = Ok tt ↔ isActive this = true)
  ∧ (∀ name0 description0 categoryId0 images0 attributes0 isActive0 now,
       fst (updateProduct name0 description0 categoryId0 images0 attributes0 isActive0
              now this) = Ok tt
       ↔ isActive this = true
         ∧ match attributes0 with
           | Some attrs => ProductAttributes.schema attrs = true
           | None => True
           end).
Proof.
  split; [|split; [|split; [|split; [|split; [|split; [|split; [|split]]]]]]].
  - intros. unfold changePrice. run_m.
    destruct (isActive this); cbn [negb];
      [|cbn [fst]; split; [discriminate|by intros [? _]]].
    destruct (newPrice <=? 0) eqn:Hle.
    + apply Z.leb_le in Hle. cbn [fst]. split; [discriminate|]. intros [_ ?]. lia.
    + apply Z.leb_gt in Hle. run_product. rewrite ProductPrice_new_USD.
      assert (Hpos : (0 <? newPrice) = true) by (by apply Z.ltb_lt).
      rewrite Hpos. cbn [andb].
      destruct (newPrice <=? MAX_SAFE_INTEGER) eqn:Hsafe.
      * apply Z.leb_le in Hsafe. cbn [fst]. split; [|done]. intros _. lia.
      * apply Z.leb_gt in Hsafe. cbn [fst]. split; [discriminate|].
        intros [_ ?]. lia.
  - intros. unfold discontinue. run_m.
    destruct (isActive this); cbn [negb]; [by run_product|].
    cbn [fst]. split; discriminate.
  - intros. unfold reactivate. run_m.
    destruct (isActive this); [cbn [fst]; split; discriminate|by run_product].
  - intros. unfold updateStock. run_m.
    destruct (newStock <? 0) eqn:Hlt.
    + apply Z.ltb_lt in Hlt. cbn [fst]. split; [discriminate|lia].
    + apply Z.ltb_ge in Hlt. by run_product.
  - intros. unfold changeCategory. run_m.
    destruct (isActive this); cbn [negb]; [by run_product|].
    cbn [fst]. split; discriminate.
  - intros. unfold addImage. run_m.
    destruct (isActive this); cbn [negb]; [by run_product|].
    cbn [fst]. split; discriminate.
  - intros. unfold removeImage. run_m. rewrite <- existsb_eqb_elem_of.
    destruct (existsb (String.eqb imageUrl) (images this)); cbn [negb];
      [by run_product|].
    cbn [fst]. split; discriminate.
  - intros. unfold updateAttribute. run_m.
    destruct (isActive this); cbn [negb]; [by run_product|].
    cbn [fst]. split; discriminate.
  - intros. unfold updateProduct. run_m.
    destruct (isActive this); cbn [negb];
      [|cbn [fst]; split; [discriminate|by intros [? _]]].
    run_product.
    destruct name0, description0, categoryId0, images0, isActive0; cbn beta iota;
      (destruct attributes0 as [attrs|]; cbn beta iota;
       [unfold ProductAttributes.new; destruct (ProductAttributes.schema attrs);
        cbn beta iota; cbn [fst]; split; (done || (by intros [_ ?]) || idtac)
       |done]).
Qed.

(** X23. A rejected [updateProduct] can leave the product half updated.
    On an active product, when the attributes given do not pass the
    attribute schema, the command throws the validation error after name,
    description, category and images were already assigned: these fields
    carry the new values, while attributes, active flag, update time,
    version and uncommitted events are as before. *)
Theorem updateProduct_rejected_half_applied this name0 description0 categoryId0 images0
    attrs isActive0 now :
  isActive this = true →
  ProductAttributes.schema attrs = false →
  let out :=
    updateProduct name0 description0 categoryId0 images0 (Some attrs) isActive0 now
      this in
  fst out = Throw (Invalid "product attributes")
  ∧ name (snd out) = default (name this) name0
  ∧ description (snd out) = default (description this) description0
  ∧ categoryId (snd out) = default (categoryId this) categoryId0
  ∧ images (snd out) = default (images this) images0
  ∧ attributes (snd out) = attributes this
  ∧ isActive (snd out) = true
  ∧ updatedAt (snd out) = updatedAt this
  ∧ getVersion (snd out) = getVersion this
  ∧ getUncommittedEvents (snd out) = getUncommittedEvents this.
Proof.
  intros Hactive Hschema. cbv zeta. unfold updateProduct. run_m.
  rewrite Hactive. cbn [negb]. run_product.
  unfold ProductAttributes.new. rewrite Hschema.
  unfold getVersion, getUncommittedEvents.
  destruct name0, description0, categoryId0, images0; cbn beta iota;
    cbn [fst snd name description categoryId images attributes isActive updatedAt
           version uncommittedEvents set_name set_description set_categoryId
           set_images default];
    by rewrite ?Hactive.
Qed.

(** X24. Prices and images.  [changePrice], when accepted, replaces the
    price by the new amount in USD without compare-at price or discount,
    whatever the currency and the discount were; an amount that is not
    positive or not a safe number leaves the price as it was.  [addImage]
    appends the URL, listed already or not; the push is made on the array
    itself, so the uncommitted event whose payload holds the array of
    images lists the new URL as well.  After [removeImage], accepted or
    not, the URL is not among the images: every occurrence is removed, and
    the other images keep their order. *)
Theorem product_price_and_images this :
  (∀ newPrice reason now,
     price (snd (changePrice newPrice reason now this))
     = if isActive this && (0 <? newPrice) && (newPrice <=? MAX_SAFE_INTEGER)
       then ProductPrice.mk newPrice "USD" None None
       else price this)
  ∧ (∀ imageUrl isPrimary now,
       images (snd (addImage imageUrl isPrimary now this))
       = (if isActive this then images this ++ [imageUrl] else images this)
       ∧ getUncommittedEvents (snd (addImage imageUrl isPrimary now this))
         = if isActive this
           then match imagesHolder this with
                | Some i =>
                    alter (push_to_payload imageUrl) i (getUncommittedEvents this)
                | None => getUncommittedEvents this
                end
                ++ [newEvent (id this) (ProductImageAdded imageUrl isPrimary) now]
           else getUncommittedEvents this)
  ∧ (∀ imageUrl now,
       images (snd (removeImage imageUrl now this))
       = List.filter (λ img, negb (String.eqb img imageUrl)) (images this)
       ∧ imageUrl ∉ images (snd (removeImage imageUrl now this))).
Proof.
  split; [|split].
  - intros. unfold changePrice. run_m.
    destruct (isActive this); cbn [negb andb]; [|done].
    destruct (newPrice <=? 0) eqn:Hle.
    + apply Z.leb_le in Hle.
      assert (Hneg : (0 <? newPrice) = false) by (apply Z.ltb_ge; lia).
      by rewrite Hneg.
    + apply Z.leb_gt in Hle. run_product. rewrite ProductPrice_new_USD.
      by destruct ((0 <? newPrice) && (newPrice <=? MAX_SAFE_INTEGER)).
  - intros. unfold addImage, getUncommittedEvents. run_m.
    destruct (isActive this); cbn [negb]; [|done].
    run_product. cbn [imagesHolder set_images].
    by destruct (imagesHolder this).
  - intros imageUrl now.
    assert (Himages : images (snd (removeImage imageUrl now this))
                      = List.filter (λ img, negb (String.eqb img imageUrl))
                          (images this)).
    { unfold removeImage. run_m.
      destruct (existsb (String.eqb imageUrl) (images this)) eqn:Hex; cbn [negb];
        [by run_product|].
      cbn [snd]. symmetry. apply forallb_filter_id, forallb_forall.
      intros img Himg. apply negb_true_iff, String.eqb_neq. intros ->.
      assert (existsb (String.eqb imageUrl) (images this) = true);
        [|congruence].
      apply existsb_exists. exists imageUrl. split; [done|apply String.eqb_refl]. }
    split; [done|]. rewrite Himages.
    intros [_ Hne]%list_elem_of_In%filter_In.
    by rewrite String.eqb_refl in Hne.
Qed.

(** X25. Discontinuing and reactivating.  On an active product
    [discontinue] followed by [reactivate] is accepted: the product is
    inactive with its discontinuation date in between, and active without
    one afterwards; name, price, category, images, attributes and stock
    are untouched, and two events and two versions are added. *)
Theorem discontinue_then_reactivate this reason now now' :
  isActive this = true →
  let discontinued := snd (discontinue reason now this) in
  let reactivated := snd (reactivate now' discontinued) in
  fst (discontinue reason now this) = Ok tt
  ∧ isProductActive discontinued = false
  ∧ discontinuedAt discontinued = Some now
  ∧ fst (reactivate now' discontinued) = Ok tt
  ∧ isProductActive reactivated = true
  ∧ discontinuedAt reactivated = None
  ∧ (name reactivated, description reactivated, price reactivated,
     categoryId reactivated, sku reactivated, images reactivated,
     attributes reactivated, stock reactivated)
    = (name this, description this, price this, categoryId this, sku this,
       images this, attributes this, stock this)
  ∧ getVersion reactivated = getVersion this + 2
  ∧ getUncommittedEvents reactivated
    = getUncommittedEvents this
      ++ [newEvent (id this) (ProductDiscontinued reason now) now;
          newEvent (id this) (ProductReactivated now') now'].
Proof.
  intros Hactive. cbv zeta. unfold discontinue, reactivate. run_m.
  rewrite Hactive. cbn [negb]. run_product.
  cbn [snd isActive set_isActive set_discontinuedAt set_updatedAt set_version
         set_uncommittedEvents].
  run_product. unfold isProductActive, getVersion, getUncommittedEvents.
  cbn. repeat split; try done.
  - lia.
  - by rewrite <- app_assoc.
Qed.

End ProductCommands.

(** ** The Order aggregate: commands *)

Section OrderCommands.
Variables is_uuid is_email : string → bool.
Import Order.

Ltac run_order :=
  unfold applyEvent, Order.apply, newEvent; cbn [data metadata Shared.timestamp];
  unfold applyOrderConfirmed, applyOrderPaymentRequested, applyOrderPaid,
    applyOrderPaymentFailed, applyOrderShipped, applyOrderDelivered,
    applyOrderCancelled, applyOrderRefunded, applyOrderItemUpdated,
    applyOrderItemRemoved, applyOrderStatusChanged, applyOrderAddressUpdated,
    recalculateTotal;
  run_m.

(** X26. The status machine of an order.  Each status command is
    accepted exactly under its guard on the status: [confirm] when
    pending, [requestPayment] when confirmed, [markAsPaid] and
    [markPaymentFailed] when payment_pending, [ship] when paid, [deliver]
    when shipped, [refund] when paid, shipped or delivered, and [cancel]
    in every status but cancelled, delivered and refunded.  An accepted
    command leaves the status of its event, appends that one event and
    raises the version by one without touching items or total; a rejected
    one leaves the order exactly as it was. *)
Theorem order_status_machine this c :
  let out := issue_order is_uuid is_email c this in
  (fst out = Ok tt ↔ order_accepts c (status this))
  ∧ (fst out = Ok tt →
     getStatus (snd out) = order_status_after c
     ∧ getVersion (snd out) = getVersion this + 1
     ∧ items (snd out) = items this
     ∧ getTotalAmount (snd out) = getTotalAmount this
     ∧ ∃ e, getUncommittedEvents (snd out) = getUncommittedEvents this ++ [e])
  ∧ (fst out ≠ Ok tt → snd out = this).
Proof.
  cbv zeta. unfold getStatus, getVersion, getTotalAmount, getUncommittedEvents.
  destruct c; cbn [issue_order order_accepts order_status_after].
  - unfold confirm. run_m.
    destruct (String.eqb_spec (status this) "pending") as [Hs|Hs]; cbn [negb].
    + run_order. cbn. repeat split; try done. by eexists.
    + cbn [fst snd]. repeat split; try done.
  - unfold requestPayment. run_m.
    destruct (String.eqb_spec (status this) "confirmed") as [Hs|Hs]; cbn [negb].
    + run_order. cbn. repeat split; try done. by eexists.
    + cbn [fst snd]. repeat split; try done.
  - unfold markAsPaid. run_m.
    destruct (String.eqb_spec (status this) "payment_pending") as [Hs|Hs]; cbn [negb].
    + run_order. cbn. repeat split; try done. by eexists.
    + cbn [fst snd]. repeat split; try done.
  - unfold markPaymentFailed. run_m.
    destruct (String.eqb_spec (status this) "payment_pending") as [Hs|Hs]; cbn [negb].
    + run_order. cbn. repeat split; try done. by eexists.
    + cbn [fst snd]. repeat split; try done.
  - unfold ship. run_m.
    destruct (String.eqb_spec (status this) "paid") as [Hs|Hs]; cbn [negb].
    + run_order. cbn. repeat split; try done. by eexists.
    + cbn [fst snd]. repeat split; try done.
  - unfold deliver. run_m.
    destruct (String.eqb_spec (status this) "shipped") as [Hs|Hs]; cbn [negb].
    + run_order. cbn. repeat split; try done. by eexists.
    + cbn [fst snd]. repeat split; try done.
  - unfold cancel, is_closed. run_m.
    destruct (existsb (String.eqb (status this)) ["cancelled"; "delivered"; "refunded"])
      eqn:Hclosed.
    + apply existsb_eqb_elem_of in Hclosed. cbn [fst snd].
      repeat split; try done.
    + assert (Hopen : status this ∉ ["cancelled"; "delivered"; "refunded"]).
      { intros Hin%existsb_eqb_elem_of. congruence. }
      run_order. cbn. repeat split; try done. by eexists.
  - unfold refund. run_m.
    destruct (String.eqb_spec (status this) "paid") as [Hs1|Hs1]; cbn [negb andb].
    { run_order. cbn. repeat split; try done; [rewrite Hs1; left|by eexists]. }
    destruct (String.eqb_spec (status this) "shipped") as [Hs2|Hs2]; cbn [negb andb].
    { run_order. cbn.
      repeat split; try done; [rewrite Hs2; right; left|by eexists]. }
    destruct (String.eqb_spec (status this) "delivered") as [Hs3|Hs3]; cbn [negb andb].
    { run_order. cbn.
      repeat split; try done; [rewrite Hs3; right; right; left|by eexists]. }
    cbn [fst snd]. split; [|split; [discriminate|done]]. split; [discriminate|].
    intros Hin. rewrite !elem_of_cons in Hin.
    destruct Hin as [?|[?|[?|Hnil]]]; try done. by apply elem_of_nil in Hnil.
Qed.

(** X27. An [OrderCreated] event applies only without items.  Applying
    it validates the two addresses and then builds one [OrderItem] per
    item, always with the empty name, which the item schema rejects: the
    event is applied without error exactly when both addresses pass the
    address schema and the item list is empty, and with valid addresses
    and at least one item the error is the item's. *)
Theorem order_created_applies_only_without_items this id0 userId0 items0 totalAmount0
    currency0 shippingAddress0 billingAddress0 paymentMethod0 now :
  let event :=
    newEvent id0
      (OrderCreated userId0 items0 totalAmount0 currency0 shippingAddress0
         billingAddress0 paymentMethod0) now in
  (fst (Order.apply is_uuid is_email event this) = Ok tt
   ↔ OrderAddress.schema is_email shippingAddress0 = true
     ∧ OrderAddress.schema is_email billingAddress0 = true
     ∧ items0 = [])
  ∧ (OrderAddress.schema is_email shippingAddress0 = true →
     OrderAddress.schema is_email billingAddress0 = true →
     items0 ≠ [] →
     fst (Order.apply is_uuid is_email event this) = Throw (Invalid "order item")
     ∧ fst (applyEvent is_uuid is_email event this) = Throw (Invalid "order item")
     ∧ getVersion (snd (applyEvent is_uuid is_email event this)) = getVersion this
     ∧ getUncommittedEvents (snd (applyEvent is_uuid is_email event this))
       = getUncommittedEvents this).
Proof.
  cbv zeta. unfold applyEvent, Order.apply, newEvent.
  cbn [data metadata Shared.timestamp]. unfold applyOrderCreated, OrderAddress.new.
  run_m.
  destruct (OrderAddress.schema is_email shippingAddress0);
    [|split; [split; [discriminate|by intros [? _]]|discriminate]].
  destruct (OrderAddress.schema is_email billingAddress0);
    [|split; [split; [discriminate|by intros (_ & ? & _)]|discriminate]].
  destruct items0 as [|item rest].
  - cbn [forEach]. run_m. split; [done|]. by intros _ _ [].
  - cbn [forEach]. run_m. rewrite OrderItem_unnamed_rejected. cbn beta iota.
    split; [split; [discriminate|by intros (_ & _ & ?)]|].
    intros _ _ _. by repeat split.
Qed.

(** X28. An order never gains an item.  No event applied through
    [applyEvent] puts an item under an id the order did not hold:
    [applyOrderCreated] throws at its first item, [applyOrderItemUpdated]
    rewrites an item that is there, and the other events leave the items
    alone or delete one.  [removeItem] is accepted exactly when the order
    is not cancelled, delivered or refunded and holds the item,
    [updateItemQuantity] only for an item the order holds, and a rejected
    call of either leaves the order as it was. *)
Theorem order_never_gains_items this :
  (∀ event itemId,
     items this !! itemId = None →
     items (snd (applyEvent is_uuid is_email event this)) !! itemId = None)
  ∧ (∀ itemId reason now,
       let out := removeItem is_uuid is_email itemId reason now this in
       (fst out = Ok tt ↔ is_closed this = false ∧ is_Some (items this !! itemId))
       ∧ (fst out ≠ Ok tt → snd out = this))
  ∧ (∀ itemId newQuantity now,
       let out := updateItemQuantity is_uuid is_email itemId newQuantity now this in
       (fst out = Ok tt → is_Some (items this !! itemId))
       ∧ (fst out ≠ Ok tt → snd out = this)).
Proof.
  split; [|split].
  - intros [aggregateId0 d [timestamp0 version0]] itemId Hnone.
    unfold applyEvent, Order.apply. cbn [data metadata Shared.timestamp].
    destruct d as [userId0 items0 totalAmount0 currency0 shipping0 billing0
                   paymentMethod0| | | | | | | | | | | | | ].
    2-14: run_order; try done.
    + unfold applyOrderCreated, OrderAddress.new. run_m.
      destruct (OrderAddress.schema is_email shipping0); [|done].
      destruct (OrderAddress.schema is_email billing0); [|done].
      destruct items0 as [|item rest]; cbn [forEach]; run_m; [done|].
      by rewrite OrderItem_unnamed_rejected.
    + destruct (items this !! itemId0) as [item|] eqn:Hitem; [|done].
      destruct (OrderItem.updateQuantity is_uuid quantity item); [|done].
      cbn. rewrite lookup_insert_ne; [done|]. by intros ->; rewrite Hnone in Hitem.
    + cbn. by apply lookup_delete_None; right.
    + by destruct (OrderAddress.new is_email newAddress), addressType.
  - intros itemId reason now. cbv zeta. unfold removeItem. run_m.
    destruct (is_closed this); [by split; [split; [|intros []]|]|].
    destruct (items this !! itemId) as [item|];
      [|by split; [split; [|intros [_ []]]|]].
    run_order. by split; [split; [split; [|eexists]|]|].
  - intros itemId newQuantity now. cbv zeta. unfold updateItemQuantity. run_m.
    destruct (is_closed this); [by split|].
    destruct (items this !! itemId) as [item|] eqn:Hitem; [|by split].
    split; [by eexists|]. run_order. rewrite Hitem.
    by destruct (OrderItem.updateQuantity is_uuid newQuantity item).
Qed.

End OrderCommands.

(** ** The command handlers *)

Section HandlerFacts.
Context {B : Type}.
Import CommandHandlers.

Lemma publishEvents_one {D} (publish : Event D → M B unit) e (bus : B) :
  publishEvents publish [e] bus
  = (match fst (publish e bus) with Ok _ => Ok tt | Throw err => Throw err end,
     snd (publish e bus)).
Proof.
  unfold publishEvents. rewrite forEach_cons.
  by destruct (publish e bus) as [[[]|err] bus'].
Qed.

(** X29. Creating an inventory item stores, then publishes.  For an
    identity the store has no event of, and a database that rejects no
    query, [createInventoryItem] appends the [InventoryItemCreated] event
    as version 1 of the new stream, with the threshold of the command or
    10 when it is absent or zero, and only then hands the event to the
    bus: the row is stored whatever [publish] does, and the handler
    returns the new identity exactly when [publish] returns normally.
    When the save fails instead, the bus is not touched. *)
Theorem createInventoryItem_stores_then_publishes
    (publish : Event Inventory.InventoryEvent → M B unit) uuidv4 env now command
    table (bus : B) :
  stream uuidv4 table = [] →
  (∀ n, EventStore.query_fails env n = false) →
  let created :=
    newEvent uuidv4
      (Inventory.InventoryItemCreated (inventory_productId command)
         (inventory_sku command) (initialStock command)
         (lowStockThreshold_or_10 command) 0) now in
  let row :=
    EventStore.mkStoredEvent (EventStore.gen_random_uuid env 0) uuidv4
      "InventoryItemCreated" (data created) (metadata created) 1 (EventStore.NOW env) in
  createInventoryItem publish uuidv4 env now command (table, bus)
  = (match fst (publish created bus) with
     | Ok _ => Ok uuidv4
     | Throw err => Throw err
     end,
     (table ++ [row], snd (publish created bus)))
  ∧ ∀ env',
      isOk (fst (EventStore.saveEvents env' uuidv4 [created] 0 table)) = false →
      isOk (fst (createInventoryItem publish uuidv4 env' now command (table, bus)))
      = false
      ∧ snd (createInventoryItem publish uuidv4 env' now command (table, bus))
        = (table, bus).
Proof.
  intros Hfresh Hq. cbv zeta. unfold createInventoryItem.
  unfold Inventory.create, construct. rewrite Inventory_applyEvent_run.
  set (created :=
         newEvent uuidv4
           (Inventory.InventoryItemCreated (inventory_productId command)
              (inventory_sku command) (initialStock command)
              (lowStockThreshold_or_10 command) 0) now).
  set (inventory := Inventory.set_uncommittedEvents _ _).
  assert (Hevents : Inventory.getUncommittedEvents inventory = [created])
    by reflexivity.
  assert (Hid : Inventory.getId inventory = uuidv4) by reflexivity.
  assert (Hversion : Inventory.getVersion inventory = 1) by reflexivity.
  assert (Hsave : ∀ env0,
            InventoryRepository.save env0 (inventory, table)
            = (fst (EventStore.saveEvents env0 uuidv4 [created] 0 table),
               (inventory, snd (EventStore.saveEvents env0 uuidv4 [created] 0 table)))).
  { intros env0. rewrite InventoryRepository_save_run by (by rewrite Hevents).
    cbv zeta. by rewrite Hevents, Hid, Hversion. }
  cbn [fst snd]. split.
  - rewrite Hsave, saveEvents_accepted;
      [|by apply stream_empty_current_version|done].
    cbn [fst snd batch_rows]. rewrite Hevents, publishEvents_one.
    by destruct (publish created bus) as [[[]|err] bus'].
  - intros env' Hfail. rewrite Hsave.
    pose proof (saveEvents_Throw_table env' uuidv4 [created] 0 table Hfail) as Htable.
    destruct (EventStore.saveEvents env' uuidv4 [created] 0 table)
      as [[[]|err] table']; [done|].
    cbn [fst snd] in *. by rewrite Htable.
Qed.

(** X30. The handlers that create an order or a product never get past
    the constructor: [createOrder] and [createProduct] throw for every
    command, and neither the events table nor the bus is touched. *)
Theorem createOrder_createProduct_always_throw :
  (∀ is_uuid is_email (publish : Event Order.OrderEvent → M B unit) uuidv4 env now
     command st,
     createOrder is_uuid is_email publish uuidv4 env now command st
     = (Throw (Invalid "order address"), st))
  ∧ (∀ (publish : Event Product.ProductEvent → M B unit) uuidv4 env now command st,
       createProduct publish uuidv4 env now command st
       = (Throw (Invalid "product price"), st)).
Proof.
  split; intros.
  - unfold createOrder, Order.create. by rewrite Order_new_throws.
  - unfold createProduct, Product.create. by rewrite Product_new_throws.
Qed.

End HandlerFacts.

(** ** Instances *)

Lemma accepted_reservation_effect_witness :
  fst (Inventory.reserveStock "orderA" 4 future 101 (inventory_v1 10 2)) = Ok tt
  ∧ Inventory.getAvailableStock reserved_once = 10 - 4
  ∧ Inventory.getReservedStock reserved_once = 0 + 4
  ∧ Inventory.getCurrentStock reserved_once = 10.
Proof.
  assert (Hok : fst (Inventory.reserveStock "orderA" 4 future 101 (inventory_v1 10 2))
                = Ok tt) by (vm_compute; reflexivity).
  split; [exact Hok|].
  destruct (accepted_reservation_effect (inventory_v1 10 2) "orderA" 4 future 101 Hok)
    as (Havailable & Hreserved & Hcurrent & _).
  unfold reserved_once. rewrite Havailable, Hreserved, Hcurrent.
  vm_compute. repeat split.
Defined.

Lemma reserve_then_release_restores_witness :
  Inventory.getReservation "orderA" (inventory_v1 10 2) = None
  ∧ fst (Inventory.releaseStock "orderA" "cancelled" 102 reserved_once) = Ok tt
  ∧ Inventory.getAvailableStock
      (snd (Inventory.releaseStock "orderA" "cancelled" 102 reserved_once))
    = 10.
Proof.
  assert (Hnone : Inventory.getReservation "orderA" (inventory_v1 10 2) = None)
    by (vm_compute; reflexivity).
  assert (Hok : fst (Inventory.reserveStock "orderA" 4 future 101 (inventory_v1 10 2))
                = Ok tt) by (vm_compute; reflexivity).
  split; [exact Hnone|].
  destruct (reserve_then_release_restores (inventory_v1 10 2) "orderA" 4 future 101
              "cancelled" 102 Hnone Hok)
    as (Hreleased & _ & _ & _ & Havailable & _).
  split; [exact Hreleased|].
  unfold reserved_once. rewrite Havailable. vm_compute. reflexivity.
Defined.

Lemma accepted_allocation_effect_witness :
  Inventory.getReservation "orderA" reserved_once
    = Some (Inventory.StockReservation.mk "inv1-orderA" "orderA" 4 101 future false)
  ∧ fst (Inventory.allocateStock "orderA" 3 103 reserved_once) = Ok tt
  ∧ Inventory.getAvailableStock (snd (Inventory.allocateStock "orderA" 3 103 reserved_once))
    = 6
  ∧ Inventory.getReservation "orderA"
      (snd (Inventory.allocateStock "orderA" 3 103 reserved_once))
    = Some (Inventory.StockReservation.mk "inv1-orderA" "orderA" 4 101 future true).
Proof.
  assert (Hres : Inventory.getReservation "orderA" reserved_once
                 = Some (Inventory.StockReservation.mk "inv1-orderA" "orderA" 4 101
                           future false))
    by (vm_compute; reflexivity).
  split; [exact Hres|].
  destruct (accepted_allocation_effect reserved_once "orderA" 3 103 _ Hres)
    as (Hok & _ & _ & Havailable & Hreservation & _).
  - simpl. lia.
  - split; [exact Hok|]. split; [|exact Hreservation].
    rewrite Havailable. vm_compute. reflexivity.
Defined.

Lemma created_inventory_first_save_witness :
  stream "inv1" ([] : list (EventStore.StoredEvent Inventory.InventoryEvent)) = []
  ∧ (let this :=
       after_commands [DoReserveStock "orderA" 4 future 101] (inventory_v1 10 2) in
     fst (InventoryRepository.save (serial_env 1 200) (this, [])) = Ok tt
     ∧ List.map EventStore.version
         (snd (snd (InventoryRepository.save (serial_env 1 200) (this, []))))
       = [1; 2]).
Proof.
  split; [reflexivity|].
  pose proof (created_inventory_first_save (serial_env 1 200) "inv1" "p1" "S1" 10 2 100
                [DoReserveStock "orderA" 4 future 101] []
                (λ n, eq_refl) eq_refl) as Hsave.
  assert (Hcreated : Inventory.create "inv1" "p1" "S1" 10 2 100
                     = Ok (inventory_v1 10 2)) by (vm_compute; reflexivity).
  rewrite Hcreated in Hsave. cbn [accepted] in Hsave. cbv zeta in *.
  destruct Hsave as (-> & _). split; [reflexivity|]. vm_compute. reflexivity.
Defined.

Lemma inventory_save_cycle_witness :
  in_step (inventory_v1 10 2) []
  ∧ in_step
      (snd (Inventory.markEventsAsCommitted
              (after_commands [DoReserveStock "orderA" 4 future 101]
                 (inventory_v1 10 2))))
      (snd (snd (InventoryRepository.save (serial_env 1 200)
                   (after_commands [DoReserveStock "orderA" 4 future 101]
                      (inventory_v1 10 2), [])))).
Proof.
  assert (Hstep : in_step (inventory_v1 10 2) []).
  { split; [reflexivity|]. vm_compute. reflexivity. }
  split; [exact Hstep|].
  destruct (inventory_save_cycle (serial_env 1 200) (inventory_v1 10 2) []
              [DoReserveStock "orderA" 4 future 101] Hstep (λ n, eq_refl))
    as (_ & _ & _ & _ & Hcommitted).
  - vm_compute. discriminate.
  - exact Hcommitted.
Defined.

Lemma inventory_save_again_witness :
  let st1 := snd (InventoryRepository.save (serial_env 1 200) (inventory_v1 10 2, [])) in
  fst (InventoryRepository.save (serial_env 1 200) (inventory_v1 10 2, [])) = Ok tt
  ∧ InventoryRepository.save (serial_env 2 300) st1
    = (Throw (ConcurrencyConflict 0 1), st1).
Proof.
  cbv zeta.
  assert (Hok : fst (InventoryRepository.save (serial_env 1 200) (inventory_v1 10 2, []))
                = Ok tt) by (vm_compute; reflexivity).
  split; [exact Hok|].
  destruct (inventory_save_again (serial_env 1 200) (serial_env 2 300)
              (inventory_v1 10 2) [])
    as (_ & Hsame & Herr & _).
  - vm_compute. discriminate.
  - exact Hok.
  - rewrite (surjective_pairing (InventoryRepository.save (serial_env 2 300) _)).
    rewrite Hsame, Herr by reflexivity. vm_compute. reflexivity.
Defined.

Lemma product_save_conflicts_witness :
  product_in_step product_v1 []
  ∧ ProductRepository.save (serial_env 1 200) (product_v1, [])
    = (Throw (ConcurrencyConflict 1 0), (product_v1, [])).
Proof.
  assert (Hstep : product_in_step product_v1 []).
  { split; [reflexivity|]. vm_compute. reflexivity. }
  split; [exact Hstep|].
  rewrite (product_save_conflicts (serial_env 1 200) product_v1 [] Hstep).
  - reflexivity.
  - vm_compute. discriminate.
  - reflexivity.
  - reflexivity.
Defined.

Lemma saveSnapshot_then_latest_witness :
  let table :=
    [SnapshotStore.mkSnapshot 1 "A" "Inventory" "stock 10" 5 100] in
  keys_unique table
  ∧ SnapshotStore.getLatestSnapshot "A"
      (snd (SnapshotStore.saveSnapshot (serial_env 7 200) "A" "Inventory" "stock 8" 3
              table))
    = Some ("stock 10", 5)
  ∧ SnapshotStore.getLatestSnapshot "A"
      (snd (SnapshotStore.saveSnapshot (serial_env 7 200) "A" "Inventory" "stock 6" 5
              table))
    = Some ("stock 6", 5).
Proof.
  cbv zeta.
  assert (Hunique : keys_unique
                      [SnapshotStore.mkSnapshot 1 "A" "Inventory" "stock 10" 5 100]).
  { unfold keys_unique. cbn. apply NoDup_singleton. }
  split; [exact Hunique|].
  destruct (saveSnapshot_then_latest (serial_env 7 200) "A" "Inventory" "stock 8" 3 _
              Hunique eq_refl) as (_ & _ & _ & Hlatest3 & _).
  destruct (saveSnapshot_then_latest (serial_env 7 200) "A" "Inventory" "stock 6" 5 _
              Hunique eq_refl) as (_ & _ & _ & Hlatest5 & _).
  split; [rewrite Hlatest3|rewrite Hlatest5]; reflexivity.
Defined.

Lemma saveSnapshot_twice_witness :
  List.map SnapshotStore.snapshotData
    (snd (SnapshotStore.saveSnapshot (serial_env 9 300) "A" "Order" "stock 6" 5
            (snd (SnapshotStore.saveSnapshot (serial_env 7 200) "A" "Inventory"
                    "stock 8" 5 []))))
  = ["stock 6"]
  ∧ length
      (snd (SnapshotStore.saveSnapshot (serial_env 9 300) "A" "Order" "stock 6" 5
              (snd (SnapshotStore.saveSnapshot (serial_env 7 200) "A" "Inventory"
                      "stock 8" 5 []))))
    = 1%nat.
Proof.
  destruct (saveSnapshot_twice (serial_env 7 200) (serial_env 9 300) "A" "Inventory"
              "Order" "stock 8" "stock 6" 5 [] eq_refl eq_refl)
    as (_ & Hlength & _).
  split; [reflexivity|]. cbv zeta in Hlength. rewrite Hlength. reflexivity.
Defined.

Lemma updateProduct_rejected_half_applied_witness :
  Product.ProductAttributes.schema
    [Product.ProductAttribute.mk "" "red" Product.string_ None None] = false
  ∧ (let out :=
       Product.updateProduct (Some "Desk lamp") None None None
         (Some [Product.ProductAttribute.mk "" "red" Product.string_ None None])
         None 300 product_v1 in
     fst out = Throw (Invalid "product attributes")
     ∧ Product.name (snd out) = "Desk lamp"
     ∧ Product.getVersion (snd out) = 1).
Proof.
  split; [reflexivity|]. cbv zeta.
  destruct (updateProduct_rejected_half_applied product_v1 (Some "Desk lamp") None None
              None [Product.ProductAttribute.mk "" "red" Product.string_ None None]
              None 300 eq_refl eq_refl)
    as (Hthrown & Hname & _ & _ & _ & _ & _ & _ & Hversion & _).
  split; [exact Hthrown|]. split; [exact Hname|exact Hversion].
Defined.

Lemma discontinue_then_reactivate_witness :
  Product.isActive product_v1 = true
  ∧ Product.isProductActive
      (snd (Product.reactivate 300 (snd (Product.discontinue None 200 product_v1))))
    = true
  ∧ Product.getVersion
      (snd (Product.reactivate 300 (snd (Product.discontinue None 200 product_v1))))
    = 3.
Proof.
  split; [reflexivity|].
  destruct (discontinue_then_reactivate product_v1 None 200 300 eq_refl)
    as (_ & _ & _ & _ & Hactive & _ & _ & Hversion & _).
  split; [exact Hactive|]. rewrite Hversion. reflexivity.
Defined.

Lemma createInventoryItem_stores_then_publishes_witness :
  let publish (e : Event Inventory.InventoryEvent)
      : M (list (Event Inventory.InventoryEvent)) unit :=
    λ bus, (Ok tt, bus ++ [e]) in
  let out :=
    CommandHandlers.createInventoryItem publish "inv9" (serial_env 1 200) 100
      (CommandHandlers.mkCreateInventoryItemCommand "p1" "S1" 10 (Some 0)) ([], []) in
  fst out = Ok "inv9"
  ∧ List.map EventStore.eventData (fst (snd out))
    = [Inventory.InventoryItemCreated "p1" "S1" 10 10 0]
  ∧ List.map data (snd (snd out)) = [Inventory.InventoryItemCreated "p1" "S1" 10 10 0].
Proof.
  cbv zeta.
  destruct (createInventoryItem_stores_then_publishes
              (λ (e : Event Inventory.InventoryEvent)
                 (bus : list (Event Inventory.InventoryEvent)), (Ok tt, bus ++ [e]))
              "inv9" (serial_env 1 200) 100
              (CommandHandlers.mkCreateInventoryItemCommand "p1" "S1" 10 (Some 0))
              [] [] eq_refl (λ n, eq_refl)) as [Hout _].
  cbv zeta in Hout. rewrite Hout. repeat split.
Defined.

